(** * Shallow embedding of the control core of [src/main.py]
    ([EnhancedWebTestingAutomation]): the termination policy, the response
    parser with its JSON decoder and regular expressions, the page-state
    fingerprint, the robust oracle client, and the session loop
    [run_enhanced_test] with its cleanup. *)

From Stdlib Require Import ZArith List String Ascii Bool Lia.
Import ListNotations.
Open Scope Z_scope.
Set Warnings "-register-all".
Set Warnings "-notation-overridden".


(* ------------------------------------------------------------------ *)
(** ** Python values shared by the whole model *)

(** Python exceptions reaching the model.  [JSONDecodeError] is a
    subclass of [ValueError] in Python; the two are kept apart because the
    code catches only the former. *)
Inductive py_exc :=
| JSONDecodeError (msg : string)
| ValueError (msg : string)
| WebDriverException (msg : string)
| APIError (msg : string)
| AttributeError (msg : string)
| OtherError (msg : string).

(** A Python computation that either returns or raises. *)
Inductive pyres (A : Type) :=
| Ok (a : A)
| Raise (e : py_exc).
Arguments Ok {A} a.
Arguments Raise {A} e.

(* ------------------------------------------------------------------ *)
(** ** [should_continue_testing] (main.py, lines 598-627) *)

(** The instance attributes the policy reads and writes.  Time is the
    value of [time.time()], modelled in milliseconds as an integer. *)
Record Automation := mkAutomation {
  last_page_hash : option string;
  consecutive_same_state_count : Z;
  max_same_state_count : Z;
  successful_actions : Z;
  failed_actions : Z;
  start_time : Z
}.

(** [__init__] (lines 79-84): no previous hash, counters at zero,
    stagnation threshold 2. *)
Definition init_automation (now : Z) : Automation :=
  mkAutomation None 0 2 0 0 now.

(** The reason strings of the source, as tags carrying the numbers the
    f-strings print. *)
Inductive Reason :=
| MaxIterationsReached (max_iterations : Z)
| PageStateUnchanged (count : Z)
| HighFailureRate (failed total : Z)
| MaxTimeReached
| ContinueTesting.

Definition set_hash_state (a : Automation) (h : option string) (c : Z)
  : Automation :=
  mkAutomation h c (max_same_state_count a) (successful_actions a)
    (failed_actions a) (start_time a).

Definition opt_string_eqb (o : option string) (s : string) : bool :=
  match o with Some t => String.eqb t s | None => false end.

(** [failed / total > 0.7] on Python floats.  For action counts far below
    2^40 the correctly rounded quotient is above the double nearest 0.7
    exactly when [10 * failed > 7 * total], which is what is written. *)
Definition failure_rate_high (failed total : Z) : bool :=
  7 * total <? 10 * failed.

(** [elapsed_time > 300] seconds, with the clock in milliseconds. *)
Definition time_limit_ms : Z := 300000.

Definition should_continue_testing (self : Automation) (now : Z)
  (current_state_hash : string) (iteration max_iterations : Z)
  : (bool * Reason) * Automation :=
  if max_iterations <=? iteration
  then ((false, MaxIterationsReached max_iterations), self)
  else
    let self :=
      if opt_string_eqb (last_page_hash self) current_state_hash
      then set_hash_state self (last_page_hash self)
             (consecutive_same_state_count self + 1)
      else set_hash_state self (Some current_state_hash) 0 in
    if max_same_state_count self <=? consecutive_same_state_count self
    then ((false, PageStateUnchanged (consecutive_same_state_count self)), self)
    else
      let total_actions := successful_actions self + failed_actions self in
      if (0 <? total_actions) &&
         failure_rate_high (failed_actions self) total_actions &&
         (3 <=? total_actions)
      then ((false, HighFailureRate (failed_actions self) total_actions), self)
      else
        let elapsed_time := now - start_time self in
        if time_limit_ms <? elapsed_time
        then ((false, MaxTimeReached), self)
        else ((true, ContinueTesting), self).

(* ------------------------------------------------------------------ *)
(** ** Python [str] helpers

    A Python [str] is modelled as a Rocq [string]: each [ascii] is the code
    point U+0000..U+00FF (Latin-1 text).  Decoded JSON strings may hold
    larger code points and are lists of code points ([pystr]). *)

Definition pystr := list Z.

Definition code (c : ascii) : Z := Z.of_nat (nat_of_ascii c).

Definition pystr_of (s : string) : pystr := map code (list_ascii_of_string s).

Definition dq_char : ascii := ascii_of_nat 34.

Definition dq : string := String dq_char EmptyString.

(** [str.isspace] / regex [\s] on U+0000..U+00FF. *)
Definition py_isspace (c : ascii) : bool :=
  let n := code c in
  ((9 <=? n) && (n <=? 13)) || ((28 <=? n) && (n <=? 32)) ||
  (n =? 133) || (n =? 160).

(** [str.lower] on U+0000..U+00FF. *)
Definition py_lower_char (c : ascii) : ascii :=
  let n := nat_of_ascii c in
  if ((65 <=? n) && (n <=? 90))%nat || ((192 <=? n) && (n <=? 222) && negb (n =? 215))%nat
  then ascii_of_nat (n + 32) else c.

Fixpoint py_lower (s : string) : string :=
  match s with
  | EmptyString => EmptyString
  | String c r => String (py_lower_char c) (py_lower r)
  end.

Fixpoint starts_with (p s : string) : bool :=
  match p, s with
  | EmptyString, _ => true
  | String a p', String b s' => Ascii.eqb a b && starts_with p' s'
  | _, _ => false
  end.

(** [needle in haystack] for [str]. *)
Fixpoint py_contains (hay needle : string) : bool :=
  starts_with needle hay ||
  match hay with
  | EmptyString => false
  | String _ r => py_contains r needle
  end.

Fixpoint lstrip_py (s : string) : string :=
  match s with
  | String c r => if py_isspace c then lstrip_py r else s
  | EmptyString => EmptyString
  end.

Definition rev_string (s : string) : string :=
  string_of_list_ascii (rev (list_ascii_of_string s)).

(** [str.strip()]. *)
Definition py_strip (s : string) : string :=
  rev_string (lstrip_py (rev_string (lstrip_py s))).

(** [s[:n]]. *)
Definition py_prefix (n : nat) (s : string) : string := substring 0 n s.

(* ------------------------------------------------------------------ *)
(** ** [json.loads] (CPython's C scanner, strict mode)

    [scan_once_unicode] enters the interpreter's recursion guard
    ([_Py_EnterRecursiveCall]) on every [{] and [[] it opens.  [budget] is
    the number of nested objects and arrays that guard still admits at
    the call; it depends on the Python version, the recursion limit and
    the depth of the call stack, so every statement about the parser is
    made for every budget.  The fuel, larger than the text, only bounds
    the recursion for Rocq and never runs out. *)

Inductive jvalue :=
| JNull
| JBool (b : bool)
| JInt (z : Z)
| JFloat (literal : string)
| JStr (s : pystr)
| JArr (l : list jvalue)
| JObj (kvs : list (pystr * jvalue)).

Definition decode_error {A} (msg : string) : pyres A :=
  Raise (JSONDecodeError msg).

Definition is_json_ws (c : ascii) : bool :=
  let n := code c in (n =? 32) || (n =? 9) || (n =? 10) || (n =? 13).

Fixpoint skip_ws (s : string) : string :=
  match s with
  | String c r => if is_json_ws c then skip_ws r else s
  | EmptyString => EmptyString
  end.

Definition is_digit (c : ascii) : bool :=
  (48 <=? code c) && (code c <=? 57).

Fixpoint take_digits (s : string) : string * string :=
  match s with
  | String c r =>
      if is_digit c then let (d, rest) := take_digits r in (String c d, rest)
      else (EmptyString, s)
  | EmptyString => (EmptyString, EmptyString)
  end.

Definition head_is (c : ascii) (s : string) : bool :=
  match s with String d _ => Ascii.eqb c d | EmptyString => false end.

Definition head_digit (s : string) : bool :=
  match s with String d _ => is_digit d | EmptyString => false end.

(** [_match_number_unicode]: integer part (with sign), fraction, exponent
    and the rest of the text; [None] raises [StopIteration]. *)
Definition match_number (s : string)
  : option (string * string * string * string) :=
  let '(sign, s1) :=
    match s with
    | String c r => if Ascii.eqb c "-"%char then ("-"%string, r) else (EmptyString, s)
    | EmptyString => (EmptyString, s)
    end in
  let int_part :=
    match s1 with
    | String c r =>
        if Ascii.eqb c "0"%char then Some (String c EmptyString, r)
        else if is_digit c then let (d, rest) := take_digits r in
                                Some (String c d, rest)
        else None
    | EmptyString => None
    end in
  match int_part with
  | None => None
  | Some (ip, s2) =>
      let '(frac, s3) :=
        match s2 with
        | String c r =>
            if Ascii.eqb c "."%char && head_digit r
            then let (d, rest) := take_digits r in (String c d, rest)
            else (EmptyString, s2)
        | EmptyString => (EmptyString, s2)
        end in
      let '(exp, s4) :=
        match s3 with
        | String c r =>
            if Ascii.eqb c "e"%char || Ascii.eqb c "E"%char then
              let '(sg, r1) :=
                match r with
                | String d r' =>
                    if Ascii.eqb d "-"%char || Ascii.eqb d "+"%char
                    then (String d EmptyString, r') else (EmptyString, r)
                | EmptyString => (EmptyString, r)
                end in
              let (d, rest) := take_digits r1 in
              if String.eqb d EmptyString then (EmptyString, s3)
              else (String c (sg ++ d)%string, rest)
            else (EmptyString, s3)
        | EmptyString => (EmptyString, s3)
        end in
      Some ((sign ++ ip)%string, frac, exp, s4)
  end.

Fixpoint digits_value (s : string) (acc : Z) : Z :=
  match s with
  | String c r => digits_value r (acc * 10 + (code c - 48))
  | EmptyString => acc
  end.

(** [sys.int_info.default_max_str_digits]. *)
Definition max_str_digits : nat := 4300.

(** [PyLong_FromString(buf, NULL, 10)] on the integer literal. *)
Definition py_int_of_literal (lit : string) : pyres Z :=
  let '(neg, ds) :=
    match lit with
    | String c r => if Ascii.eqb c "-"%char then (true, r) else (false, lit)
    | EmptyString => (false, lit)
    end in
  if (max_str_digits <? String.length ds)%nat
  then Raise (ValueError "Exceeds the limit (4300 digits) for integer string conversion")
  else let v := digits_value ds 0 in Ok (if neg then - v else v).

Definition hex_value (c : ascii) : option Z :=
  let n := code c in
  if (48 <=? n) && (n <=? 57) then Some (n - 48)
  else if (65 <=? n) && (n <=? 70) then Some (n - 55)
  else if (97 <=? n) && (n <=? 102) then Some (n - 87)
  else None.

Definition hex4 (s : string) : option (Z * string) :=
  match s with
  | String a (String b (String c (String d rest))) =>
      match hex_value a, hex_value b, hex_value c, hex_value d with
      | Some x, Some y, Some z, Some w =>
          Some (((x * 16 + y) * 16 + z) * 16 + w, rest)
      | _, _, _, _ => None
      end
  | _ => None
  end.

Definition simple_escape (c : ascii) : option Z :=
  let n := code c in
  if n =? 34 then Some 34 else if n =? 92 then Some 92
  else if n =? 47 then Some 47 else if n =? 98 then Some 8
  else if n =? 102 then Some 12 else if n =? 110 then Some 10
  else if n =? 114 then Some 13 else if n =? 116 then Some 9
  else None.

(** [scanstring_unicode], strict: the text after the opening quote. *)
Fixpoint scanstring (fuel : nat) (s : string) (acc : pystr)
  : pyres (pystr * string) :=
  match fuel with
  | O => decode_error "Unterminated string"
  | S f =>
    match s with
    | EmptyString => decode_error "Unterminated string"
    | String c r =>
      if Ascii.eqb c dq_char then Ok (rev acc, r)
      else if Ascii.eqb c "\"%char then
        match r with
        | EmptyString => decode_error "Unterminated string"
        | String e r' =>
          if Ascii.eqb e "u"%char then
            match hex4 r' with
            | None => decode_error "Invalid \uXXXX escape"
            | Some (u, r2) =>
              if (55296 <=? u) && (u <=? 56319) &&
                 starts_with "\u" r2 then
                match hex4 (substring 2 (String.length r2) r2) with
                | None => decode_error "Invalid \uXXXX escape"
                | Some (u2, r3) =>
                  if (56320 <=? u2) && (u2 <=? 57343)
                  then scanstring f r3
                         (65536 + (u - 55296) * 1024 + (u2 - 56320) :: acc)
                  else scanstring f r2 (u :: acc)
                end
              else scanstring f r2 (u :: acc)
            end
          else match simple_escape e with
               | Some v => scanstring f r' (v :: acc)
               | None => decode_error "Invalid \escape"
               end
        end
      else if code c <=? 31 then decode_error "Invalid control character"
      else scanstring f r (code c :: acc)
    end
  end.

Definition stop_to_decode_error {A} (r : pyres (option A)) : pyres A :=
  match r with
  | Ok (Some a) => Ok a
  | Ok None => decode_error "Expecting value"
  | Raise e => Raise e
  end.

(** [_parse_object_unicode] after the opening brace and the blanks, for a
    non-empty object; [scan] is the value scanner. *)
Fixpoint parse_members (scan : string -> pyres (option (jvalue * string)))
  (g : nat) (t : string) (acc : list (pystr * jvalue))
  : pyres (option (jvalue * string)) :=
  match g with
  | O => decode_error "nesting"
  | S g' =>
    match t with
    | String q t' =>
      if negb (Ascii.eqb q dq_char)
      then decode_error "Expecting property name enclosed in double quotes"
      else
      match scanstring (S (String.length t')) t' [] with
      | Raise e => Raise e
      | Ok (k, t2) =>
        match skip_ws t2 with
        | String colon t3 =>
          if negb (Ascii.eqb colon ":"%char)
          then decode_error "Expecting ':' delimiter"
          else
          match stop_to_decode_error (scan (skip_ws t3)) with
          | Raise e => Raise e
          | Ok (v, t4) =>
            match skip_ws t4 with
            | String d t5 =>
              if Ascii.eqb d "}"%char
              then Ok (Some (JObj (rev ((k, v) :: acc)), t5))
              else if Ascii.eqb d ","%char
              then parse_members scan g' (skip_ws t5) ((k, v) :: acc)
              else decode_error "Expecting ',' delimiter"
            | EmptyString => decode_error "Expecting ',' delimiter"
            end
          end
        | EmptyString => decode_error "Expecting ':' delimiter"
        end
      end
    | EmptyString =>
      decode_error "Expecting property name enclosed in double quotes"
    end
  end.

(** [_parse_array_unicode] after the opening bracket and the blanks, for
    a non-empty array. *)
Fixpoint parse_elements (scan : string -> pyres (option (jvalue * string)))
  (g : nat) (t : string) (acc : list jvalue)
  : pyres (option (jvalue * string)) :=
  match g with
  | O => decode_error "nesting"
  | S g' =>
    match stop_to_decode_error (scan t) with
    | Raise e => Raise e
    | Ok (v, t4) =>
      match skip_ws t4 with
      | String d t5 =>
        if Ascii.eqb d "]"%char then Ok (Some (JArr (rev (v :: acc)), t5))
        else if Ascii.eqb d ","%char
        then parse_elements scan g' (skip_ws t5) (v :: acc)
        else decode_error "Expecting ',' delimiter"
      | EmptyString => decode_error "Expecting ',' delimiter"
      end
    end
  end.

(** The [RecursionError] raised when the guard refuses one more level. *)
Definition recursion_error (what : string) : py_exc :=
  OtherError ("RecursionError: maximum recursion depth exceeded while decoding a JSON "
              ++ what ++ " from a unicode string").

(** [scan_once_unicode]: [Ok None] is [StopIteration]. *)
Fixpoint scan_once (fuel : nat) (budget : nat) (s : string)
  : pyres (option (jvalue * string)) :=
  match fuel with
  | O => decode_error "nesting"
  | S f =>
    match s with
    | EmptyString => Ok None
    | String c r =>
      if Ascii.eqb c dq_char then
        match scanstring (S (String.length r)) r [] with
        | Ok (v, rest) => Ok (Some (JStr v, rest))
        | Raise e => Raise e
        end
      else if Ascii.eqb c "{"%char then
        match budget with
        | O => Raise (recursion_error "object")
        | S b =>
          let s1 := skip_ws r in
          if head_is "}"%char s1 then Ok (Some (JObj [], substring 1 (String.length s1) s1))
          else parse_members (scan_once f b) (S (String.length s1)) s1 []
        end
      else if Ascii.eqb c "["%char then
        match budget with
        | O => Raise (recursion_error "array")
        | S b =>
          let s1 := skip_ws r in
          if head_is "]"%char s1 then Ok (Some (JArr [], substring 1 (String.length s1) s1))
          else parse_elements (scan_once f b) (S (String.length s1)) s1 []
        end
      else if starts_with "null" s then Ok (Some (JNull, substring 4 (String.length s) s))
      else if starts_with "true" s then Ok (Some (JBool true, substring 4 (String.length s) s))
      else if starts_with "false" s then Ok (Some (JBool false, substring 5 (String.length s) s))
      else if starts_with "NaN" s then Ok (Some (JFloat "NaN", substring 3 (String.length s) s))
      else if starts_with "Infinity" s then Ok (Some (JFloat "Infinity", substring 8 (String.length s) s))
      else if starts_with "-Infinity" s then Ok (Some (JFloat "-Infinity", substring 9 (String.length s) s))
      else
        match match_number s with
        | None => Ok None
        | Some (ip, frac, exp, rest) =>
          if negb (String.eqb frac EmptyString) || negb (String.eqb exp EmptyString)
          then Ok (Some (JFloat (ip ++ frac ++ exp)%string, rest))
          else match py_int_of_literal ip with
               | Ok z => Ok (Some (JInt z, rest))
               | Raise e => Raise e
               end
        end
    end
  end.

(** [json.loads(s)]: [JSONDecoder.decode] around [raw_decode]. *)
Definition json_loads (budget : nat) (s : string) : pyres jvalue :=
  match stop_to_decode_error (scan_once (S (String.length s)) budget (skip_ws s)) with
  | Raise e => Raise e
  | Ok (v, rest) =>
      if String.eqb (skip_ws rest) EmptyString then Ok v
      else decode_error "Extra data"
  end.


(* ------------------------------------------------------------------ *)
(** ** The four patterns of [parse_ai_response] under [re.findall]
    with [re.DOTALL | re.IGNORECASE] (main.py, lines 635-640)

    Each matcher tries the pattern at the start of the text and returns
    the group and the text after the whole match.  Backtracking is
    resolved by hand: the characters around the lazy [.*?] ([\s*] then a
    backquote, or the closing brace) leave one possible match. *)

Definition ci_char_eqb (a b : ascii) : bool :=
  Ascii.eqb (py_lower_char a) (py_lower_char b).

(** The literal [p] matched case-insensitively at the start of [s]: the
    matched text and the rest. *)
Fixpoint match_ci (p s : string) : option (string * string) :=
  match p, s with
  | EmptyString, _ => Some (EmptyString, s)
  | String a p', String b s' =>
      if ci_char_eqb a b then
        match match_ci p' s' with
        | Some (m, rest) => Some (String b m, rest)
        | None => None
        end
      else None
  | _, _ => None
  end.

Fixpoint split_spaces (s : string) : string * string :=
  match s with
  | String c r =>
      if py_isspace c then let (w, rest) := split_spaces r in (String c w, rest)
      else (EmptyString, s)
  | EmptyString => (EmptyString, EmptyString)
  end.

Definition fence : string := "```".

(** The lazy [(\{.*?\})\s*```] after the opening brace: the shortest body
    whose closing brace is followed by optional spaces and a fence. *)
Fixpoint lazy_brace_fence (body_rev : list ascii) (s : string)
  : option (string * string) :=
  match s with
  | EmptyString => None
  | String c r =>
      let try_close :=
        if Ascii.eqb c "}"%char then
          match match_ci fence (snd (split_spaces r)) with
          | Some (_, rest) =>
              Some (string_of_list_ascii
                      ("{"%char :: rev ("}"%char :: body_rev)), rest)
          | None => None
          end
        else None in
      match try_close with
      | Some res => Some res
      | None => lazy_brace_fence (c :: body_rev) r
      end
  end.

(** [```json\s*(\{.*?\})\s*```] ([tag] = "json") and
    [```\s*(\{.*?\})\s*```] ([tag] = ""). *)
Definition match_fenced (tag s : string) : option (string * string) :=
  match match_ci (fence ++ tag) s with
  | None => None
  | Some (_, r) =>
      match snd (split_spaces r) with
      | String c r' =>
          if Ascii.eqb c "{"%char then lazy_brace_fence [] r' else None
      | EmptyString => None
      end
  end.

Definition action_lit : string := dq ++ "action" ++ dq.

Definition is_brace (c : ascii) : bool :=
  Ascii.eqb c "{"%char || Ascii.eqb c "}"%char.

Fixpoint split_no_brace (s : string) : string * string :=
  match s with
  | String c r =>
      if is_brace c then (EmptyString, s)
      else let (w, rest) := split_no_brace r in (String c w, rest)
  | EmptyString => (EmptyString, EmptyString)
  end.

(** Does [needle] occur, case-insensitively, in [s]? *)
Fixpoint contains_ci (s needle : string) : bool :=
  match match_ci needle s with
  | Some _ => true
  | None => match s with String _ r => contains_ci r needle | EmptyString => false end
  end.

(** [(\{[^{}]*"action"[^{}]*\})]: a brace-free run that contains the
    quoted word and is closed by [}]. *)
Definition match_flat_object (s : string) : option (string * string) :=
  match s with
  | String c r =>
      if Ascii.eqb c "{"%char then
        let (run, rest) := split_no_brace r in
        match rest with
        | String d rest' =>
            if Ascii.eqb d "}"%char && contains_ci run action_lit
            then Some (String c (run ++ "}"), rest')
            else None
        | EmptyString => None
        end
      else None
  | EmptyString => None
  end.

(** The text up to and including the first [}]. *)
Fixpoint upto_close (s : string) : option (string * string) :=
  match s with
  | String c r =>
      if Ascii.eqb c "}"%char then Some (String c EmptyString, r)
      else match upto_close r with
           | Some (w, rest) => Some (String c w, rest)
           | None => None
           end
  | EmptyString => None
  end.

(** The text up to and including the first case-insensitive occurrence
    of [needle]. *)
Fixpoint upto_ci (needle s : string) : option (string * string) :=
  match match_ci needle s with
  | Some (m, rest) => Some (m, rest)
  | None =>
      match s with
      | String c r =>
          match upto_ci needle r with
          | Some (w, rest) => Some (String c w, rest)
          | None => None
          end
      | EmptyString => None
      end
  end.

(** [(\{.*?"action".*?\})]: the first quoted word after the brace, then
    the first [}] after it. *)
Definition match_lazy_object (s : string) : option (string * string) :=
  match s with
  | String c r =>
      if Ascii.eqb c "{"%char then
        match upto_ci action_lit r with
        | Some (w1, r1) =>
            match upto_close r1 with
            | Some (w2, rest) => Some (String c (w1 ++ w2), rest)
            | None => None
            end
        | None => None
        end
      else None
  | EmptyString => None
  end.

(** [re.findall] for a pattern with one group and no empty match: scan
    left to right, resume after each match. *)
Fixpoint findall_fuel (fuel : nat) (m : string -> option (string * string))
  (s : string) : list string :=
  match fuel with
  | O => []
  | S f =>
      match s with
      | EmptyString => []
      | String _ r =>
          match m s with
          | Some (g, rest) => g :: findall_fuel f m rest
          | None => findall_fuel f m r
          end
      end
  end.

Definition findall (m : string -> option (string * string)) (s : string)
  : list string :=
  findall_fuel (S (String.length s)) m s.

Definition json_patterns : list (string -> option (string * string)) :=
  [match_fenced "json"; match_fenced ""; match_flat_object; match_lazy_object].

(** Every candidate the loop may hand to [json.loads], in order. *)
Definition json_candidates (s : string) : list string :=
  flat_map (fun p => findall p s) json_patterns.


(* ------------------------------------------------------------------ *)
(** ** [parse_ai_response] (main.py, lines 629-691) *)

Open Scope string_scope.
Open Scope list_scope.
Open Scope Z_scope.

Fixpoint pystr_eqb (a b : pystr) : bool :=
  match a, b with
  | [], [] => true
  | x :: a', y :: b' => (x =? y) && pystr_eqb a' b'
  | _, _ => false
  end.

Fixpoint pystr_prefixb (p s : pystr) : bool :=
  match p, s with
  | [], _ => true
  | x :: p', y :: s' => (x =? y) && pystr_prefixb p' s'
  | _, _ => false
  end.

Fixpoint pystr_contains (hay needle : pystr) : bool :=
  pystr_prefixb needle hay ||
  match hay with [] => false | _ :: r => pystr_contains r needle end.

(** [key in data] for the value [json.loads] returned. *)
Definition py_in (data : jvalue) (key : string) : pyres bool :=
  match data with
  | JObj kvs => Ok (existsb (fun kv => pystr_eqb (fst kv) (pystr_of key)) kvs)
  | JStr s => Ok (pystr_contains s (pystr_of key))
  | JArr l =>
      Ok (existsb (fun v => match v with
                            | JStr s => pystr_eqb s (pystr_of key)
                            | _ => false end) l)
  | _ => Raise (OtherError "TypeError: argument of type is not iterable")
  end.

(** [data.get(key)]: the last binding of a duplicated key wins. *)
Definition dict_get (data : jvalue) (key : string) : option jvalue :=
  match data with
  | JObj kvs =>
      fold_left (fun acc kv => if pystr_eqb (fst kv) (pystr_of key)
                               then Some (snd kv) else acc) kvs None
  | _ => None
  end.

Definition jstr (s : string) : jvalue := JStr (pystr_of s).

Definition mk_dict (kvs : list (string * jvalue)) : jvalue :=
  JObj (map (fun kv => (pystr_of (fst kv), snd kv)) kvs).

(** The inner loop: [json.loads(match.strip())], keep the first dict with
    an "action" key, skip on [JSONDecodeError] only. *)
Fixpoint try_matches (budget : nat) (ms : list string) : pyres (option jvalue) :=
  match ms with
  | [] => Ok None
  | m :: ms' =>
      match json_loads budget (py_strip m) with
      | Ok data =>
          match py_in data "action" with
          | Ok true => Ok (Some data)
          | Ok false => try_matches budget ms'
          | Raise e => Raise e
          end
      | Raise (JSONDecodeError _) => try_matches budget ms'
      | Raise e => Raise e
      end
  end.

(** The outer loop over [json_patterns]. *)
Fixpoint try_patterns (budget : nat) (ps : list (string -> option (string * string)))
  (response_text : string) : pyres (option jvalue) :=
  match ps with
  | [] => Ok None
  | p :: ps' =>
      match try_matches budget (findall p response_text) with
      | Ok None => try_patterns budget ps' response_text
      | r => r
      end
  end.

Definition end_keywords : list string :=
  ["complete"; "finished"; "done"; "success"; "found the";
   "task accomplished"; "objective achieved"]%string.

Definition any_in (l : list string) (s : string) : bool :=
  existsb (fun k => py_contains s k) l.

Definition quick_click_js : string :=
  "quickClick('.btn, button, a, input[type=" ++ dq ++ "submit" ++ dq ++ "]')".

Definition find_inputs_js : string :=
  "return findElements('input, textarea, select')".

Definition js_commands_of (response_lower : string) : list string :=
  (if py_contains response_lower "click(" then [quick_click_js] else []) ++
  (if py_contains response_lower "fill(" || py_contains response_lower "type"
   then [find_inputs_js] else []).

Fixpoint py_join (sep : string) (l : list string) : string :=
  match l with
  | [] => EmptyString
  | [x] => x
  | x :: l' => (x ++ sep ++ py_join sep l')%string
  end.

(** The text heuristics after the JSON attempts (lines 652-691). *)
Definition text_fallback (response_text : string) : jvalue :=
  let response_lower := py_lower response_text in
  if any_in end_keywords response_lower then
    mk_dict [("action", jstr "end"); ("analysis_report", jstr response_text)]
  else
    let js_commands :=
      if any_in ["click"; "fill"; "submit"]%string response_lower
      then js_commands_of response_lower else [] in
    match js_commands with
    | _ :: _ =>
        mk_dict [("action", jstr "javascript");
                 ("javascript", jstr (py_join "; " js_commands))]
    | [] =>
        if any_in ["wait"; "loading"]%string response_lower then
          mk_dict [("action", jstr "wait"); ("duration", JInt 3)]
        else
          mk_dict [("action", jstr "end");
                   ("analysis_report",
                    jstr ("Could not parse response. Raw response: " ++
                          py_prefix 500 response_text ++ "...")%string)]
    end.

(** [budget] is the recursion budget [json.loads] runs with. *)
Definition parse_ai_response (budget : nat) (response_text : string) : pyres jvalue :=
  if String.eqb response_text EmptyString then
    Ok (mk_dict [("action", jstr "end"); ("error", jstr "Empty response")])
  else
    match try_patterns budget json_patterns response_text with
    | Ok (Some data) => Ok data
    | Ok None => Ok (text_fallback response_text)
    | Raise e => Raise e
    end.


(** Concrete texts used below. *)
Fixpoint repeat_char (c : ascii) (n : nat) : string :=
  match n with O => EmptyString | S k => String c (repeat_char c k) end.

(** The fenced block of the spec's round-trip example. *)
Definition fenced_end_example : string :=
  "```json {" ++ dq ++ "action" ++ dq ++ ":" ++ dq ++ "end" ++ dq ++ "," ++
  dq ++ "analysis_report" ++ dq ++ ":" ++ dq ++ "done" ++ dq ++ "} ```".

Definition default_report (response_text : string) : string :=
  "Could not parse response. Raw response: " ++
  py_prefix 500 response_text ++ "...".


(* ------------------------------------------------------------------ *)
(** ** [hashlib.md5(...).hexdigest()] (RFC 1321) on 32-bit words as [Z] *)

Definition mask32 : Z := 4294967295.

Definition add32 (a b : Z) : Z := Z.land (a + b) mask32.

Definition not32 (a : Z) : Z := Z.lxor a mask32.

Definition rotl32 (x : Z) (n : Z) : Z :=
  Z.land (Z.lor (Z.shiftl x n) (Z.shiftr x (32 - n))) mask32.

Definition md5_K : list Z :=
  [   0xd76aa478; 0xe8c7b756; 0x242070db; 0xc1bdceee;
   0xf57c0faf; 0x4787c62a; 0xa8304613; 0xfd469501;
   0x698098d8; 0x8b44f7af; 0xffff5bb1; 0x895cd7be;
   0x6b901122; 0xfd987193; 0xa679438e; 0x49b40821;
   0xf61e2562; 0xc040b340; 0x265e5a51; 0xe9b6c7aa;
   0xd62f105d; 0x02441453; 0xd8a1e681; 0xe7d3fbc8;
   0x21e1cde6; 0xc33707d6; 0xf4d50d87; 0x455a14ed;
   0xa9e3e905; 0xfcefa3f8; 0x676f02d9; 0x8d2a4c8a;
   0xfffa3942; 0x8771f681; 0x6d9d6122; 0xfde5380c;
   0xa4beea44; 0x4bdecfa9; 0xf6bb4b60; 0xbebfbc70;
   0x289b7ec6; 0xeaa127fa; 0xd4ef3085; 0x04881d05;
   0xd9d4d039; 0xe6db99e5; 0x1fa27cf8; 0xc4ac5665;
   0xf4292244; 0x432aff97; 0xab9423a7; 0xfc93a039;
   0x655b59c3; 0x8f0ccc92; 0xffeff47d; 0x85845dd1;
   0x6fa87e4f; 0xfe2ce6e0; 0xa3014314; 0x4e0811a1;
   0xf7537e82; 0xbd3af235; 0x2ad7d2bb; 0xeb86d391].

Definition md5_S : list Z :=
  [7; 12; 17; 22; 7; 12; 17; 22; 7; 12; 17; 22; 7; 12; 17; 22;
   5; 9; 14; 20; 5; 9; 14; 20; 5; 9; 14; 20; 5; 9; 14; 20;
   4; 11; 16; 23; 4; 11; 16; 23; 4; 11; 16; 23; 4; 11; 16; 23;
   6; 10; 15; 21; 6; 10; 15; 21; 6; 10; 15; 21; 6; 10; 15; 21].

(** The UTF-8 bytes of [str.encode()] for code points below 256. *)
Definition utf8_encode (s : string) : list Z :=
  flat_map (fun c => let n := code c in
                     if n <? 128 then [n]
                     else [Z.lor 192 (Z.shiftr n 6); Z.lor 128 (Z.land n 63)])
           (list_ascii_of_string s).

Definition le_bytes (n : nat) (x : Z) : list Z :=
  map (fun i => Z.land (Z.shiftr x (8 * Z.of_nat i)) 255) (seq 0 n).

(** Padding: a 0x80 byte, zeros up to 56 mod 64, the bit length on 64
    bits little-endian. *)
Definition md5_pad (msg : list Z) : list Z :=
  let len := List.length msg in
  let zeros := ((119 - len mod 64) mod 64)%nat in
  msg ++ [128] ++ repeat 0 zeros ++ le_bytes 8 (8 * Z.of_nat len).

Fixpoint le_words (bytes : list Z) : list Z :=
  match bytes with
  | b0 :: b1 :: b2 :: b3 :: rest =>
      Z.lor b0 (Z.lor (Z.shiftl b1 8) (Z.lor (Z.shiftl b2 16) (Z.shiftl b3 24)))
        :: le_words rest
  | _ => []
  end.

Definition md5_state : Type := (Z * Z * Z * Z)%type.

Definition md5_round (M : list Z) (st : md5_state) (i : nat) : md5_state :=
  let '(a, b, c, d) := st in
  let '(f, g) :=
    if (i <? 16)%nat then (Z.lor (Z.land b c) (Z.land (not32 b) d), i)
    else if (i <? 32)%nat then
      (Z.lor (Z.land d b) (Z.land (not32 d) c), (5 * i + 1) mod 16)%nat
    else if (i <? 48)%nat then (Z.lxor b (Z.lxor c d), (3 * i + 5) mod 16)%nat
    else (Z.lxor c (Z.lor b (not32 d)), (7 * i) mod 16)%nat in
  let f := add32 (add32 (add32 f a) (nth i md5_K 0)) (nth g M 0) in
  (d, add32 b (rotl32 f (nth i md5_S 0)), b, c).

Definition md5_block (st : md5_state) (M : list Z) : md5_state :=
  let '(a, b, c, d) := st in
  let '(a', b', c', d') := fold_left (md5_round M) (seq 0 64) st in
  (add32 a a', add32 b b', add32 c c', add32 d d').

Fixpoint md5_blocks (fuel : nat) (st : md5_state) (words : list Z) : md5_state :=
  match fuel with
  | O => st
  | S f =>
      match words with
      | [] => st
      | _ => md5_blocks f (md5_block st (firstn 16 words)) (skipn 16 words)
      end
  end.

Definition hex_digit (n : Z) : ascii :=
  if n <? 10 then ascii_of_nat (Z.to_nat (48 + n))
  else ascii_of_nat (Z.to_nat (87 + n)).

Definition hex_byte (b : Z) : string :=
  String (hex_digit (Z.shiftr b 4)) (String (hex_digit (Z.land b 15)) EmptyString).

Definition md5_hexdigest (s : string) : string :=
  let words := le_words (md5_pad (utf8_encode s)) in
  let '(a, b, c, d) :=
    md5_blocks (List.length words) (1732584193, 4023233417, 2562383102, 271733878)
      words in
  fold_right append EmptyString
    (map hex_byte (le_bytes 4 a ++ le_bytes 4 b ++ le_bytes 4 c ++ le_bytes 4 d)).


(* ------------------------------------------------------------------ *)
(** ** [get_page_state_hash] (main.py, lines 301-327) *)

(** [str(n)] for a non-negative integer. *)
Fixpoint dec_digits (fuel : nat) (n : Z) (acc : string) : string :=
  match fuel with
  | O => acc
  | S f =>
      let acc' := String (hex_digit (n mod 10)) acc in
      if n <? 10 then acc' else dec_digits f (n / 10) acc'
  end.

Definition str_int (n : Z) : string :=
  if n <? 0 then ("-" ++ dec_digits 64 (- n) EmptyString)%string
  else dec_digits 64 n EmptyString.

Definition str_nat (n : nat) : string := str_int (Z.of_nat n).

(** [str(time.time())] for the clock in milliseconds: seconds, a dot and
    the milliseconds without trailing zeros (at least one digit). *)
Definition time_str (now : Z) : string :=
  let ms := now mod 1000 in
  let frac :=
    if Z.eqb ms 0 then "0"
    else if Z.eqb (ms mod 100) 0 then str_int (ms / 100)
    else if Z.eqb (ms mod 10) 0 then
      ((if Z.ltb ms 100 then "0" else "") ++ str_int (ms / 10))%string
    else ((if Z.ltb ms 10 then "00" else if Z.ltb ms 100 then "0" else "") ++
          str_int ms)%string in
  (str_int (now / 1000) ++ "." ++ frac)%string.

(** What each driver read of the function yields at the time of the
    call: a value, or the exception the read raises. *)
Record PageReads := mkPageReads {
  read_current_url : pyres string;
  read_title : pyres string;
  read_page_source_length : pyres nat;
  read_forms_count : pyres nat;
  read_inputs_count : pyres nat;
  read_buttons_count : pyres nat;
  read_links_count : pyres nat;
  read_ready_state : pyres string
}.

Definition state_string (url title : string)
  (content_length forms inputs buttons links : nat) (ready_state : string)
  : string :=
  url ++ "|" ++ title ++ "|" ++ str_nat content_length ++ "|" ++
  str_nat forms ++ "|" ++ str_nat inputs ++ "|" ++ str_nat buttons ++ "|" ++
  str_nat links ++ "|" ++ ready_state.

(** Both [try] blocks catch [Exception], so the function returns a
    string on every path. *)
Definition get_page_state_hash (driver : PageReads) (now : Z) : string :=
  match read_current_url driver, read_title driver with
  | Ok url, Ok title =>
      match read_page_source_length driver, read_forms_count driver,
            read_inputs_count driver, read_buttons_count driver,
            read_links_count driver, read_ready_state driver with
      | Ok content_length, Ok forms_count, Ok inputs_count,
        Ok buttons_count, Ok links_count, Ok ready_state =>
          md5_hexdigest (state_string url title content_length forms_count
                           inputs_count buttons_count links_count ready_state)
      | _, _, _, _, _, _ => md5_hexdigest (url ++ "|" ++ title)%string
      end
  | _, _ => time_str now
  end.


Definition raises {A} (r : pyres A) : bool :=
  match r with Raise _ => true | Ok _ => false end.

(** Two pages that agree on URL, title, the four element counts and the
    ready state, and differ in the length of their source. *)
Definition page_a : PageReads :=
  mkPageReads (Ok "https://example.test/") (Ok "Home") (Ok 1000%nat)
    (Ok 1%nat) (Ok 2%nat) (Ok 3%nat) (Ok 4%nat) (Ok "complete").

Definition page_b : PageReads :=
  mkPageReads (Ok "https://example.test/") (Ok "Home") (Ok 1001%nat)
    (Ok 1%nat) (Ok 2%nat) (Ok 3%nat) (Ok 4%nat) (Ok "complete").

(** A page whose URL cannot be read. *)
Definition page_lost : PageReads :=
  mkPageReads (Raise (WebDriverException "invalid session id")) (Ok "Home")
    (Ok 1000%nat) (Ok 1%nat) (Ok 2%nat) (Ok 3%nat) (Ok 4%nat) (Ok "complete").

(* ------------------------------------------------------------------ *)
(** ** The session: browser, oracle, clock and the instance attributes

    [run_enhanced_test] and the methods it calls are modelled as a state
    and exception monad.  The browser and the Gemini client are an
    environment [Env] that answers the n-th driver call and the n-th
    [generate_content] call: any fixed schedule of answers (values or
    exceptions) and of latencies is one environment. *)

(** What [execute_script(enhanced_js)] hands back to Python: a [str], or
    some other object, given by its [str()]. *)
Inductive jsresult :=
| JsStr (s : string)
| JsOther (printed : string).

(** The dict of [get_enhanced_page_info], with the keys the loop reads:
    "url", "title", the length of "interactive_elements", "ready_state"
    (absent on the error path) and "alerts". *)
Record PageInfo := mkPageInfo {
  pi_url : string;
  pi_title : string;
  pi_interactive_elements : nat;
  pi_ready_state : option string;
  pi_alerts : list string
}.

Record Env := mkEnv {
  (** [self.driver.get(url)] *)
  env_get : nat -> pyres unit;
  (** [self.wait.until(readyState == "complete")]: [Ok] when the state was
      reached before the timeout, else the exception [until] raises. *)
  env_wait_ready : nat -> pyres unit;
  (** [len(self.driver.find_elements(By.CSS_SELECTOR, "*"))] *)
  env_count_elements : nat -> pyres nat;
  (** [self.driver.save_screenshot(path)] *)
  env_save_screenshot : nat -> pyres bool;
  (** The [try] body of [get_enhanced_page_info] (lines 204-290). *)
  env_page_info : nat -> pyres PageInfo;
  (** [self.driver.current_url] *)
  env_current_url : nat -> pyres string;
  (** The reads of [get_page_state_hash]. *)
  env_state_reads : nat -> PageReads;
  (** [self.driver.execute_script(enhanced_js)] *)
  env_execute : nat -> pyres jsresult;
  (** Milliseconds the n-th driver call takes. *)
  env_driver_latency : nat -> Z;
  (** [self.model.generate_content(...).text]: the text ([""] when the
      response is empty), or the exception raised by either step. *)
  env_generate : nat -> pyres string;
  (** Milliseconds the n-th [generate_content] call takes. *)
  env_oracle_latency : nat -> Z;
  (** The recursion budget [json.loads] has inside [parse_ai_response]. *)
  env_recursion_budget : nat
}.

(** The outcome strings of [wait_for_condition]. *)
Inductive WaitResult :=
| WaitPageLoaded
| WaitContentChanged (initial_length final_length : nat)
| WaitMinimalChange (duration : jvalue)
| WaitedFor (duration : jvalue)
| WaitWarning (err : string).

(** The contents of the user messages the loop appends: each f-string of
    the source as a tag carrying the values it interpolates. *)
Inductive Feedback :=
| FbInitial (task : string) (page : PageInfo)
| FbNoJavascript
| FbJsSuccess (result : string) (page : PageInfo)
| FbJsFailed (result : string) (current_url : string)
| FbWait (result : WaitResult) (page : PageInfo)
| FbUnknownAction (action : jvalue) (raw_prefix : string)
| FbError (iteration : Z) (err : string) (current_url : string)
| FbFinal (task : string) (page : PageInfo).

(** A message dict [{'role': .., 'content': .., 'image': ..}]; a message
    appended without an "image" key has [msg_image = ""], which
    [msg.get('image')] treats the same way (both are falsy). *)
Record Message := mkMessage {
  msg_role : string;
  msg_content : Feedback;
  msg_image : string
}.

(** The parts of one [{'parts': parts}] entry of a request. *)
Inductive Part :=
| PartText (content : Feedback)
| PartImage (data : string).

(** The [content] list passed to [generate_content]. *)
Definition Request := list (list Part).

(** The lines of [test_results]. *)
Inductive LogEntry :=
| LogEmptyResponse (iteration : Z)
| LogAction (iteration : Z) (action : jvalue)
| LogJsSuccess (iteration : Z) (result_prefix : string)
| LogJsFailed (iteration : Z) (result_prefix : string)
| LogWait (iteration : Z) (result : WaitResult)
| LogUnknownAction (iteration : Z) (action : jvalue)
| LogError (iteration : Z) (err_prefix : string).

(** The four reports of [run_enhanced_test], with the values their
    f-strings print (times in milliseconds). *)
Inductive Report :=
| ReportNavigationFailed (initial_url err : string)
| ReportCompletedByAI (task : string) (iterations elapsed successful failed : Z)
    (final_page : PageInfo) (analysis : jvalue) (log : list LogEntry)
    (screenshots : Z)
| ReportCompleted (task : string) (reason : option Reason)
    (iterations elapsed successful failed : Z) (initial_url : string)
    (final_page : PageInfo) (final_analysis : string) (log : list LogEntry)
    (screenshots state_changes : Z)
| ReportFailed (task err : string) (elapsed : Z) (current_url : string)
    (iterations : Z) (log : option (list LogEntry)) (screenshots : Z).

(** The locals of [run_enhanced_test] that outlive a statement: [None]
    for a name not yet in [locals()]. *)
Record Frame := mkFrame {
  f_iteration : option Z;
  f_test_results : option (list LogEntry);
  f_messages : list Message;
  f_continue_reason : option Reason;
  f_goal_achieved : bool
}.

Definition empty_frame : Frame := mkFrame None None [] None false.

(** The whole state: the instance attributes ([st_driver] is
    [self.driver is not None]), the clock, the call counters of the
    environment, the requests sent to the oracle in order, and two
    counters that only observe the run: the calls of
    [execute_javascript_enhanced] and of [cleanup]. *)
Record St := mkSt {
  st_auto : Automation;
  st_screenshot_count : Z;
  st_driver : bool;
  st_tick : nat;
  st_clock : Z;
  st_oracle_calls : nat;
  st_sent : list Request;
  st_exec_calls : nat;
  st_cleanups : nat;
  st_frame : Frame
}.

Definition set_auto (st : St) (a : Automation) : St :=
  mkSt a (st_screenshot_count st) (st_driver st) (st_tick st) (st_clock st)
    (st_oracle_calls st) (st_sent st) (st_exec_calls st) (st_cleanups st)
    (st_frame st).

Definition set_screenshot_count (st : St) (n : Z) : St :=
  mkSt (st_auto st) n (st_driver st) (st_tick st) (st_clock st)
    (st_oracle_calls st) (st_sent st) (st_exec_calls st) (st_cleanups st)
    (st_frame st).

Definition set_clock (st : St) (c : Z) : St :=
  mkSt (st_auto st) (st_screenshot_count st) (st_driver st) (st_tick st) c
    (st_oracle_calls st) (st_sent st) (st_exec_calls st) (st_cleanups st)
    (st_frame st).

Definition set_tick_clock (st : St) (t : nat) (c : Z) : St :=
  mkSt (st_auto st) (st_screenshot_count st) (st_driver st) t c
    (st_oracle_calls st) (st_sent st) (st_exec_calls st) (st_cleanups st)
    (st_frame st).

Definition record_request (st : St) (req : Request) (c : Z) : St :=
  mkSt (st_auto st) (st_screenshot_count st) (st_driver st) (st_tick st) c
    (S (st_oracle_calls st)) (st_sent st ++ [req]) (st_exec_calls st)
    (st_cleanups st) (st_frame st).

Definition count_exec_call (st : St) : St :=
  mkSt (st_auto st) (st_screenshot_count st) (st_driver st) (st_tick st)
    (st_clock st) (st_oracle_calls st) (st_sent st) (S (st_exec_calls st))
    (st_cleanups st) (st_frame st).

Definition after_cleanup (st : St) : St :=
  mkSt (st_auto st) (st_screenshot_count st) false (st_tick st)
    (st_clock st) (st_oracle_calls st) (st_sent st) (st_exec_calls st)
    (S (st_cleanups st)) (st_frame st).

Definition set_frame (st : St) (f : Frame) : St :=
  mkSt (st_auto st) (st_screenshot_count st) (st_driver st) (st_tick st)
    (st_clock st) (st_oracle_calls st) (st_sent st) (st_exec_calls st)
    (st_cleanups st) f.

Definition with_counters (a : Automation) (succ fail : Z) : Automation :=
  mkAutomation (last_page_hash a) (consecutive_same_state_count a)
    (max_same_state_count a) succ fail (start_time a).

Definition with_start_time (a : Automation) (t : Z) : Automation :=
  mkAutomation (last_page_hash a) (consecutive_same_state_count a)
    (max_same_state_count a) (successful_actions a) (failed_actions a) t.

(** *** The monad *)

Definition M (A : Type) := Env -> St -> pyres A * St.

Definition ret {A} (a : A) : M A := fun _ st => (Ok a, st).

Definition bind {A B} (m : M A) (k : A -> M B) : M B :=
  fun env st =>
    match m env st with
    | (Ok a, st') => k a env st'
    | (Raise e, st') => (Raise e, st')
    end.

Notation "x <- m ;; k" := (bind m (fun x => k))
  (at level 100, m at next level, right associativity).
Notation "m ;;; k" := (bind m (fun _ => k))
  (at level 100, right associativity).

Definition throw {A} (e : py_exc) : M A := fun _ st => (Raise e, st).

Definition lift {A} (r : pyres A) : M A := fun _ st => (r, st).

(** [try: m except Exception as e: h(e)]: every modelled exception is an
    [Exception]. *)
Definition try_except {A} (m : M A) (h : py_exc -> M A) : M A :=
  fun env st =>
    match m env st with
    | (Raise e, st') => h e env st'
    | r => r
    end.

(** [try: m finally: fin]. *)
Definition try_finally {A} (m : M A) (fin : M unit) : M A :=
  fun env st =>
    let (r, st') := m env st in
    match fin env st' with
    | (Ok _, st'') => (r, st'')
    | (Raise e, st'') => (Raise e, st'')
    end.

Definition gets {A} (f : St -> A) : M A := fun _ st => (Ok (f st), st).

Definition modify (f : St -> St) : M unit := fun _ st => (Ok tt, f st).

Definition exc_str (e : py_exc) : string :=
  match e with
  | JSONDecodeError m | ValueError m | WebDriverException m | APIError m
  | AttributeError m | OtherError m => m
  end.

(** *** Primitives *)

(** [time.sleep(ms / 1000)] *)
Definition sleep (ms : Z) : M unit :=
  modify (fun st => set_clock st (st_clock st + ms)).

(** [time.time()] *)
Definition time_time : M Z := gets st_clock.

(** One call on [self.driver]; an attribute of [None] raises
    [AttributeError]. *)
Definition driver_call {A} (answer : Env -> nat -> pyres A) : M A :=
  fun env st =>
    if st_driver st then
      let n := st_tick st in
      (answer env n,
       set_tick_clock st (S n) (st_clock st + env_driver_latency env n))
    else (Raise (AttributeError "'NoneType' object has no attribute"), st).

(** [getattr(self.driver, 'current_url', 'unknown')]: the default covers
    [AttributeError] only. *)
Definition getattr_current_url : M string :=
  try_except (driver_call env_current_url)
    (fun e => match e with
              | AttributeError _ => ret "unknown"
              | _ => throw e
              end).

(** [f"{n:04d}"] for the screenshot counter. *)
Definition zero_pad4 (n : Z) : string :=
  let s := str_int n in
  (repeat_char "0" (4 - String.length s) ++ s)%string.

Definition screenshot_path (count : Z) : string :=
  ("test_screenshots/screenshot_" ++ zero_pad4 count ++ ".png")%string.

(** [take_screenshot_optimized] (lines 174-200); the image resizing is in
    a [try] of its own and changes nothing the model observes. *)
Definition take_screenshot_optimized : M string :=
  try_except
    (path <- gets (fun st => screenshot_path (st_screenshot_count st)) ;;
     saved <- driver_call env_save_screenshot ;;
     if negb saved then ret ""
     else
       modify (fun st => set_screenshot_count st (st_screenshot_count st + 1)) ;;;
       ret path)
    (fun _ => ret "").

(** [self.encode_image_base64(path) if path else ""]: the bytes of the file
    are not modelled; the encoded text is represented by the path it was
    read from. *)
Definition image_of (path : string) : string :=
  if String.eqb path "" then "" else ("base64:" ++ path)%string.

(** [get_enhanced_page_info] (lines 202-299). *)
Definition error_page_info (url : string) : PageInfo :=
  mkPageInfo url "Error getting page info" 0 None [].

Definition get_enhanced_page_info : M PageInfo :=
  try_except (driver_call env_page_info)
    (fun _ => url <- getattr_current_url ;; ret (error_page_info url)).

(** [get_page_state_hash] as a method: one driver interaction, then the
    pure function of the reads and of [time.time()]. *)
Definition page_state_hash : M string :=
  fun env st =>
    if st_driver st then
      let n := st_tick st in
      let st' := set_tick_clock st (S n) (st_clock st + env_driver_latency env n) in
      (Ok (get_page_state_hash (env_state_reads env n) (st_clock st')), st')
    else (Ok (time_str (st_clock st)), st).

(** [should_continue_testing] as a method. *)
Definition should_continue_m (h : string) (iteration max_iterations : Z)
  : M (bool * Reason) :=
  fun _ st =>
    let '(r, a') :=
      should_continue_testing (st_auto st) (st_clock st) h iteration
        max_iterations in
    (Ok r, set_auto st a').

Definition incr_successful : M unit :=
  modify (fun st => set_auto st (with_counters (st_auto st)
                     (successful_actions (st_auto st) + 1)
                     (failed_actions (st_auto st)))).

Definition incr_failed : M unit :=
  modify (fun st => set_auto st (with_counters (st_auto st)
                     (successful_actions (st_auto st))
                     (failed_actions (st_auto st) + 1))).

(** [execute_javascript_enhanced] (lines 329-480).  The script text is
    the wrapper around [str(js_code)]; what the browser answers is the
    environment's.  The first step only counts the call. *)
Definition execute_javascript_enhanced (js_code : jvalue) : M (bool * string) :=
  modify count_exec_call ;;;
  try_except
    (result <- driver_call env_execute ;;
     match result with
     | JsStr s =>
         if starts_with "Error:" s then incr_failed ;;; ret (false, s)
         else incr_successful ;;; sleep 1500 ;;; ret (true, s)
     | JsOther printed =>
         incr_successful ;;; sleep 1500 ;;; ret (true, printed)
     end)
    (fun e =>
       incr_failed ;;;
       ret (false, ("Error executing JavaScript: " ++ exc_str e)%string)).

(** *** [wait_for_condition] (lines 482-511) and the duration clamp *)

(** A float literal of the decoder as [m * 10^e]. *)
Definition float_parts (lit : string) : option (Z * Z) :=
  match match_number lit with
  | Some (ip, frac, exp, _) =>
      let neg := head_is "-"%char ip in
      let ipd := if neg then substring 1 (String.length ip - 1) ip else ip in
      let fd := substring 1 (String.length frac - 1) frac in
      let ed := match exp with String _ r => r | EmptyString => EmptyString end in
      let ev :=
        match ed with
        | String c r =>
            if Ascii.eqb c "-"%char then - digits_value r 0
            else if Ascii.eqb c "+"%char then digits_value r 0
            else digits_value ed 0
        | EmptyString => 0
        end in
      let m := digits_value (ipd ++ fd) 0 in
      Some (if neg then - m else m, ev - Z.of_nat (String.length fd))
  | None => None
  end.

(** [m * 10^e > t] for [t > 0], without building huge powers. *)
Definition float_gt (m e t : Z) : bool :=
  if m <=? 0 then false
  else if 0 <=? e then (40 <? e) || (t <? m * 10 ^ e)
  else let k := - e in
       if Z.log2 m + 1 <? k then false else t * 10 ^ k <? m.

(** [max(1, min(duration, 10))]: [min] keeps its first argument unless the
    second is smaller, [max] likewise unless the second is larger; a
    [bool] compares as 0 or 1; anything but a number raises.  Float
    literals are compared by their exact decimal value (the double the
    literal rounds to can only differ on literals within 2^-52 of 1 or 10,
    and then only in whether the result prints as [1]/[10] or as the
    float). *)
Definition clamp_duration (d : jvalue) : pyres jvalue :=
  match d with
  | JInt z => Ok (JInt (if 10 <? z then 10 else if 1 <? z then z else 1))
  | JBool _ => Ok (JInt 1)
  | JFloat lit =>
      if String.eqb lit "NaN" then Ok (JInt 1)
      else if String.eqb lit "Infinity" then Ok (JInt 10)
      else if String.eqb lit "-Infinity" then Ok (JInt 1)
      else match float_parts lit with
           | Some (m, e) =>
               if float_gt m e 10 then Ok (JInt 10)
               else if float_gt m e 1 then Ok (JFloat lit) else Ok (JInt 1)
           | None => Ok (JInt 1)
           end
  | _ => Raise (OtherError "TypeError: '<' not supported between instances")
  end.

(** [time.sleep(duration)] in milliseconds, for a clamped duration. *)
Definition duration_ms (d : jvalue) : Z :=
  match d with
  | JInt z => 1000 * z
  | JFloat lit =>
      match float_parts lit with
      | Some (m, e) =>
          if 0 <=? e + 3 then m * 10 ^ (e + 3) else m / 10 ^ (- (e + 3))
      | None => 0
      end
  | _ => 0
  end.

(** [v == "s"] for a decoded value and a Python literal. *)
Definition jv_is (v : jvalue) (s : string) : bool :=
  match v with JStr p => pystr_eqb p (pystr_of s) | _ => false end.

Definition wait_for_condition (condition duration : jvalue)
  : M (bool * WaitResult) :=
  try_except
    (if jv_is condition "page_load" then
       driver_call env_wait_ready ;;;
       sleep (duration_ms duration) ;;;
       ret (true, WaitPageLoaded)
     else if jv_is condition "element_change" then
       initial_length <- driver_call env_count_elements ;;
       sleep (duration_ms duration) ;;;
       final_length <- driver_call env_count_elements ;;
       if 5 <? Z.abs (Z.of_nat final_length - Z.of_nat initial_length)
       then ret (true, WaitContentChanged initial_length final_length)
       else ret (true, WaitMinimalChange duration)
     else
       sleep (duration_ms duration) ;;;
       ret (true, WaitedFor duration))
    (fun e => ret (true, WaitWarning (exc_str e))).

(** *** [call_gemini_api_robust] (lines 531-596) *)

Definition is_user (m : Message) : bool := String.eqb (msg_role m) "user".

(** [messages[-2:] if len(messages) > 2 else messages] *)
Definition recent_messages (messages : list Message) : list Message :=
  if Nat.ltb 2 (List.length messages)
  then skipn (List.length messages - 2) messages
  else messages.

Definition message_parts (m : Message) : list Part :=
  PartText (msg_content m) ::
  (if String.eqb (msg_image m) "" then [] else [PartImage (msg_image m)]).

Definition build_content (messages : list Message) : Request :=
  map message_parts (filter is_user (recent_messages messages)).

(** [self.model.generate_content(content, ...)] and its [.text]; the
    request is recorded. *)
Definition generate_content (content : Request) : M string :=
  fun env st =>
    let n := st_oracle_calls st in
    (env_generate env n,
     record_request st content (st_clock st + env_oracle_latency env n)).

(** The back-off of the three [except] branches. *)
Definition retry_delay_ms (e : py_exc) (attempt : nat) : Z :=
  let error_str := py_lower (exc_str e) in
  if py_contains error_str "quota" || py_contains error_str "limit"
  then 5000 * (Z.of_nat attempt + 1)
  else if py_contains error_str "503" || py_contains error_str "unavailable" ||
          py_contains error_str "429"
  then 3000 * (Z.of_nat attempt + 1)
  else 2000.

(** One pass of the [for attempt] loop: [Some] returns, [None] goes on. *)
Definition gemini_attempt (messages : list Message) (max_retries attempt : nat)
  : M (option string) :=
  try_except
    (text <- generate_content (build_content messages) ;;
     if String.eqb text "" then ret None else ret (Some (py_strip text)))
    (fun e =>
       if Nat.ltb attempt (max_retries - 1)
       then sleep (retry_delay_ms e attempt) ;;; ret None
       else throw e).

Fixpoint gemini_loop (messages : list Message) (max_retries : nat)
  (attempts : list nat) : M string :=
  match attempts with
  | [] => ret ""
  | attempt :: rest =>
      r <- gemini_attempt messages max_retries attempt ;;
      match r with
      | Some text => ret text
      | None => gemini_loop messages max_retries rest
      end
  end.

Definition call_gemini_api_robust (messages : list Message) (max_retries : nat)
  : M string :=
  gemini_loop messages max_retries (seq 0 max_retries).

(** *** The loop of [run_enhanced_test] (lines 749-934) *)

Definition iteration_of (fr : Frame) : Z :=
  match f_iteration fr with Some i => i | None => 0 end.

Definition results_of (fr : Frame) : list LogEntry :=
  match f_test_results fr with Some l => l | None => [] end.

Definition update_frame (f : Frame -> Frame) : M unit :=
  modify (fun st => set_frame st (f (st_frame st))).

Definition set_iteration (i : Z) (fr : Frame) : Frame :=
  mkFrame (Some i) (f_test_results fr) (f_messages fr) (f_continue_reason fr)
    (f_goal_achieved fr).

Definition set_continue_reason (r : Reason) (fr : Frame) : Frame :=
  mkFrame (f_iteration fr) (f_test_results fr) (f_messages fr) (Some r)
    (f_goal_achieved fr).

Definition set_goal_achieved (b : bool) (fr : Frame) : Frame :=
  mkFrame (f_iteration fr) (f_test_results fr) (f_messages fr)
    (f_continue_reason fr) b.

(** [test_results.append(entry)] *)
Definition add_result (entry : LogEntry) : M unit :=
  update_frame (fun fr =>
    mkFrame (f_iteration fr) (Some (results_of fr ++ [entry])) (f_messages fr)
      (f_continue_reason fr) (f_goal_achieved fr)).

(** [messages.append(m)] *)
Definition add_message (m : Message) : M unit :=
  update_frame (fun fr =>
    mkFrame (f_iteration fr) (f_test_results fr) (f_messages fr ++ [m])
      (f_continue_reason fr) (f_goal_achieved fr)).

(** [data.get(key, default)] on the value [parse_ai_response] returned. *)
Definition py_dict_get (data : jvalue) (key : string) (default : jvalue)
  : pyres jvalue :=
  match data with
  | JObj _ => Ok (match dict_get data key with Some v => v | None => default end)
  | _ => Raise (AttributeError "object has no attribute 'get'")
  end.

Definition float_lit_zero (lit : string) : bool :=
  match float_parts lit with Some (m, _) => m =? 0 | None => false end.

(** Python truthiness of a decoded value. *)
Definition py_truthy (v : jvalue) : bool :=
  match v with
  | JNull => false
  | JBool b => b
  | JInt z => negb (z =? 0)
  | JFloat lit => negb (float_lit_zero lit)
  | JStr s => match s with [] => false | _ => true end
  | JArr l => match l with [] => false | _ => true end
  | JObj kvs => match kvs with [] => false | _ => true end
  end.

(** [js_code[:100]] in the log line: a [str] or a [list] slices, any other
    decoded value raises. *)
Definition slice_check (v : jvalue) : pyres unit :=
  match v with
  | JStr _ | JArr _ => Ok tt
  | _ => Raise (OtherError "TypeError: object is not subscriptable")
  end.

(** What the [try] body of one iteration does: go on with the [while], or
    [return] a report. *)
Inductive BodyOutcome :=
| BodyContinue
| BodyReturn (r : Report).

(** [action == 'end'] (lines 781-815). *)
Definition dispatch_end (task : string) (iteration : Z) (response_data : jvalue)
  (response_text : string) : M BodyOutcome :=
  update_frame (set_goal_achieved true) ;;;
  analysis_report <- lift (py_dict_get response_data "analysis_report"
                             (JStr (pystr_of response_text))) ;;
  final_page_info <- get_enhanced_page_info ;;
  now <- time_time ;;
  st <- gets (fun st => st) ;;
  let a := st_auto st in
  ret (BodyReturn
         (ReportCompletedByAI task iteration (now - start_time a)
            (successful_actions a) (failed_actions a) final_page_info
            analysis_report (results_of (st_frame st)) (st_screenshot_count st))).

(** [action == 'javascript'] (lines 817-871). *)
Definition dispatch_javascript (iteration : Z) (response_data : jvalue)
  : M BodyOutcome :=
  js_code <- lift (py_dict_get response_data "javascript" (jstr "")) ;;
  if negb (py_truthy js_code) then
    add_message (mkMessage "user" FbNoJavascript "") ;;;
    ret BodyContinue
  else
    lift (slice_check js_code) ;;;
    r <- execute_javascript_enhanced js_code ;;
    screenshot_path <- take_screenshot_optimized ;;
    feedback <-
      (if fst r then
         page_info <- get_enhanced_page_info ;;
         add_result (LogJsSuccess iteration (py_prefix 50 (snd r))) ;;;
         ret (FbJsSuccess (snd r) page_info)
       else
         url <- driver_call env_current_url ;;
         add_result (LogJsFailed iteration (py_prefix 50 (snd r))) ;;;
         ret (FbJsFailed (snd r) url)) ;;
    add_message (mkMessage "user" feedback (image_of screenshot_path)) ;;;
    ret BodyContinue.

(** [action == 'wait'] (lines 873-903). *)
Definition dispatch_wait (iteration : Z) (response_data : jvalue)
  : M BodyOutcome :=
  d <- lift (py_dict_get response_data "duration" (JInt 3)) ;;
  duration <- lift (clamp_duration d) ;;
  condition <- lift (py_dict_get response_data "condition" (jstr "page_load")) ;;
  r <- wait_for_condition condition duration ;;
  screenshot_path <- take_screenshot_optimized ;;
  page_info <- get_enhanced_page_info ;;
  add_message (mkMessage "user" (FbWait (snd r) page_info)
                 (image_of screenshot_path)) ;;;
  add_result (LogWait iteration (snd r)) ;;;
  ret BodyContinue.

(** Any other action (lines 905-911). *)
Definition dispatch_unknown (iteration : Z) (action : jvalue)
  (response_text : string) : M BodyOutcome :=
  add_message (mkMessage "user"
                 (FbUnknownAction action (py_prefix 200 response_text)) "") ;;;
  add_result (LogUnknownAction iteration action) ;;;
  ret BodyContinue.

(** [self.parse_ai_response(response_text)] in the running interpreter. *)
Definition parse_ai_response_m (response_text : string) : M jvalue :=
  fun env st => (parse_ai_response (env_recursion_budget env) response_text, st).

(** The [try] body of one iteration (lines 765-911). *)
Definition iteration_body (task : string) (iteration : Z) : M BodyOutcome :=
  messages <- gets (fun st => f_messages (st_frame st)) ;;
  response_text <- call_gemini_api_robust messages 3 ;;
  if String.eqb response_text "" then
    add_result (LogEmptyResponse iteration) ;;; ret BodyContinue
  else
    response_data <- parse_ai_response_m response_text ;;
    action <- lift (py_dict_get response_data "action" (jstr "unknown")) ;;
    add_result (LogAction iteration action) ;;;
    if jv_is action "end" then
      dispatch_end task iteration response_data response_text
    else if jv_is action "javascript" then
      dispatch_javascript iteration response_data
    else if jv_is action "wait" then
      dispatch_wait iteration response_data
    else dispatch_unknown iteration action response_text.

(** Its [except Exception as e] (lines 913-934). *)
Definition iteration_error (iteration : Z) (e : py_exc) : M BodyOutcome :=
  screenshot_path <- take_screenshot_optimized ;;
  url <- getattr_current_url ;;
  add_message (mkMessage "user" (FbError iteration (exc_str e) url)
                 (image_of screenshot_path)) ;;;
  add_result (LogError iteration (py_prefix 50 (exc_str e))) ;;;
  ret BodyContinue.

Definition iteration_step (task : string) (iteration : Z) : M BodyOutcome :=
  try_except (iteration_body task iteration) (iteration_error iteration).

(** The [while] loop.  Each round raises [iteration] by one, so
    [Z.to_nat max_iterations + 1] rounds of fuel reach the round where the
    [while] test fails; [Some] is a [return] from inside the loop. *)
Fixpoint test_loop (task : string) (fuel : nat) (max_iterations : Z)
  : M (option Report) :=
  match fuel with
  | O => ret None
  | S f =>
      fr <- gets st_frame ;;
      if (iteration_of fr <? max_iterations) && negb (f_goal_achieved fr) then
        let iteration := iteration_of fr + 1 in
        update_frame (set_iteration iteration) ;;;
        current_state_hash <- page_state_hash ;;
        d <- should_continue_m current_state_hash iteration max_iterations ;;
        update_frame (set_continue_reason (snd d)) ;;;
        if negb (fst d) then ret None
        else
          o <- iteration_step task iteration ;;
          match o with
          | BodyReturn r => ret (Some r)
          | BodyContinue => test_loop task f max_iterations
          end
      else ret None
  end.

(** *** [run_enhanced_test] (lines 693-1024) and [cleanup] (1026-1054) *)

Inductive NavOutcome :=
| NavBreak
| NavNext
| NavReturn (r : Report).

(** The navigation [for attempt in range(3)] loop (lines 701-714). *)
Fixpoint navigate (initial_url : string) (attempts : list nat)
  : M (option Report) :=
  match attempts with
  | [] => ret None
  | attempt :: rest =>
      o <- try_except
             (driver_call env_get ;;;
              wait_for_condition (jstr "page_load") (JInt 3) ;;;
              ret NavBreak)
             (fun e =>
                if Nat.eqb attempt 2
                then ret (NavReturn (ReportNavigationFailed initial_url (exc_str e)))
                else sleep 2000 ;;; ret NavNext) ;;
      match o with
      | NavBreak => ret None
      | NavNext => navigate initial_url rest
      | NavReturn r => ret (Some r)
      end
  end.

Definition default_final_analysis : string :=
  "Test completed due to iteration/time limits.".

(** The [try] body.  [None] is the implicit [return None] after the loop
    when [goal_achieved] is set, which no path reaches. *)
Definition run_body (initial_url task : string) (max_iterations : Z)
  : M (option Report) :=
  now <- time_time ;;
  modify (fun st => set_auto st (with_start_time (st_auto st) now)) ;;;
  nav <- navigate initial_url [0; 1; 2]%nat ;;
  match nav with
  | Some r => ret (Some r)
  | None =>
    screenshot_path <- take_screenshot_optimized ;;
    page_info <- get_enhanced_page_info ;;
    update_frame (fun fr =>
      mkFrame (Some 0) (Some [])
        [mkMessage "user" (FbInitial task page_info) (image_of screenshot_path)]
        (f_continue_reason fr) false) ;;;
    exit <- test_loop task (S (Z.to_nat max_iterations)) max_iterations ;;
    match exit with
    | Some r => ret (Some r)
    | None =>
      fr <- gets st_frame ;;
      if negb (f_goal_achieved fr) then
        final_page_info <- get_enhanced_page_info ;;
        final_screenshot <- take_screenshot_optimized ;;
        final_analysis <-
          try_except
            (final_response <-
               call_gemini_api_robust
                 [mkMessage "user" (FbFinal task final_page_info)
                    (image_of final_screenshot)] 1 ;;
             ret (if String.eqb final_response "" then default_final_analysis
                  else final_response))
            (fun _ => ret default_final_analysis) ;;
        now <- time_time ;;
        st <- gets (fun st => st) ;;
        let a := st_auto st in
        let fr := st_frame st in
        ret (Some (ReportCompleted task (f_continue_reason fr) (iteration_of fr)
                     (now - start_time a) (successful_actions a)
                     (failed_actions a) initial_url final_page_info
                     final_analysis (results_of fr) (st_screenshot_count st)
                     (iteration_of fr - consecutive_same_state_count a)))
      else ret None
    end
  end.

(** The outer [except Exception as e] (lines 996-1021). *)
Definition error_report (task : string) (e : py_exc) : M (option Report) :=
  now <- time_time ;;
  driver <- gets st_driver ;;
  url <- (if driver then getattr_current_url else ret "Driver not initialized") ;;
  st <- gets (fun st => st) ;;
  let fr := st_frame st in
  ret (Some (ReportFailed task (exc_str e) (now - start_time (st_auto st)) url
               (iteration_of fr) (f_test_results fr) (st_screenshot_count st))).

(** [cleanup]: every driver call in it is inside a [try]; it ends with
    [self.driver = None]. *)
Definition cleanup : M unit := modify after_cleanup.

Definition run_enhanced_test (initial_url task : string) (max_iterations : Z)
  : M (option Report) :=
  modify (fun st => set_frame st empty_frame) ;;;
  try_finally
    (try_except (run_body initial_url task max_iterations) (error_report task))
    cleanup.

(** The STATUS line of a report ([None] for the navigation failure, which
    is a one-line string). *)
Definition reason_text (r : Reason) : string :=
  match r with
  | MaxIterationsReached m =>
      ("Maximum iterations (" ++ str_int m ++ ") reached")%string
  | PageStateUnchanged c =>
      ("Page state unchanged for " ++ str_int c ++ " iterations")%string
  | HighFailureRate f t =>
      let q := (1000 * f) / t in
      let r := (1000 * f) mod t in
      let p := if t <? 2 * r then q + 1
               else if 2 * r <? t then q
               else if Z.even q then q else q + 1 in
      ("High failure rate: " ++ str_int (p / 10) ++ "." ++ str_int (p mod 10) ++
      "% (" ++ str_int f ++ "/" ++ str_int t ++ ")")%string
  | MaxTimeReached => "Maximum time limit (5 minutes) reached"
  | ContinueTesting => "Continue testing"
  end.

Definition report_status (r : Report) : option string :=
  match r with
  | ReportNavigationFailed _ _ => None
  | ReportCompletedByAI _ _ _ _ _ _ _ _ _ => Some "COMPLETED BY AI"
  | ReportCompleted _ reason _ _ _ _ _ _ _ _ _ _ =>
      Some ("COMPLETED (" ++
            match reason with Some r => reason_text r | None => "Loop ended" end ++
            ")")%string
  | ReportFailed _ _ _ _ _ _ _ => Some "FAILED"
  end.

(** The iteration count a report prints: TOTAL ITERATIONS, or
    "Iterations completed" in the error report; the navigation failure
    prints none. *)
Definition report_iterations (r : Report) : option Z :=
  match r with
  | ReportNavigationFailed _ _ => None
  | ReportCompletedByAI _ it _ _ _ _ _ _ _ => Some it
  | ReportCompleted _ _ it _ _ _ _ _ _ _ _ _ => Some it
  | ReportFailed _ _ _ _ it _ _ => Some it
  end.

(* ------------------------------------------------------------------ *)
(** ** Concrete sessions *)

(** The reply [{"action":"end","analysis_report":"ok"}]. *)
Definition json_end_ok : string :=
  "{" ++ dq ++ "action" ++ dq ++ ":" ++ dq ++ "end" ++ dq ++ "," ++ dq ++
  "analysis_report" ++ dq ++ ":" ++ dq ++ "ok" ++ dq ++ "}".

Definition example_info : PageInfo :=
  mkPageInfo "https://example.test/" "Home" 10%nat (Some "complete") [].

Definition invalid_session : py_exc := WebDriverException "invalid session id".

(** A recursion budget near the one [json.loads] has under CPython 3.11's
    default limit of 1000 frames, called from a shallow stack. *)
Definition typical_budget : nat := 990%nat.

(** A browser that answers every call until its [k]-th driver call and
    raises [invalid session id] from then on; the model answers
    [json_end_ok] to every request. *)
Definition dead_after (k : nat) : Env :=
  mkEnv
    (fun n => if Nat.ltb n k then Ok tt else Raise invalid_session)
    (fun n => if Nat.ltb n k then Ok tt else Raise invalid_session)
    (fun n => if Nat.ltb n k then Ok 10%nat else Raise invalid_session)
    (fun n => if Nat.ltb n k then Ok true else Raise invalid_session)
    (fun n => if Nat.ltb n k then Ok example_info else Raise invalid_session)
    (fun n => if Nat.ltb n k then Ok "https://example.test/"
              else Raise invalid_session)
    (fun n => if Nat.ltb n k then page_a else page_lost)
    (fun n => if Nat.ltb n k then Ok (JsStr "clicked")
              else Raise invalid_session)
    (fun _ => 100)
    (fun _ => Ok json_end_ok)
    (fun _ => 1000)
    typical_budget.

(** A browser that never fails. *)
Definition healthy_env : Env :=
  mkEnv (fun _ => Ok tt) (fun _ => Ok tt) (fun _ => Ok 10%nat) (fun _ => Ok true)
    (fun _ => Ok example_info) (fun _ => Ok "https://example.test/")
    (fun _ => page_a) (fun _ => Ok (JsStr "clicked")) (fun _ => 100)
    (fun _ => Ok json_end_ok) (fun _ => 1000) typical_budget.

(** The browser dies after loading the first page. *)
Definition crashed_env : Env := dead_after 4.

(** Right after [__init__] at time 0. *)
Definition session_start : St :=
  mkSt (init_automation 0) 0 true 0 0 0 [] 0 0 empty_frame.

(** A model endpoint that rejects every request with a rate-limit error. *)
Definition rate_limited_env : Env :=
  mkEnv (fun _ => Ok tt) (fun _ => Ok tt) (fun _ => Ok 10%nat) (fun _ => Ok true)
    (fun _ => Ok example_info) (fun _ => Ok "https://example.test/")
    (fun _ => page_a) (fun _ => Ok (JsStr "clicked")) (fun _ => 100)
    (fun _ => Raise (APIError "429 Resource has been exhausted")) (fun _ => 1000)
    typical_budget.

(** A model whose first answer is empty and whose later answers end the
    test. *)
Definition empty_first_env : Env :=
  mkEnv (fun _ => Ok tt) (fun _ => Ok tt) (fun _ => Ok 10%nat) (fun _ => Ok true)
    (fun _ => Ok example_info) (fun _ => Ok "https://example.test/")
    (fun _ => page_a) (fun _ => Ok (JsStr "clicked")) (fun _ => 100)
    (fun n => if Nat.eqb n 0 then Ok "" else Ok json_end_ok) (fun _ => 1000)
    typical_budget.

(* ================================================================== *)
(** * Theorems *)

(** Unfolding the policy one decision at a time. *)
Ltac policy_cases :=
  unfold should_continue_testing, set_hash_state, opt_string_eqb in *;
  repeat match goal with
  | |- context [if ?b then _ else _] =>
      let E := fresh "E" in destruct b eqn:E
  | |- context [match ?o with Some _ => _ | None => _ end] =>
      let E := fresh "E" in destruct o eqn:E
  end; simpl in *.

(** C4: whenever the iteration counter has reached [max_iterations], the
    policy stops with the iteration-cap reason and leaves the stagnation
    counter, the action counters and the stored hash unchanged, whatever
    those and the clock are. *)
Theorem iteration_cap_wins :
  forall self now h iteration max_iterations,
    max_iterations <= iteration ->
    should_continue_testing self now h iteration max_iterations
    = ((false, MaxIterationsReached max_iterations), self).
Proof.
  intros self now h iteration max_iterations Hle.
  unfold should_continue_testing.
  replace (max_iterations <=? iteration) with true
    by (symmetry; apply Z.leb_le; exact Hle).
  reflexivity.
Qed.

Lemma iteration_cap_wins_witness :
  12 <= 12 /\
  should_continue_testing
    (mkAutomation (Some "h"%string) 5 2 0 9 0) 999999 "h" 12 12
  = ((false, MaxIterationsReached 12),
     mkAutomation (Some "h"%string) 5 2 0 9 0).
Proof.
  split; [lia | apply (iteration_cap_wins _ _ _ 12 12); lia].
Defined.

(** The state after the policy's stagnation update, when the iteration
    cap is not reached. *)
Definition after_hash_update (self : Automation) (h : string) : Automation :=
  if opt_string_eqb (last_page_hash self) h
  then set_hash_state self (last_page_hash self)
         (consecutive_same_state_count self + 1)
  else set_hash_state self (Some h) 0.

Lemma should_continue_below_cap :
  forall self now h iteration max_iterations,
    iteration < max_iterations ->
    should_continue_testing self now h iteration max_iterations
    = let self' := after_hash_update self h in
      if max_same_state_count self' <=? consecutive_same_state_count self'
      then ((false, PageStateUnchanged (consecutive_same_state_count self')),
            self')
      else
        let total_actions :=
          successful_actions self' + failed_actions self' in
        if (0 <? total_actions) &&
           failure_rate_high (failed_actions self') total_actions &&
           (3 <=? total_actions)
        then ((false, HighFailureRate (failed_actions self') total_actions),
              self')
        else if time_limit_ms <? now - start_time self'
        then ((false, MaxTimeReached), self')
        else ((true, ContinueTesting), self').
Proof.
  intros self now h iteration max_iterations Hlt.
  unfold should_continue_testing, after_hash_update.
  replace (max_iterations <=? iteration) with false
    by (symmetry; apply Z.leb_gt; exact Hlt).
  reflexivity.
Qed.

Lemma after_hash_update_fields :
  forall self h,
    max_same_state_count (after_hash_update self h) = max_same_state_count self
    /\ successful_actions (after_hash_update self h) = successful_actions self
    /\ failed_actions (after_hash_update self h) = failed_actions self
    /\ start_time (after_hash_update self h) = start_time self.
Proof.
  intros self h; unfold after_hash_update;
    destruct (opt_string_eqb _ _); repeat split.
Qed.

(** C3, counterexample: with the clock 400 s past the start, the
    iteration counter below its cap and the same hash seen for the third
    time, the policy answers with the stagnation reason, not the time
    cap: the time check is the last of the four. *)
Lemma time_cap_not_second :
  let self := mkAutomation (Some "h"%string) 1 2 0 0 0 in
  time_limit_ms <= 400000 - start_time self /\ 1 < 12 /\
  fst (should_continue_testing self 400000 "h" 1 12)
  = (false, PageStateUnchanged 2) /\
  fst (should_continue_testing self 400000 "h" 1 12)
  <> (false, MaxTimeReached).
Proof.
  cbv zeta; repeat split; vm_compute; congruence.
Qed.

(** C3, as the code orders the checks, first match wins: (i) the
    iteration counter at or above its cap gives the iteration-cap reason;
    (ii) below it, the updated stagnation counter at or above the
    threshold gives the stagnation reason, whatever the clock; (iii) then
    the failure-rate signal (at least 3 actions and more than 70% failed)
    gives the failure-rate reason with the failed and total counts; (iv)
    then more than 300 s elapsed gives the time-cap reason; (v) otherwise
    the session continues.  And (vi) the time-cap reason is returned
    exactly when the iteration counter is below its cap, the updated
    stagnation counter is below the threshold, the failure-rate signal is
    off, and more than 300 s have elapsed. *)
Theorem should_continue_order :
  forall self now h iteration max_iterations,
    let self' := after_hash_update self h in
    let total := successful_actions self + failed_actions self in
    let stagnant := max_same_state_count self <= consecutive_same_state_count self' in
    let failing := 3 <= total /\ 7 * total < 10 * failed_actions self in
    let timed_out := time_limit_ms < now - start_time self in
    let decision := fst (should_continue_testing self now h iteration max_iterations) in
    (max_iterations <= iteration ->
     decision = (false, MaxIterationsReached max_iterations))
    /\
    (iteration < max_iterations -> stagnant ->
     decision = (false, PageStateUnchanged (consecutive_same_state_count self')))
    /\
    (iteration < max_iterations -> ~ stagnant -> failing ->
     decision = (false, HighFailureRate (failed_actions self) total))
    /\
    (iteration < max_iterations -> ~ stagnant -> ~ failing -> timed_out ->
     decision = (false, MaxTimeReached))
    /\
    (iteration < max_iterations -> ~ stagnant -> ~ failing -> ~ timed_out ->
     decision = (true, ContinueTesting))
    /\
    (snd decision = MaxTimeReached
     <-> iteration < max_iterations
         /\ consecutive_same_state_count self' < max_same_state_count self
         /\ ~ (3 <= total /\ 7 * total < 10 * failed_actions self)
         /\ time_limit_ms < now - start_time self).
Proof.
  intros self now h iteration max_iterations. cbv zeta.
  destruct (after_hash_update_fields self h) as (Hm & Hs & Hf & Ht).
  destruct (Z_lt_le_dec iteration max_iterations) as [Hlt | Hge].
  - rewrite should_continue_below_cap by exact Hlt.
    cbv zeta. rewrite Hm, Hs, Hf, Ht.
    unfold failure_rate_high.
    set (total := successful_actions self + failed_actions self).
    set (c := consecutive_same_state_count (after_hash_update self h)).
    destruct (Z.leb_spec (max_same_state_count self) c);
      destruct (Z.ltb_spec 0 total);
      destruct (Z.ltb_spec (7 * total) (10 * failed_actions self));
      destruct (Z.leb_spec 3 total);
      destruct (Z.ltb_spec time_limit_ms (now - start_time self));
      cbn [andb fst snd];
      (split; [intros; exfalso; lia|]);
      (split; [intros; first [reflexivity | exfalso; lia]|]);
      (split; [intros; first [reflexivity | exfalso; lia]|]);
      (split; [intros; first [reflexivity | exfalso; lia]|]);
      (split; [intros; first [reflexivity | exfalso; lia]|]);
      split; intros Hx; try discriminate; try reflexivity; lia.
  - unfold should_continue_testing.
    replace (max_iterations <=? iteration) with true
      by (symmetry; apply Z.leb_le; exact Hge).
    cbn [fst snd].
    split; [reflexivity|].
    do 4 (split; [intros; exfalso; lia|]).
    split; [discriminate | lia].
Qed.

Lemma opt_string_eqb_true :
  forall o s, opt_string_eqb o s = true <-> o = Some s.
Proof.
  intros [t|] s; simpl; split; intros H; try discriminate.
  - apply String.eqb_eq in H; subst; reflexivity.
  - inversion H; subst; apply String.eqb_refl.
Qed.

Lemma should_continue_state_below_cap :
  forall self now h iteration max_iterations,
    iteration < max_iterations ->
    snd (should_continue_testing self now h iteration max_iterations)
    = after_hash_update self h.
Proof.
  intros self now h iteration max_iterations Hlt.
  rewrite should_continue_below_cap by exact Hlt. cbv zeta.
  destruct (_ <=? _); [reflexivity|].
  destruct (_ && _ && _); [reflexivity|].
  destruct (_ <? _); reflexivity.
Qed.

(** C5: below the iteration cap, each call adds one to the
    consecutive-stagnation counter when the hash equals the stored one,
    and otherwise stores the new hash and resets the counter to 0; with
    the threshold at 2 the stagnation stop is returned exactly when the
    updated counter is at least 2. *)
Theorem stagnation_counting :
  forall self now h iteration max_iterations,
    iteration < max_iterations ->
    max_same_state_count self = 2 ->
    let r := should_continue_testing self now h iteration max_iterations in
    let c' := consecutive_same_state_count (snd r) in
    (last_page_hash self = Some h ->
       c' = consecutive_same_state_count self + 1
       /\ last_page_hash (snd r) = Some h)
    /\ (last_page_hash self <> Some h ->
       c' = 0 /\ last_page_hash (snd r) = Some h)
    /\ (2 <= c' -> fst r = (false, PageStateUnchanged c'))
    /\ (forall n, snd (fst r) = PageStateUnchanged n -> 2 <= c').
Proof.
  intros self now h iteration max_iterations Hlt H2 r c'.
  subst r c'.
  rewrite should_continue_state_below_cap by exact Hlt.
  destruct (after_hash_update_fields self h) as (Hm & _ & _ & _).
  split; [|split; [|split]].
  - intros Hs. unfold after_hash_update.
    rewrite (proj2 (opt_string_eqb_true _ _) Hs). simpl.
    split; [reflexivity | exact Hs].
  - intros Hs. unfold after_hash_update.
    destruct (opt_string_eqb (last_page_hash self) h) eqn:E.
    + apply opt_string_eqb_true in E. contradiction.
    + simpl. split; reflexivity.
  - intros Hge.
    rewrite should_continue_below_cap by exact Hlt. cbv zeta.
    rewrite Hm, H2.
    replace (2 <=? consecutive_same_state_count (after_hash_update self h))
      with true by (symmetry; apply Z.leb_le; exact Hge).
    reflexivity.
  - intros n Hn.
    rewrite should_continue_below_cap in Hn by exact Hlt. cbv zeta in Hn.
    rewrite Hm, H2 in Hn.
    destruct (Z.leb_spec 2
                (consecutive_same_state_count (after_hash_update self h)))
      as [Hge | Hlt2]; [exact Hge|].
    destruct (_ && _ && _); [discriminate|].
    destruct (_ <? _); discriminate.
Qed.

Lemma stagnation_counting_witness :
  1 < 12 /\ max_same_state_count (init_automation 0) = 2 /\
  fst (should_continue_testing
         (mkAutomation (Some "h"%string) 1 2 0 0 0) 10 "h" 1 12)
  = (false, PageStateUnchanged 2).
Proof.
  split; [lia|split; [reflexivity|]].
  destruct (stagnation_counting (mkAutomation (Some "h"%string) 1 2 0 0 0)
              10 "h" 1 12 ltac:(lia) eq_refl) as (_ & _ & H & _).
  apply H. vm_compute. discriminate.
Defined.

(** ** Candidates of the JSON stage start with a brace *)

Lemma parse_members_object :
  forall scan g t acc v rest,
    parse_members scan g t acc = Ok (Some (v, rest)) ->
    exists kvs, v = JObj kvs.
Proof.
  intros scan g; induction g as [|g IH]; intros t acc v rest H;
    cbn [parse_members] in H; unfold decode_error in H; [discriminate|].
  destruct t as [|q t']; [discriminate|].
  destruct (negb (Ascii.eqb q dq_char)); [discriminate|].
  destruct (scanstring (S (String.length t')) t' []) as [[k t2]|e];
    [|discriminate].
  destruct (skip_ws t2) as [|colon t3]; [discriminate|].
  destruct (negb (Ascii.eqb colon ":"%char)); [discriminate|].
  destruct (stop_to_decode_error (scan (skip_ws t3))) as [[v' t4]|e];
    [|discriminate].
  destruct (skip_ws t4) as [|d t5]; [discriminate|].
  destruct (Ascii.eqb d "}"%char).
  - inversion H; eexists; reflexivity.
  - destruct (Ascii.eqb d ","%char); [eapply IH; exact H | discriminate].
Qed.

Lemma json_loads_brace :
  forall b r v, json_loads b (String "{"%char r) = Ok v -> exists kvs, v = JObj kvs.
Proof.
  intros b r v H. unfold json_loads in H.
  change (skip_ws (String "{"%char r)) with (String "{"%char r) in H.
  change (String.length (String "{"%char r)) with (S (String.length r)) in H.
  cbn [scan_once] in H.
  change (Ascii.eqb "{"%char dq_char) with false in H.
  change (Ascii.eqb "{"%char "{"%char) with true in H.
  cbv iota beta zeta in H.
  destruct b as [|b]; [discriminate H|].
  destruct (head_is "}"%char (skip_ws r)).
  - simpl in H. destruct (String.eqb _ _); inversion H; eexists; reflexivity.
  - destruct (parse_members _ _ _ []) as [[[v' rest]|]|e] eqn:E;
      simpl in H; unfold decode_error in H; try discriminate.
    destruct (String.eqb _ _); [|discriminate].
    inversion H; subst. eapply parse_members_object; exact E.
Qed.

Lemma lstrip_snoc :
  forall l c, py_isspace c = false ->
    exists y, lstrip_py (string_of_list_ascii (l ++ [c]))
              = string_of_list_ascii (y ++ [c]).
Proof.
  intros l c Hc; induction l as [|a l IH]; simpl.
  - rewrite Hc. exists []. reflexivity.
  - destruct (py_isspace a).
    + exact IH.
    + exists (a :: l). reflexivity.
Qed.

Lemma py_strip_brace :
  forall r, exists r', py_strip (String "{"%char r) = String "{"%char r'.
Proof.
  intros r. unfold py_strip.
  change (lstrip_py (String "{"%char r)) with (String "{"%char r).
  unfold rev_string at 2. simpl list_ascii_of_string. simpl rev.
  destruct (lstrip_snoc (rev (list_ascii_of_string r)) "{"%char eq_refl)
    as [y Hy].
  rewrite Hy. unfold rev_string.
  rewrite list_ascii_of_string_of_list_ascii, rev_app_distr. simpl.
  eexists; reflexivity.
Qed.

Lemma findall_fuel_from :
  forall n m s g, In g (findall_fuel n m s) ->
    exists t rest, m t = Some (g, rest).
Proof.
  induction n as [|n IH]; intros m s g H; simpl in H; [contradiction|].
  destruct s as [|c r]; [contradiction|].
  destruct (m (String c r)) as [[g' rest]|] eqn:E.
  - destruct H as [<-|H]; [eauto | eapply IH; exact H].
  - eapply IH; exact H.
Qed.

Lemma lazy_brace_fence_brace :
  forall s acc g rest, lazy_brace_fence acc s = Some (g, rest) ->
    exists r, g = String "{"%char r.
Proof.
  induction s as [|c r IH]; intros acc g rest H; cbn [lazy_brace_fence] in H;
    [discriminate|].
  destruct (Ascii.eqb c "}"%char).
  - destruct (match_ci fence (snd (split_spaces r))) as [[? ?]|].
    + inversion H; simpl; eexists; reflexivity.
    + eapply IH; exact H.
  - eapply IH; exact H.
Qed.

Lemma json_patterns_brace :
  forall p, In p json_patterns ->
    forall t g rest, p t = Some (g, rest) -> exists r, g = String "{"%char r.
Proof.
  intros p Hp t g rest H.
  simpl in Hp; destruct Hp as [<-|[<-|[<-|[<-|[]]]]].
  1,2: unfold match_fenced in H;
       destruct (match_ci _ t) as [[? r]|]; [|discriminate];
       destruct (snd (split_spaces r)) as [|c r']; [discriminate|];
       destruct (Ascii.eqb c "{"%char) eqn:Ec; [|discriminate];
       eapply lazy_brace_fence_brace; exact H.
  - unfold match_flat_object in H. destruct t as [|c r]; [discriminate|].
    destruct (Ascii.eqb c "{"%char) eqn:Ec; [|discriminate].
    apply Ascii.eqb_eq in Ec; subst c.
    destruct (split_no_brace r) as [run [|d rest']]; [discriminate|].
    destruct (_ && _); inversion H; eexists; reflexivity.
  - unfold match_lazy_object in H. destruct t as [|c r]; [discriminate|].
    destruct (Ascii.eqb c "{"%char) eqn:Ec; [|discriminate].
    apply Ascii.eqb_eq in Ec; subst c.
    destruct (upto_ci action_lit r) as [[w1 r1]|]; [|discriminate].
    destruct (upto_close r1) as [[w2 rest2]|]; inversion H; eexists; reflexivity.
Qed.

Lemma json_candidates_brace :
  forall s m, In m (json_candidates s) -> exists r, m = String "{"%char r.
Proof.
  intros s m H. unfold json_candidates in H.
  apply in_flat_map in H as [p [Hp Hm]].
  unfold findall in Hm. apply findall_fuel_from in Hm as [t [rest Ht]].
  eapply json_patterns_brace; eauto.
Qed.

(** ** The JSON stage raises only what [json.loads] raises beyond
    [JSONDecodeError] *)

Definition is_decode_error (e : py_exc) : Prop :=
  exists msg, e = JSONDecodeError msg.

Lemma try_matches_total :
  forall b ms,
    (forall m, In m ms -> exists r, m = String "{"%char r) ->
    (forall m e, In m ms -> json_loads b (py_strip m) = Raise e ->
                 is_decode_error e) ->
    exists o, try_matches b ms = Ok o /\
              (forall d, o = Some d -> py_in d "action" = Ok true).
Proof.
  intros b; induction ms as [|m ms IH]; intros Hb Hd.
  - exists None; split; [reflexivity | discriminate].
  - simpl.
    destruct (json_loads b (py_strip m)) as [data|e] eqn:E.
    + destruct (Hb m (or_introl eq_refl)) as [r ->].
      destruct (py_strip_brace r) as [r' Hr]. rewrite Hr in E.
      destruct (json_loads_brace _ _ _ E) as [kvs ->]. simpl py_in.
      destruct (existsb _ kvs) eqn:Ex.
      * exists (Some (JObj kvs)); split; [reflexivity|].
        intros d Hd'; inversion Hd'; simpl; rewrite Ex; reflexivity.
      * apply IH; [intros; apply Hb; right; assumption
                  | intros; eapply Hd; [right|]; eassumption].
    + destruct (Hd m e (or_introl eq_refl) E) as [msg ->].
      apply IH; [intros; apply Hb; right; assumption
                | intros; eapply Hd; [right|]; eassumption].
Qed.

Lemma try_patterns_total :
  forall b ps s,
    (forall m, In m (flat_map (fun p => findall p s) ps) ->
               exists r, m = String "{"%char r) ->
    (forall m e, In m (flat_map (fun p => findall p s) ps) ->
                 json_loads b (py_strip m) = Raise e -> is_decode_error e) ->
    exists o, try_patterns b ps s = Ok o /\
              (forall d, o = Some d -> py_in d "action" = Ok true).
Proof.
  intros b; induction ps as [|p ps IH]; intros s Hb Hd.
  - exists None; split; [reflexivity | discriminate].
  - simpl.
    destruct (try_matches_total b (findall p s))
      as [o [Ho Hact]];
      [intros; apply Hb; simpl; apply in_or_app; left; assumption
      | intros; eapply Hd; [simpl; apply in_or_app; left|]; eassumption|].
    rewrite Ho. destruct o as [d|].
    + exists (Some d); split; [reflexivity | exact Hact].
    + apply IH; [intros; apply Hb; simpl; apply in_or_app; right; assumption
                | intros; eapply Hd; [simpl; apply in_or_app; right|];
                  eassumption].
Qed.

Lemma any_in_app :
  forall l1 l2 s, any_in (l1 ++ l2) s = any_in l1 s || any_in l2 s.
Proof. intros; unfold any_in; apply existsb_app. Qed.

Lemma js_commands_of_nil :
  forall l, js_commands_of l = [] <->
    (py_contains l "click(" || py_contains l "fill(" || py_contains l "type")
    = false.
Proof.
  intros l; unfold js_commands_of.
  destruct (py_contains l "click("), (py_contains l "fill("),
    (py_contains l "type"); simpl; split; congruence.
Qed.

Lemma prefix_500_short :
  forall s, (String.length s <= 500)%nat -> py_prefix 500 s = s.
Proof.
  unfold py_prefix. intros s; revert s.
  assert (G : forall s n, (String.length s <= n)%nat -> substring 0 n s = s).
  { induction s as [|c r IH]; intros [|n] Hn; simpl in *; try reflexivity;
      [lia | f_equal; apply IH; lia]. }
  intros s H; apply G; exact H.
Qed.

(** C1, counterexample: a 600-character reply with no braces and no
    keyword ends the session with a report holding only its first 500
    characters, so the raw text is not carried. *)
Lemma long_reply_not_carried :
  let s := repeat_char "x"%char 600 in
  parse_ai_response typical_budget s
  = Ok (mk_dict [("action", jstr "end");
                 ("analysis_report", jstr (default_report s))])
  /\ pystr_contains (pystr_of (default_report s)) (pystr_of s) = false.
Proof. split; vm_compute; reflexivity. Qed.

(** The JSON stage also lets a [ValueError] of [json.loads] through: an
    integer literal of 5000 digits exceeds Python's 4300-digit limit for
    integer conversion. *)
Lemma huge_integer_escapes_parser :
  parse_ai_response typical_budget
    ("{" ++ dq ++ "action" ++ dq ++ ": " ++ repeat_char "1"%char 5000 ++ "}")
  = Raise (ValueError
             "Exceeds the limit (4300 digits) for integer string conversion").
Proof. vm_compute. reflexivity. Qed.

(** And its [RecursionError]: a candidate nested deeper than the budget
    raises it out of the parser, here with three levels left. *)
Lemma deep_nesting_escapes_parser :
  parse_ai_response 3
    ("{" ++ dq ++ "action" ++ dq ++ ": " ++ dq ++ "end" ++ dq ++ ", " ++
     dq ++ "x" ++ dq ++ ": [[[]]]}")
  = Raise (recursion_error "array").
Proof. vm_compute. reflexivity. Qed.

(** C1, as the code does it: (i) on every text for which decoding the
    regex candidates raises nothing but [JSONDecodeError], the parser
    returns a dict with an "action" key and raises nothing; (ii) the empty
    text gives the end action with error "Empty response"; (iii) the
    fenced block of the spec gives the end action with report "done";
    (iv) a non-empty text with no candidate decoding to a dict with an
    "action" key and none of the keywords gives the end action whose
    report is "Could not parse response. Raw response: ", the first 500
    characters of the text and "..."; (v) texts of at most 500 characters
    are carried whole.  All of it holds for every recursion budget of
    [json.loads] (one level suffices for the fenced block); a candidate
    nested deeper than the budget raises [RecursionError], which (i)
    excludes. *)
Theorem parse_ai_response_contract :
  (forall budget s,
     (forall m e, In m (json_candidates s) ->
                  json_loads budget (py_strip m) = Raise e -> is_decode_error e) ->
     exists d, parse_ai_response budget s = Ok d /\ py_in d "action" = Ok true)
  /\ (forall budget, parse_ai_response budget ""
     = Ok (mk_dict [("action", jstr "end"); ("error", jstr "Empty response")]))
  /\ (forall budget, parse_ai_response (S budget) fenced_end_example
     = Ok (mk_dict [("action", jstr "end"); ("analysis_report", jstr "done")]))
  /\ (forall budget s, s <> "" -> try_patterns budget json_patterns s = Ok None ->
       any_in (end_keywords ++ ["click"; "fill"; "submit"] ++
               ["wait"; "loading"]) (py_lower s) = false ->
       parse_ai_response budget s
       = Ok (mk_dict [("action", jstr "end");
                      ("analysis_report", jstr (default_report s))]))
  /\ (forall s, (String.length s <= 500)%nat -> py_prefix 500 s = s).
Proof.
  split; [|split; [reflexivity|split; [intros budget; vm_compute; reflexivity|split]]].
  - intros budget s Hd. unfold parse_ai_response.
    destruct (String.eqb s "") eqn:Es.
    + eexists; split; [reflexivity | reflexivity].
    + destruct (try_patterns_total budget json_patterns s) as [o [Ho Hact]];
        [exact (json_candidates_brace s) | exact Hd |].
      rewrite Ho. destruct o as [d|].
      * exists d; split; [reflexivity | apply Hact; reflexivity].
      * unfold text_fallback.
        destruct (any_in end_keywords (py_lower s)).
        { eexists; split; reflexivity. }
        destruct (if any_in ["click"; "fill"; "submit"] (py_lower s)
                  then js_commands_of (py_lower s) else []) as [|? ?].
        { destruct (any_in ["wait"; "loading"] (py_lower s));
            eexists; split; reflexivity. }
        eexists; split; reflexivity.
  - intros budget s Hne Hj Hk. unfold parse_ai_response.
    replace (String.eqb s "") with false
      by (symmetry; apply String.eqb_neq; exact Hne).
    rewrite Hj. unfold text_fallback.
    rewrite !any_in_app in Hk.
    apply orb_false_iff in Hk as [H1 Hk]. apply orb_false_iff in Hk as [H2 H3].
    rewrite H1, H2, H3. reflexivity.
  - exact prefix_500_short.
Qed.

Lemma parse_ai_response_contract_witness :
  json_candidates "Error: element not found" = [] /\
  exists d, parse_ai_response typical_budget "Error: element not found" = Ok d
            /\ py_in d "action" = Ok true.
Proof.
  split; [vm_compute; reflexivity|].
  apply (proj1 parse_ai_response_contract).
  intros m e Hm. vm_compute in Hm. contradiction.
Defined.

(** C9, counterexample: "please click the button" has no JSON candidate
    and contains "click", yet the parser answers with the default end
    action: a script is produced only when the text also holds "click(",
    "fill(" or "type". *)
Lemma click_word_without_call_ends :
  let s := "please click the button" in
  json_candidates s = [] /\
  try_patterns typical_budget json_patterns s = Ok None /\
  py_contains (py_lower s) "click" = true /\
  parse_ai_response typical_budget s
  = Ok (mk_dict [("action", jstr "end");
                 ("analysis_report", jstr (default_report s))]).
Proof. repeat split; vm_compute; reflexivity. Qed.

(** C9, as the code does it: once no JSON candidate gives a dict with an
    "action" key, the lowercased text is mapped as follows, first match
    wins: one of "complete", "finished", "done", "success", "found the",
    "task accomplished", "objective achieved" gives the end action with
    the raw text as report; else one of "click", "fill", "submit" together
    with "click(", "fill(" or "type" gives a javascript action (a generic
    [quickClick] call for "click(", a [findElements] call for "fill(" or
    "type", joined by "; "); else "wait" or "loading" gives a wait action
    of 3 seconds; else the end action with the default report.  It holds
    for every recursion budget of [json.loads]; a candidate nested deeper
    than the budget makes the JSON stage raise [RecursionError], so the
    mapping is not reached. *)
Theorem text_fallback_mapping :
  forall budget s, s <> "" -> try_patterns budget json_patterns s = Ok None ->
    let l := py_lower s in
    let call := py_contains l "click(" || py_contains l "fill(" ||
                py_contains l "type" in
    (any_in end_keywords l = true ->
       parse_ai_response budget s
       = Ok (mk_dict [("action", jstr "end"); ("analysis_report", jstr s)]))
    /\ (any_in end_keywords l = false ->
        any_in ["click"; "fill"; "submit"] l = true -> call = true ->
        parse_ai_response budget s
        = Ok (mk_dict [("action", jstr "javascript");
                       ("javascript", jstr (py_join "; " (js_commands_of l)))]))
    /\ (any_in end_keywords l = false ->
        (any_in ["click"; "fill"; "submit"] l = false \/ call = false) ->
        any_in ["wait"; "loading"] l = true ->
        parse_ai_response budget s
        = Ok (mk_dict [("action", jstr "wait"); ("duration", JInt 3)]))
    /\ (any_in end_keywords l = false ->
        (any_in ["click"; "fill"; "submit"] l = false \/ call = false) ->
        any_in ["wait"; "loading"] l = false ->
        parse_ai_response budget s
        = Ok (mk_dict [("action", jstr "end");
                       ("analysis_report", jstr (default_report s))])).
Proof.
  intros budget s Hne Hj l call.
  assert (P : parse_ai_response budget s = Ok (text_fallback s)).
  { unfold parse_ai_response.
    replace (String.eqb s "") with false
      by (symmetry; apply String.eqb_neq; exact Hne).
    rewrite Hj. reflexivity. }
  rewrite P. unfold text_fallback. fold l.
  assert (Nil : (if any_in ["click"; "fill"; "submit"] l
                 then js_commands_of l else []) = [] <->
                any_in ["click"; "fill"; "submit"] l = false \/ call = false).
  { destruct (any_in ["click"; "fill"; "submit"] l).
    - rewrite js_commands_of_nil. fold call. intuition congruence.
    - intuition. }
  split; [|split; [|split]].
  - intros H1; rewrite H1; reflexivity.
  - intros H1 H2 H3; rewrite H1, H2.
    destruct (js_commands_of l) eqn:E.
    + apply js_commands_of_nil in E. fold call in E. congruence.
    + reflexivity.
  - intros H1 H2 H3; rewrite H1.
    apply Nil in H2. rewrite H2, H3. reflexivity.
  - intros H1 H2 H3; rewrite H1.
    apply Nil in H2. rewrite H2, H3. reflexivity.
Qed.

Lemma text_fallback_mapping_witness :
  "please wait a moment" <> "" /\
  try_patterns typical_budget json_patterns "please wait a moment" = Ok None /\
  parse_ai_response typical_budget "please wait a moment"
  = Ok (mk_dict [("action", jstr "wait"); ("duration", JInt 3)]).
Proof.
  assert (Hj : try_patterns typical_budget json_patterns "please wait a moment"
               = Ok None)
    by (vm_compute; reflexivity).
  split; [discriminate | split; [exact Hj|]].
  destruct (text_fallback_mapping typical_budget "please wait a moment"
              ltac:(discriminate) Hj)
    as (_ & _ & H & _).
  apply H; [vm_compute; reflexivity | left; vm_compute; reflexivity
           | vm_compute; reflexivity].
Defined.

Lemma should_continue_order_witness :
  snd (fst (should_continue_testing
              (mkAutomation (Some "h"%string) 0 2 1 0 0) 400000 "g" 1 12))
  = MaxTimeReached.
Proof.
  destruct (should_continue_order
              (mkAutomation (Some "h"%string) 0 2 1 0 0) 400000 "g" 1 12)
    as (_ & _ & _ & _ & _ & H).
  apply H.
  vm_compute. repeat split; try reflexivity; intros [H1 H2]; discriminate.
Defined.

(** C8, counterexample: two pages with the same URL, title, element
    counts and ready state but source lengths 1000 and 1001 get different
    fingerprints; and a page whose URL cannot be read gets the clock
    reading, different at two instants, not a fixed sentinel. *)
Lemma fingerprint_not_fixed :
  read_current_url page_a = read_current_url page_b /\
  read_title page_a = read_title page_b /\
  read_forms_count page_a = read_forms_count page_b /\
  read_inputs_count page_a = read_inputs_count page_b /\
  read_buttons_count page_a = read_buttons_count page_b /\
  read_links_count page_a = read_links_count page_b /\
  read_ready_state page_a = read_ready_state page_b /\
  get_page_state_hash page_a 0 <> get_page_state_hash page_b 0 /\
  get_page_state_hash page_lost 1000 <> get_page_state_hash page_lost 2000.
Proof.
  repeat split; try reflexivity; intros H; vm_compute in H; discriminate H.
Qed.

(** C8, as the code does it: the function returns a string on every path;
    with URL and title readable it is the MD5 hex digest of
    "url|title|source length|forms|inputs|buttons|links|ready state", or,
    when one of the last six reads raises, of "url|title", and in both
    cases it does not depend on the clock; when the URL or the title read
    raises it is the text of the current time. *)
Theorem fingerprint_contract :
  (forall driver now url title content_length forms inputs buttons links
          ready_state,
     read_current_url driver = Ok url -> read_title driver = Ok title ->
     read_page_source_length driver = Ok content_length ->
     read_forms_count driver = Ok forms -> read_inputs_count driver = Ok inputs ->
     read_buttons_count driver = Ok buttons ->
     read_links_count driver = Ok links ->
     read_ready_state driver = Ok ready_state ->
     get_page_state_hash driver now
     = md5_hexdigest (state_string url title content_length forms inputs
                        buttons links ready_state))
  /\ (forall driver now url title,
     read_current_url driver = Ok url -> read_title driver = Ok title ->
     raises (read_page_source_length driver) || raises (read_forms_count driver)
     || raises (read_inputs_count driver) || raises (read_buttons_count driver)
     || raises (read_links_count driver) || raises (read_ready_state driver)
     = true ->
     get_page_state_hash driver now = md5_hexdigest (url ++ "|" ++ title))
  /\ (forall driver now,
     raises (read_current_url driver) || raises (read_title driver) = true ->
     get_page_state_hash driver now = time_str now)
  /\ (forall driver now1 now2,
     raises (read_current_url driver) || raises (read_title driver) = false ->
     get_page_state_hash driver now1 = get_page_state_hash driver now2).
Proof.
  split; [|split; [|split]].
  - intros driver now url title cl f i b l rs Hu Ht Hc Hf Hi Hb Hl Hr.
    unfold get_page_state_hash. rewrite Hu, Ht, Hc, Hf, Hi, Hb, Hl, Hr.
    reflexivity.
  - intros driver now url title Hu Ht Hraise.
    unfold get_page_state_hash. rewrite Hu, Ht.
    destruct (read_page_source_length driver), (read_forms_count driver),
      (read_inputs_count driver), (read_buttons_count driver),
      (read_links_count driver), (read_ready_state driver);
      simpl in Hraise; first [discriminate | reflexivity].
  - intros driver now H. unfold get_page_state_hash.
    destruct (read_current_url driver), (read_title driver);
      simpl in H; first [discriminate | reflexivity].
  - intros driver now1 now2 H. unfold get_page_state_hash.
    destruct (read_current_url driver), (read_title driver);
      simpl in H; try discriminate; reflexivity.
Qed.

Lemma fingerprint_contract_witness :
  get_page_state_hash page_lost 1234 = time_str 1234 /\
  get_page_state_hash page_a 5 = get_page_state_hash page_a 7.
Proof.
  split.
  - apply (proj1 (proj2 (proj2 fingerprint_contract))). reflexivity.
  - apply (proj2 (proj2 (proj2 fingerprint_contract))). reflexivity.
Defined.

(* ------------------------------------------------------------------ *)
(** ** Reasoning about the monad *)

Lemma bind_ok {A B} (m : M A) (k : A -> M B) env st a st' :
  m env st = (Ok a, st') -> bind m k env st = k a env st'.
Proof. intros H. unfold bind. rewrite H. reflexivity. Qed.

Lemma bind_raise {A B} (m : M A) (k : A -> M B) env st e st' :
  m env st = (Raise e, st') -> bind m k env st = (Raise e, st').
Proof. intros H. unfold bind. rewrite H. reflexivity. Qed.

(** *** The action counters move only with script executions

    [counted allow st st']: from [st] to [st'] the two counters grew by
    [ds] and [df], the calls of [execute_javascript_enhanced] by
    [ds + df], and by nothing at all when [allow] is [false]. *)
Definition counted (allow : bool) (st st' : St) : Prop :=
  exists ds df,
    successful_actions (st_auto st') = successful_actions (st_auto st) + ds /\
    failed_actions (st_auto st') = failed_actions (st_auto st) + df /\
    0 <= ds /\ 0 <= df /\
    Z.of_nat (st_exec_calls st') = Z.of_nat (st_exec_calls st) + ds + df /\
    (allow = false -> ds = 0 /\ df = 0).

Definition counts {A} (allow : bool) (m : M A) : Prop :=
  forall env st, counted allow st (snd (m env st)).

Lemma counted_refl allow st : counted allow st st.
Proof. exists 0, 0. do 5 (split; [lia |]). split; reflexivity. Qed.

Lemma counted_trans allow st1 st2 st3 :
  counted allow st1 st2 -> counted allow st2 st3 -> counted allow st1 st3.
Proof.
  intros (d1 & f1 & H1 & H2 & H3 & H4 & H5 & H6)
         (d2 & f2 & G1 & G2 & G3 & G4 & G5 & G6).
  exists (d1 + d2), (f1 + f2).
  do 5 (split; [lia |]).
  intros Ha. destruct (H6 Ha), (G6 Ha). split; lia.
Qed.

(** A step that leaves counters and calls alone. *)
Definition same_counts (st st' : St) : Prop :=
  successful_actions (st_auto st') = successful_actions (st_auto st) /\
  failed_actions (st_auto st') = failed_actions (st_auto st) /\
  st_exec_calls st' = st_exec_calls st.

Lemma counted_same allow st st' : same_counts st st' -> counted allow st st'.
Proof.
  intros (H1 & H2 & H3). exists 0, 0. rewrite H1, H2, H3.
  do 5 (split; [lia |]). split; reflexivity.
Qed.

Lemma counts_ret {A} allow (a : A) : counts allow (ret a).
Proof. intros env st. apply counted_refl. Qed.

Lemma counts_throw {A} allow e : counts allow (@throw A e).
Proof. intros env st. apply counted_refl. Qed.

Lemma counts_lift {A} allow (r : pyres A) : counts allow (lift r).
Proof. intros env st. apply counted_refl. Qed.

Lemma counts_parse_ai_response_m allow text :
  counts allow (parse_ai_response_m text).
Proof. intros env st. apply counted_refl. Qed.

Lemma counts_gets {A} allow (f : St -> A) : counts allow (gets f).
Proof. intros env st. apply counted_refl. Qed.

Lemma counts_modify allow f :
  (forall st, same_counts st (f st)) -> counts allow (modify f).
Proof. intros H env st. apply counted_same, H. Qed.

Lemma counts_bind {A B} allow (m : M A) (k : A -> M B) :
  counts allow m -> (forall a, counts allow (k a)) -> counts allow (bind m k).
Proof.
  intros Hm Hk env st. unfold bind.
  specialize (Hm env st). destruct (m env st) as [[a|e] st1]; simpl in *.
  - eapply counted_trans; [exact Hm | apply Hk].
  - exact Hm.
Qed.

Lemma counts_try_except {A} allow (m : M A) h :
  counts allow m -> (forall e, counts allow (h e)) ->
  counts allow (try_except m h).
Proof.
  intros Hm Hh env st. unfold try_except.
  specialize (Hm env st). destruct (m env st) as [[a|e] st1]; simpl in *.
  - exact Hm.
  - eapply counted_trans; [exact Hm | apply Hh].
Qed.

Lemma counts_try_finally {A} allow (m : M A) fin :
  counts allow m -> counts allow fin -> counts allow (try_finally m fin).
Proof.
  intros Hm Hf env st. unfold try_finally.
  specialize (Hm env st). destruct (m env st) as [r st1]; simpl in *.
  specialize (Hf env st1). destruct (fin env st1) as [[u|e] st2]; simpl in *;
    eapply counted_trans; eassumption.
Qed.

Lemma counts_driver_call {A} allow (answer : Env -> nat -> pyres A) :
  counts allow (driver_call answer).
Proof.
  intros env st. unfold driver_call.
  destruct (st_driver st); simpl; [apply counted_same; repeat split | apply counted_refl].
Qed.

Lemma counts_generate_content allow req : counts allow (generate_content req).
Proof. intros env st. apply counted_same. repeat split. Qed.

Lemma counts_page_state_hash allow : counts allow page_state_hash.
Proof.
  intros env st. unfold page_state_hash.
  destruct (st_driver st); simpl; [apply counted_same; repeat split | apply counted_refl].
Qed.

Lemma should_continue_counters self now h it mx :
  successful_actions (snd (should_continue_testing self now h it mx)) =
    successful_actions self /\
  failed_actions (snd (should_continue_testing self now h it mx)) =
    failed_actions self.
Proof.
  unfold should_continue_testing.
  destruct (mx <=? it); [split; reflexivity |].
  destruct (opt_string_eqb (last_page_hash self) h); cbn [set_hash_state];
    repeat match goal with |- context [if ?b then _ else _] => destruct b end;
    split; reflexivity.
Qed.

Lemma counts_should_continue_m allow h it mx :
  counts allow (should_continue_m h it mx).
Proof.
  intros env st. unfold should_continue_m.
  destruct (should_continue_testing (st_auto st) (st_clock st) h it mx)
    as [r a'] eqn:E.
  apply counted_same. simpl.
  pose proof (should_continue_counters (st_auto st) (st_clock st) h it mx) as H.
  rewrite E in H. simpl in H. destruct H as [H1 H2]. repeat split; assumption.
Qed.

Create HintDb counting.
#[local] Hint Resolve counts_ret counts_throw counts_lift counts_gets
  counts_parse_ai_response_m
  counts_driver_call counts_generate_content counts_page_state_hash
  counts_should_continue_m : counting.

(** Unfold the step at the head of a goal [counts _ m] and split it. *)
Ltac counts_tac :=
  repeat
    match goal with
    | |- counts _ (bind _ _) => apply counts_bind; [ | intro ]
    | |- counts _ (try_except _ _) => apply counts_try_except; [ | intro ]
    | |- counts _ (try_finally _ _) => apply counts_try_finally
    | |- counts _ (modify _) =>
        apply counts_modify; intro; repeat split
    | |- counts _ (if ?b then _ else _) => destruct b
    | |- counts _ (match ?x with _ => _ end) => destruct x
    | |- counts _ (let (_, _) := ?x in _) => destruct x
    | |- counts _ _ => solve [eauto with counting]
    end.

Lemma counts_sleep allow ms : counts allow (sleep ms).
Proof. unfold sleep. counts_tac. Qed.
#[local] Hint Resolve counts_sleep : counting.

Lemma counts_getattr_current_url allow : counts allow getattr_current_url.
Proof. unfold getattr_current_url. counts_tac. Qed.
#[local] Hint Resolve counts_getattr_current_url : counting.

Lemma counts_take_screenshot allow : counts allow take_screenshot_optimized.
Proof. unfold take_screenshot_optimized. counts_tac. Qed.
#[local] Hint Resolve counts_take_screenshot : counting.

Lemma counts_page_info allow : counts allow get_enhanced_page_info.
Proof. unfold get_enhanced_page_info. counts_tac. Qed.
#[local] Hint Resolve counts_page_info : counting.

Lemma counts_wait_for_condition allow c d : counts allow (wait_for_condition c d).
Proof. unfold wait_for_condition. counts_tac. Qed.
#[local] Hint Resolve counts_wait_for_condition : counting.

Lemma counts_gemini_attempt allow msgs n a : counts allow (gemini_attempt msgs n a).
Proof. unfold gemini_attempt. counts_tac. Qed.
#[local] Hint Resolve counts_gemini_attempt : counting.

Lemma counts_gemini_loop allow msgs n l : counts allow (gemini_loop msgs n l).
Proof. induction l; simpl; counts_tac. Qed.
#[local] Hint Resolve counts_gemini_loop : counting.

Lemma counts_call_gemini allow msgs n : counts allow (call_gemini_api_robust msgs n).
Proof. unfold call_gemini_api_robust. counts_tac. Qed.
#[local] Hint Resolve counts_call_gemini : counting.

Lemma counts_update_frame allow f : counts allow (update_frame f).
Proof. unfold update_frame. counts_tac. Qed.
#[local] Hint Resolve counts_update_frame : counting.

Lemma counts_add_result allow l : counts allow (add_result l).
Proof. unfold add_result. counts_tac. Qed.
#[local] Hint Resolve counts_add_result : counting.

Lemma counts_add_message allow m : counts allow (add_message m).
Proof. unfold add_message. counts_tac. Qed.
#[local] Hint Resolve counts_add_message : counting.

(** [execute_javascript_enhanced] returns on every path, after one call
    and exactly one increment. *)
Lemma execute_javascript_exactly_one js env st :
  let '(r, st') := execute_javascript_enhanced js env st in
  (exists v, r = Ok v) /\
  st_exec_calls st' = S (st_exec_calls st) /\
  ((successful_actions (st_auto st') = successful_actions (st_auto st) + 1 /\
    failed_actions (st_auto st') = failed_actions (st_auto st)) \/
   (successful_actions (st_auto st') = successful_actions (st_auto st) /\
    failed_actions (st_auto st') = failed_actions (st_auto st) + 1)).
Proof.
  unfold execute_javascript_enhanced, bind, modify, try_except, driver_call.
  cbn -[starts_with].
  destruct (st_driver st).
  - destruct (env_execute env (st_tick st)) as [[s|p]|e].
    + destruct (starts_with "Error:" s); cbn; split; eauto.
    + cbn; split; eauto.
    + cbn; split; eauto.
  - cbn; split; eauto.
Qed.

Lemma counts_execute_javascript js : counts true (execute_javascript_enhanced js).
Proof.
  intros env st. pose proof (execute_javascript_exactly_one js env st) as H.
  destruct (execute_javascript_enhanced js env st) as [r st'].
  destruct H as (_ & Hc & [[H1 H2] | [H1 H2]]); simpl.
  - exists 1, 0. rewrite H1, H2, Hc. repeat split; try lia; discriminate.
  - exists 0, 1. rewrite H1, H2, Hc. repeat split; try lia; discriminate.
Qed.
#[local] Hint Resolve counts_execute_javascript : counting.

Lemma counts_dispatch_wait allow it data : counts allow (dispatch_wait it data).
Proof. unfold dispatch_wait. counts_tac. Qed.

Lemma counts_dispatch_unknown allow it action text :
  counts allow (dispatch_unknown it action text).
Proof. unfold dispatch_unknown. counts_tac. Qed.

Lemma counts_dispatch_end allow task it data text :
  counts allow (dispatch_end task it data text).
Proof. unfold dispatch_end. counts_tac. Qed.

Lemma counts_iteration_error allow it e : counts allow (iteration_error it e).
Proof. unfold iteration_error. counts_tac. Qed.

Lemma counts_dispatch_javascript it data : counts true (dispatch_javascript it data).
Proof. unfold dispatch_javascript. counts_tac. Qed.

#[local] Hint Resolve counts_dispatch_wait counts_dispatch_unknown
  counts_dispatch_end counts_iteration_error counts_dispatch_javascript
  : counting.

Lemma counts_iteration_step task it : counts true (iteration_step task it).
Proof. unfold iteration_step, iteration_body. counts_tac. Qed.
#[local] Hint Resolve counts_iteration_step : counting.

Lemma counts_test_loop task fuel mx : counts true (test_loop task fuel mx).
Proof. revert mx; induction fuel; intros mx; simpl; counts_tac. Qed.
#[local] Hint Resolve counts_test_loop : counting.

Lemma counts_navigate url l : counts true (navigate url l).
Proof. induction l; simpl; counts_tac. Qed.
#[local] Hint Resolve counts_navigate : counting.

Lemma counts_run_enhanced_test url task mx : counts true (run_enhanced_test url task mx).
Proof.
  unfold run_enhanced_test, run_body, error_report, cleanup. counts_tac.
Qed.

(** *** The requests sent to the oracle *)

Lemma forall_skipn {A} (P : A -> Prop) n (l : list A) :
  Forall P l -> Forall P (skipn n l).
Proof.
  revert l; induction n; intros l H; [exact H |].
  destruct l; simpl; [constructor |]. inversion H; subst; auto.
Qed.

Lemma filter_all_users (l : list Message) :
  Forall (fun m => is_user m = true) l -> filter is_user l = l.
Proof.
  induction l as [|m l IH]; intros H; [reflexivity |].
  inversion H; subst. simpl. rewrite H2, IH by assumption. reflexivity.
Qed.

Lemma recent_messages_skipn (messages : list Message) :
  recent_messages messages = skipn (List.length messages - 2) messages.
Proof.
  unfold recent_messages. destruct (Nat.ltb_spec 2 (List.length messages)).
  - reflexivity.
  - replace (List.length messages - 2)%nat with 0%nat by lia. reflexivity.
Qed.

Lemma build_content_window (messages : list Message) :
  build_content messages =
    map message_parts (filter is_user (skipn (List.length messages - 2) messages)) /\
  (List.length (build_content messages) <= 2)%nat.
Proof.
  unfold build_content. rewrite recent_messages_skipn. split; [reflexivity |].
  rewrite length_map.
  eapply Nat.le_trans; [apply filter_length_le |].
  rewrite length_skipn. lia.
Qed.

(** [sends_only req m]: every request [m] sends is [req]. *)
Definition sends_only {A} (req : Request) (m : M A) : Prop :=
  forall env st, exists l,
    st_sent (snd (m env st)) = st_sent st ++ l /\ Forall (fun r => r = req) l.

Lemma sends_only_bind {A B} req (m : M A) (k : A -> M B) :
  sends_only req m -> (forall a, sends_only req (k a)) ->
  sends_only req (bind m k).
Proof.
  intros Hm Hk env st. unfold bind.
  destruct (Hm env st) as (l1 & E1 & F1).
  destruct (m env st) as [[a|e] st1]; simpl in *.
  - destruct (Hk a env st1) as (l2 & E2 & F2).
    exists (l1 ++ l2). rewrite E2, E1, app_assoc. split; [reflexivity |].
    apply Forall_app; split; assumption.
  - exists l1. split; assumption.
Qed.

Lemma sends_only_try_except {A} req (m : M A) h :
  sends_only req m -> (forall e, sends_only req (h e)) ->
  sends_only req (try_except m h).
Proof.
  intros Hm Hh env st. unfold try_except.
  destruct (Hm env st) as (l1 & E1 & F1).
  destruct (m env st) as [[a|e] st1]; simpl in *.
  - exists l1. split; assumption.
  - destruct (Hh e env st1) as (l2 & E2 & F2).
    exists (l1 ++ l2). rewrite E2, E1, app_assoc. split; [reflexivity |].
    apply Forall_app; split; assumption.
Qed.

Lemma sends_only_quiet {A} req (m : M A) :
  (forall env st, st_sent (snd (m env st)) = st_sent st) -> sends_only req m.
Proof.
  intros H env st. exists []. rewrite H, app_nil_r. split; [reflexivity | constructor].
Qed.

Lemma sends_only_gemini_attempt msgs n a :
  sends_only (build_content msgs) (gemini_attempt msgs n a).
Proof.
  unfold gemini_attempt. apply sends_only_try_except.
  - apply sends_only_bind.
    + intros env st. exists [build_content msgs]. simpl.
      split; [reflexivity | repeat constructor].
    + intros text. apply sends_only_quiet. intros env st.
      destruct (String.eqb text ""); reflexivity.
  - intros e. apply sends_only_quiet. intros env st.
    destruct (Nat.ltb a (n - 1)); reflexivity.
Qed.

Lemma sends_only_gemini_loop msgs n attempts :
  sends_only (build_content msgs) (gemini_loop msgs n attempts).
Proof.
  induction attempts as [|a rest IH]; simpl.
  - apply sends_only_quiet. reflexivity.
  - apply sends_only_bind; [apply sends_only_gemini_attempt |].
    intros [t|]; [apply sends_only_quiet; reflexivity | exact IH].
Qed.

(** *** Over a session: only user messages, only windows of two *)

Definition user_history (st : St) : Prop :=
  Forall (fun m => is_user m = true) (f_messages (st_frame st)).

(** A request made of the last (at most) two messages of a history of
    user messages. *)
Definition window_request (req : Request) : Prop :=
  exists h, Forall (fun m => is_user m = true) h /\
            req = map message_parts (skipn (List.length h - 2) h).

Definition windows {A} (m : M A) : Prop :=
  forall env st, user_history st ->
    user_history (snd (m env st)) /\
    exists l, st_sent (snd (m env st)) = st_sent st ++ l /\
              Forall window_request l.

Lemma windows_quiet {A} (m : M A) :
  (forall env st, user_history st ->
     user_history (snd (m env st)) /\ st_sent (snd (m env st)) = st_sent st) ->
  windows m.
Proof.
  intros H env st Hu. destruct (H env st Hu) as [H1 H2].
  split; [exact H1 |]. exists []. rewrite H2, app_nil_r.
  split; [reflexivity | constructor].
Qed.

Lemma windows_bind {A B} (m : M A) (k : A -> M B) :
  windows m -> (forall a, windows (k a)) -> windows (bind m k).
Proof.
  intros Hm Hk env st Hu. unfold bind.
  destruct (Hm env st Hu) as (Hu1 & l1 & E1 & F1).
  destruct (m env st) as [[a|e] st1]; simpl in *.
  - destruct (Hk a env st1 Hu1) as (Hu2 & l2 & E2 & F2).
    split; [exact Hu2 |].
    exists (l1 ++ l2). rewrite E2, E1, app_assoc. split; [reflexivity |].
    apply Forall_app; split; assumption.
  - split; [exact Hu1 |]. exists l1. split; assumption.
Qed.

Lemma windows_try_except {A} (m : M A) h :
  windows m -> (forall e, windows (h e)) -> windows (try_except m h).
Proof.
  intros Hm Hh env st Hu. unfold try_except.
  destruct (Hm env st Hu) as (Hu1 & l1 & E1 & F1).
  destruct (m env st) as [[a|e] st1]; simpl in *.
  - split; [exact Hu1 |]. exists l1. split; assumption.
  - destruct (Hh e env st1 Hu1) as (Hu2 & l2 & E2 & F2).
    split; [exact Hu2 |].
    exists (l1 ++ l2). rewrite E2, E1, app_assoc. split; [reflexivity |].
    apply Forall_app; split; assumption.
Qed.

Lemma windows_try_finally {A} (m : M A) fin :
  windows m -> windows fin -> windows (try_finally m fin).
Proof.
  intros Hm Hf env st Hu. unfold try_finally.
  destruct (Hm env st Hu) as (Hu1 & l1 & E1 & F1).
  destruct (m env st) as [r st1]; simpl in *.
  destruct (Hf env st1 Hu1) as (Hu2 & l2 & E2 & F2).
  destruct (fin env st1) as [[u|e] st2]; simpl in *;
    (split; [exact Hu2 |]; exists (l1 ++ l2); rewrite E2, E1, app_assoc;
     split; [reflexivity | apply Forall_app; split; assumption]).
Qed.

Lemma windows_call_gemini msgs n :
  Forall (fun m => is_user m = true) msgs ->
  windows (call_gemini_api_robust msgs n).
Proof.
  intros Hmsgs env st Hu.
  destruct (sends_only_gemini_loop msgs n (seq 0 n) env st) as (l & E & F).
  unfold call_gemini_api_robust.
  split.
  - (* the oracle client touches no local of the caller *)
    clear E F. unfold user_history.
    assert (Hf : forall attempts st0,
               st_frame (snd (gemini_loop msgs n attempts env st0)) = st_frame st0).
    { induction attempts as [|a rest IH]; intros st0; simpl; [reflexivity |].
      unfold bind at 1, gemini_attempt, try_except, bind, generate_content.
      simpl.
      destruct (env_generate env (st_oracle_calls st0)) as [t|e]; simpl.
      - destruct (String.eqb t ""); simpl; [rewrite IH |]; reflexivity.
      - destruct (Nat.ltb a (n - 1)); simpl; [rewrite IH |]; reflexivity. }
    rewrite Hf. exact Hu.
  - exists l. split; [exact E |].
    eapply Forall_impl; [| exact F]. intros req ->.
    exists msgs. split; [exact Hmsgs |].
    unfold build_content. rewrite recent_messages_skipn, filter_all_users.
    + reflexivity.
    + apply forall_skipn, Hmsgs.
Qed.

Lemma windows_ret {A} (a : A) : windows (ret a).
Proof. apply windows_quiet. intros env st Hu. split; [exact Hu | reflexivity]. Qed.

Lemma windows_throw {A} e : windows (@throw A e).
Proof. apply windows_quiet. intros env st Hu. split; [exact Hu | reflexivity]. Qed.

Lemma windows_lift {A} (r : pyres A) : windows (lift r).
Proof. apply windows_quiet. intros env st Hu. split; [exact Hu | reflexivity]. Qed.

Lemma windows_parse_ai_response_m text : windows (parse_ai_response_m text).
Proof. apply windows_quiet. intros env st Hu. split; [exact Hu | reflexivity]. Qed.

Lemma windows_gets {A} (f : St -> A) : windows (gets f).
Proof. apply windows_quiet. intros env st Hu. split; [exact Hu | reflexivity]. Qed.

Lemma windows_driver_call {A} (answer : Env -> nat -> pyres A) :
  windows (driver_call answer).
Proof.
  apply windows_quiet. intros env st Hu. unfold driver_call.
  destruct (st_driver st); simpl; split; try exact Hu; reflexivity.
Qed.

Lemma windows_page_state_hash : windows page_state_hash.
Proof.
  apply windows_quiet. intros env st Hu. unfold page_state_hash.
  destruct (st_driver st); simpl; split; try exact Hu; reflexivity.
Qed.

Lemma windows_should_continue_m h it mx : windows (should_continue_m h it mx).
Proof.
  apply windows_quiet. intros env st Hu. unfold should_continue_m.
  destruct (should_continue_testing (st_auto st) (st_clock st) h it mx).
  split; [exact Hu | reflexivity].
Qed.

Lemma windows_modify f :
  (forall st, user_history st -> user_history (f st) /\ st_sent (f st) = st_sent st) ->
  windows (modify f).
Proof. intros H. apply windows_quiet. intros env st Hu. apply H, Hu. Qed.

Lemma windows_update_frame g :
  (forall fr, Forall (fun m => is_user m = true) (f_messages fr) ->
              Forall (fun m => is_user m = true) (f_messages (g fr))) ->
  windows (update_frame g).
Proof.
  intros H. apply windows_modify. intros st Hu. split; [apply H, Hu | reflexivity].
Qed.

Lemma windows_add_message m : is_user m = true -> windows (add_message m).
Proof.
  intros Hm. apply windows_update_frame. intros fr H. simpl.
  apply Forall_app; split; [exact H | repeat constructor; exact Hm].
Qed.

Create HintDb windowing.
#[local] Hint Resolve windows_ret windows_throw windows_lift windows_gets
  windows_parse_ai_response_m
  windows_driver_call windows_page_state_hash windows_should_continue_m
  : windowing.

Ltac windows_tac :=
  repeat
    match goal with
    | |- windows (bind _ _) => apply windows_bind; [ | intro ]
    | |- windows (try_except _ _) => apply windows_try_except; [ | intro ]
    | |- windows (try_finally _ _) => apply windows_try_finally
    | |- windows (add_message _) => apply windows_add_message; reflexivity
    | |- windows (update_frame _) =>
        apply windows_update_frame; intros ? ?; simpl; auto
    | |- windows (modify _) =>
        apply windows_modify; intros ? ?; split; [assumption | reflexivity]
    | |- windows (if ?b then _ else _) => destruct b
    | |- windows (match ?x with _ => _ end) => destruct x
    | |- windows (let (_, _) := ?x in _) => destruct x
    | |- windows _ => solve [eauto with windowing]
    end.

Lemma windows_sleep ms : windows (sleep ms).
Proof. unfold sleep. windows_tac. Qed.
#[local] Hint Resolve windows_sleep : windowing.

Lemma windows_getattr_current_url : windows getattr_current_url.
Proof. unfold getattr_current_url. windows_tac. Qed.
#[local] Hint Resolve windows_getattr_current_url : windowing.

Lemma windows_take_screenshot : windows take_screenshot_optimized.
Proof. unfold take_screenshot_optimized. windows_tac. Qed.
#[local] Hint Resolve windows_take_screenshot : windowing.

Lemma windows_page_info : windows get_enhanced_page_info.
Proof. unfold get_enhanced_page_info. windows_tac. Qed.
#[local] Hint Resolve windows_page_info : windowing.

Lemma windows_wait_for_condition c d : windows (wait_for_condition c d).
Proof. unfold wait_for_condition. windows_tac. Qed.
#[local] Hint Resolve windows_wait_for_condition : windowing.

Lemma windows_add_result l : windows (add_result l).
Proof. unfold add_result. windows_tac. Qed.
#[local] Hint Resolve windows_add_result : windowing.

Lemma windows_execute_javascript js : windows (execute_javascript_enhanced js).
Proof.
  unfold execute_javascript_enhanced, incr_failed, incr_successful. windows_tac.
Qed.
#[local] Hint Resolve windows_execute_javascript : windowing.

#[local] Hint Resolve windows_call_gemini : windowing.
#[local] Hint Constructors Forall : windowing.

(** The loop hands the oracle the history it keeps in the frame. *)
Lemma windows_frame_messages {B} (k : list Message -> M B) :
  (forall msgs, Forall (fun m => is_user m = true) msgs -> windows (k msgs)) ->
  windows (messages <- gets (fun st => f_messages (st_frame st)) ;; k messages).
Proof. intros H env st Hu. unfold bind, gets. apply (H _ Hu env st Hu). Qed.

Lemma windows_iteration_step task it : windows (iteration_step task it).
Proof.
  unfold iteration_step, iteration_body, dispatch_end, dispatch_javascript,
    dispatch_wait, dispatch_unknown, iteration_error.
  apply windows_try_except.
  - apply windows_frame_messages. intros msgs Hmsgs. windows_tac.
  - intros e. windows_tac.
Qed.
#[local] Hint Resolve windows_iteration_step : windowing.

Lemma windows_test_loop task fuel mx : windows (test_loop task fuel mx).
Proof. revert mx; induction fuel; intros mx; simpl; windows_tac. Qed.
#[local] Hint Resolve windows_test_loop : windowing.

Lemma windows_navigate url l : windows (navigate url l).
Proof. induction l; simpl; windows_tac. Qed.
#[local] Hint Resolve windows_navigate : windowing.

Lemma windows_run_session url task mx :
  windows (try_finally (try_except (run_body url task mx) (error_report task))
             cleanup).
Proof. unfold run_body, error_report, cleanup. windows_tac. Qed.

(** The run starts from an empty history, whatever the state it is
    called in. *)
Lemma run_sends_windows url task mx env st :
  exists l, st_sent (snd (run_enhanced_test url task mx env st)) = (st_sent st ++ l)%list /\
            Forall window_request l.
Proof.
  unfold run_enhanced_test, bind at 1, modify. cbv beta iota.
  destruct (windows_run_session url task mx env (set_frame st empty_frame))
    as [_ H]; [constructor |].
  exact H.
Qed.

(** *** One round with a cap of one iteration *)

(** Calls that leave the browser handle, the call counters, the loop's
    locals and the instance counters as they were. *)
Definition quiet (st st' : St) : Prop :=
  st_driver st' = st_driver st /\ st_oracle_calls st' = st_oracle_calls st /\
  st_exec_calls st' = st_exec_calls st /\ st_frame st' = st_frame st /\
  st_auto st' = st_auto st.

Lemma quiet_refl st : quiet st st.
Proof. repeat split. Qed.

Lemma quiet_trans st1 st2 st3 : quiet st1 st2 -> quiet st2 st3 -> quiet st1 st3.
Proof.
  intros (A1 & A2 & A3 & A4 & A5) (B1 & B2 & B3 & B4 & B5).
  repeat split; congruence.
Qed.

Lemma driver_call_quiet {A} (answer : Env -> nat -> pyres A) env st :
  quiet st (snd (driver_call answer env st)).
Proof. unfold driver_call. destruct (st_driver st); repeat split. Qed.

Lemma take_screenshot_quiet env st :
  exists p st', take_screenshot_optimized env st = (Ok p, st') /\ quiet st st'.
Proof.
  unfold take_screenshot_optimized, try_except, bind, gets, driver_call, modify.
  destruct (st_driver st).
  - destruct (env_save_screenshot env (st_tick st)) as [[|]|e]; cbn;
      eexists; eexists; split; try reflexivity; repeat split.
  - cbn. eexists; eexists; split; [reflexivity | repeat split].
Qed.

Lemma wait_for_condition_quiet c d env st :
  exists r st', wait_for_condition c d env st = (Ok r, st') /\ quiet st st'.
Proof.
  unfold wait_for_condition, try_except, bind, sleep, modify, ret, driver_call.
  destruct (jv_is c "page_load"); [| destruct (jv_is c "element_change")];
  destruct (st_driver st); cbn -[Z.abs];
  repeat match goal with
         | |- context [match ?x with Ok _ => _ | Raise _ => _ end] => destruct x
         | |- context [if ?b then _ else _] => destruct b
         end; cbn -[Z.abs];
  eexists; eexists; split; try reflexivity; repeat split.
Qed.

Lemma page_info_quiet env st :
  (forall n, exists p, env_page_info env n = Ok p) -> st_driver st = true ->
  exists p st', get_enhanced_page_info env st = (Ok p, st') /\ quiet st st'.
Proof.
  intros Hinfo Hd.
  unfold get_enhanced_page_info, try_except, driver_call. rewrite Hd.
  destruct (Hinfo (st_tick st)) as [p Hp]. rewrite Hp.
  eexists; eexists; split; [reflexivity | repeat split].
Qed.

Lemma navigate_quiet url env st :
  (forall n, env_get env n = Ok tt) -> st_driver st = true ->
  exists st', navigate url [0; 1; 2]%nat env st = (Ok None, st') /\ quiet st st'.
Proof.
  intros Hget Hd. cbn [navigate].
  set (st1 := set_tick_clock st (S (st_tick st))
                (st_clock st + env_driver_latency env (st_tick st))).
  destruct (wait_for_condition_quiet (jstr "page_load") (JInt 3) env st1)
    as (r & st2 & E2 & Q2).
  erewrite bind_ok.
  2: { unfold try_except. erewrite bind_ok.
       2: { unfold driver_call. rewrite Hd, Hget. reflexivity. }
       erewrite bind_ok; [| exact E2]. reflexivity. }
  cbv beta iota. unfold ret.
  exists st2. split; [reflexivity |].
  eapply quiet_trans; [| exact Q2]. repeat split.
Qed.

Lemma page_state_hash_quiet env st :
  exists h st', page_state_hash env st = (Ok h, st') /\ quiet st st'.
Proof.
  unfold page_state_hash. destruct (st_driver st);
  eexists; eexists; split; try reflexivity; repeat split.
Qed.

Lemma test_loop_one_round task env st :
  iteration_of (st_frame st) = 0 -> f_goal_achieved (st_frame st) = false ->
  exists st', test_loop task 2 1 env st = (Ok None, st') /\
    st_driver st' = st_driver st /\ st_oracle_calls st' = st_oracle_calls st /\
    st_exec_calls st' = st_exec_calls st /\ st_auto st' = st_auto st /\
    st_frame st' = set_continue_reason (MaxIterationsReached 1)
                     (set_iteration 1 (st_frame st)).
Proof.
  intros Hi Hg. cbn [test_loop].
  erewrite bind_ok; [| reflexivity]. cbv beta.
  rewrite Hi, Hg. cbn [andb negb Z.ltb Z.compare Z.add].
  erewrite bind_ok; [| reflexivity]. cbv beta.
  set (st1 := set_frame st (set_iteration 1 (st_frame st))).
  destruct (page_state_hash_quiet env st1) as (h & st2 & E2 & Q2).
  erewrite bind_ok; [| exact E2]. cbv beta.
  erewrite bind_ok; [| reflexivity]. cbv beta.
  erewrite bind_ok; [| reflexivity]. cbv beta.
  cbn [should_continue_testing Z.leb Z.compare fst snd negb].
  unfold ret. eexists; split; [reflexivity |].
  destruct Q2 as (Q1 & Q3 & Q4 & Q5 & Q6).
  cbn. subst st1. rewrite Q1, Q3, Q4, Q5, Q6. cbn.
  repeat split; reflexivity.
Qed.


(** C7: a session with [max_iterations = 1] whose first answer from the
    model is [{"action":"end","analysis_report":"ok"}] returns a report
    whose STATUS is COMPLETED (the iteration cap), with one iteration
    and the requested initial URL, and no call of
    [execute_javascript_enhanced]. The browser loads the page and
    answers the page-info reads. The loop stops on the cap before it
    asks the model; the one request is the final analysis, whose text
    becomes the report's analysis. *)
Theorem one_iteration_session env st url task
  (Hdriver : st_driver st = true)
  (Hget : forall n, env_get env n = Ok tt)
  (Hinfo : forall n, exists p, env_page_info env n = Ok p)
  (Horacle : env_generate env (st_oracle_calls st) = Ok json_end_ok) :
  exists final_page elapsed shots changes,
    let r := ReportCompleted task (Some (MaxIterationsReached 1)) 1 elapsed
               (successful_actions (st_auto st)) (failed_actions (st_auto st))
               url final_page json_end_ok [] shots changes in
    fst (run_enhanced_test url task 1 env st) = Ok (Some r) /\
    report_status r = Some "COMPLETED (Maximum iterations (1) reached)" /\
    st_exec_calls (snd (run_enhanced_test url task 1 env st)) = st_exec_calls st.
Proof.
  enough (H : exists final_page elapsed shots changes st',
    run_enhanced_test url task 1 env st =
      (Ok (Some (ReportCompleted task (Some (MaxIterationsReached 1)) 1 elapsed
               (successful_actions (st_auto st)) (failed_actions (st_auto st))
               url final_page json_end_ok [] shots changes)), st') /\
    st_exec_calls st' = st_exec_calls st).
  { destruct H as (fp & el & sh & ch & st' & E & X).
    exists fp, el, sh, ch. cbv zeta. rewrite E. cbn [fst snd].
    split; [reflexivity | split; [reflexivity | exact X]]. }
  unfold run_enhanced_test.
  erewrite bind_ok; [| reflexivity]. cbv beta.
  set (st0 := set_frame st empty_frame).
  unfold try_finally, try_except at 1.
  unfold run_body.
  erewrite bind_ok; [| reflexivity]. cbv beta.
  erewrite bind_ok; [| reflexivity]. cbv beta.
  set (st1 := set_auto st0 (with_start_time (st_auto st0) (st_clock st0))).
  destruct (navigate_quiet url env st1 Hget Hdriver) as (st2 & E2 & Q2).
  erewrite bind_ok; [| exact E2]. cbv beta iota.
  destruct (take_screenshot_quiet env st2) as (p3 & st3 & E3 & Q3).
  erewrite bind_ok; [| exact E3]. cbv beta.
  assert (D3 : st_driver st3 = true)
    by (destruct Q2 as [D2 _]; destruct Q3 as [D3 _]; rewrite D3, D2; exact Hdriver).
  destruct (page_info_quiet env st3 Hinfo D3) as (p4 & st4 & E4 & Q4).
  erewrite bind_ok; [| exact E4]. cbv beta.
  erewrite bind_ok; [| reflexivity]. cbv beta.
  set (st5 := set_frame st4 _).
  destruct (test_loop_one_round task env st5 eq_refl eq_refl)
    as (st6 & E6 & D6 & O6 & X6 & A6 & F6).
  change (S (Z.to_nat 1)) with 2%nat.
  rewrite (bind_ok _ _ env st5 None st6 E6). cbv beta iota.
  rewrite (bind_ok (gets st_frame) _ env st6 (st_frame st6) st6 eq_refl).
  cbv beta.
  assert (D6' : st_driver st6 = true).
  { rewrite D6. subst st5. simpl. destruct Q4 as [D4 _]. rewrite D4. exact D3. }
  rewrite F6. subst st5.
  cbn [set_continue_reason set_iteration st_frame set_frame f_goal_achieved negb].
  destruct (page_info_quiet env st6 Hinfo D6') as (p7 & st7 & E7 & Q7).
  erewrite bind_ok; [| exact E7]. cbv beta.
  destruct (take_screenshot_quiet env st7) as (p8 & st8 & E8 & Q8).
  erewrite bind_ok; [| exact E8]. cbv beta.
  assert (O8 : st_oracle_calls st8 = st_oracle_calls st).
  { destruct Q2 as (_ & O2 & _), Q3 as (_ & O3 & _), Q4 as (_ & O4 & _),
      Q7 as (_ & O7' & _), Q8 as (_ & O8' & _).
    rewrite O8', O7', O6. simpl. rewrite O4, O3, O2. reflexivity. }
  erewrite bind_ok.
  2: { unfold try_except.
       erewrite bind_ok.
       2: { unfold call_gemini_api_robust. cbn [seq gemini_loop].
            erewrite bind_ok.
            2: { unfold gemini_attempt, try_except.
                 erewrite bind_ok.
                 2: { unfold generate_content. rewrite O8, Horacle. reflexivity. }
                 reflexivity. }
            reflexivity. }
       reflexivity. }
  cbv beta.
  erewrite bind_ok; [| reflexivity]. cbv beta.
  erewrite bind_ok; [| reflexivity]. cbv beta.
  unfold ret, cleanup, modify.
  cbn [fst snd record_request st_frame st_auto st_exec_calls].
  assert (Hs : py_strip json_end_ok = json_end_ok) by reflexivity.
  assert (Hn : String.eqb json_end_ok "" = false) by reflexivity.
  rewrite Hs, Hn.
  destruct Q2 as (_ & _ & X2 & F2 & A2), Q3 as (_ & _ & X3 & F3 & A3),
    Q4 as (_ & _ & X4 & F4 & A4), Q7 as (_ & _ & X7 & F7 & A7),
    Q8 as (_ & _ & X8 & F8 & A8).
  rewrite F8, F7, F6, A8, A7, A6.
  cbn [set_continue_reason set_iteration st_frame set_frame st_auto
       st_exec_calls f_continue_reason f_iteration iteration_of results_of
       f_test_results].
  rewrite A4, A3, A2.
  do 5 eexists. split; [reflexivity |].
  cbn. rewrite X8, X7, X6. cbn [set_frame st_exec_calls]. rewrite X4, X3, X2. reflexivity.
Qed.

Lemma one_iteration_session_witness :
  st_driver session_start = true /\
  (forall n, env_get healthy_env n = Ok tt) /\
  (forall n, exists p, env_page_info healthy_env n = Ok p) /\
  env_generate healthy_env (st_oracle_calls session_start) = Ok json_end_ok /\
  exists final_page elapsed shots changes,
    let r := ReportCompleted "Find the login form" (Some (MaxIterationsReached 1)) 1
               elapsed (successful_actions (st_auto session_start))
               (failed_actions (st_auto session_start))
               "https://example.test/" final_page json_end_ok [] shots changes in
    fst (run_enhanced_test "https://example.test/" "Find the login form" 1
           healthy_env session_start) = Ok (Some r) /\
    report_status r = Some "COMPLETED (Maximum iterations (1) reached)" /\
    st_exec_calls (snd (run_enhanced_test "https://example.test/"
                          "Find the login form" 1 healthy_env session_start)) =
      st_exec_calls session_start.
Proof.
  split; [reflexivity |].
  split; [intros n; reflexivity |].
  split; [intros n; exists example_info; reflexivity |].
  split; [reflexivity |].
  apply one_iteration_session.
  - reflexivity.
  - intros n. reflexivity.
  - intros n. exists example_info. reflexivity.
  - reflexivity.
Defined.

(** *** Every exit runs [cleanup]; not every exit returns a report *)

(** C2: on every path [run_enhanced_test] ends with [cleanup] (the final
    state is [after_cleanup] of some state: the driver handle is [None]
    and the cleanup counter has grown). But a report is not returned on
    every path: when the browser dies after the first page (here at its
    fourth driver call) and the model answers "end", the
    [WebDriverException] raised by [current_url] inside
    [getattr(self.driver, 'current_url', 'unknown')] (whose default only
    covers [AttributeError]) escapes the [except Exception] handler of the
    end branch and the error report, and the caller receives it after
    [cleanup] has run. *)
Theorem run_enhanced_test_exits :
  (forall url task mx env st, exists mid,
      snd (run_enhanced_test url task mx env st) = after_cleanup mid) /\
  fst (run_enhanced_test "https://example.test/" "Find the login form" 12
         crashed_env session_start) = Raise invalid_session /\
  st_cleanups (snd (run_enhanced_test "https://example.test/"
                      "Find the login form" 12 crashed_env session_start)) = 1%nat.
Proof.
  split; [| split; vm_compute; reflexivity].
  intros url task mx env st.
  unfold run_enhanced_test, bind at 1, modify, try_finally, cleanup.
  cbv beta iota.
  destruct (try_except (run_body url task mx) (error_report task) env
              (set_frame st empty_frame)) as [r st'].
  exists st'. reflexivity.
Qed.

(** *** The window of the conversation sent to the model *)

(** C6: each request [call_gemini_api_robust messages] sends (one per
    attempt) is built from [messages[-2:]] (all of [messages] when it has
    at most two), keeping the user messages: at most two messages.
    Over a whole session every history is made of user messages only, so
    every request sent is exactly the last two messages (or all of them,
    when fewer) of a history, however long the session has run. *)
Theorem oracle_sees_recent_window :
  (forall messages max_retries env st, exists sent,
      st_sent (snd (call_gemini_api_robust messages max_retries env st)) =
        (st_sent st ++ sent)%list /\
      Forall (fun req => req = build_content messages) sent) /\
  (forall messages : list Message,
      build_content messages =
        map message_parts
          (filter is_user (skipn (List.length messages - 2) messages)) /\
      (List.length (build_content messages) <= 2)%nat) /\
  (forall url task mx env st, exists sent,
      st_sent (snd (run_enhanced_test url task mx env st)) =
        (st_sent st ++ sent)%list /\
      Forall window_request sent).
Proof.
  split; [| split].
  - intros messages max_retries env st.
    exact (sends_only_gemini_loop messages max_retries (seq 0 max_retries) env st).
  - exact build_content_window.
  - exact run_sends_windows.
Qed.

(** *** Who moves the action counters *)

Lemma counted_false_same st st' : counted false st st' -> same_counts st st'.
Proof.
  intros (ds & df & H1 & H2 & _ & _ & H5 & H6).
  destruct (H6 eq_refl) as [-> ->].
  split; [lia | split; [lia |]]. lia.
Qed.

(** C10: one call of [execute_javascript_enhanced] returns and adds one
    to exactly one of [successful_actions] and [failed_actions]; the
    wait and unknown-action branches of the loop leave both counters
    (and the script calls) as they were; and over a whole run the
    counters only grow, by as much in total as there were script
    executions. *)
Theorem action_counters_track_scripts :
  (forall js env st,
      let '(r, st') := execute_javascript_enhanced js env st in
      (exists v, r = Ok v) /\
      st_exec_calls st' = S (st_exec_calls st) /\
      ((successful_actions (st_auto st') = successful_actions (st_auto st) + 1 /\
        failed_actions (st_auto st') = failed_actions (st_auto st)) \/
       (successful_actions (st_auto st') = successful_actions (st_auto st) /\
        failed_actions (st_auto st') = failed_actions (st_auto st) + 1))) /\
  (forall it data env st, same_counts st (snd (dispatch_wait it data env st))) /\
  (forall it action text env st,
      same_counts st (snd (dispatch_unknown it action text env st))) /\
  (forall url task mx env st,
      let st' := snd (run_enhanced_test url task mx env st) in
      successful_actions (st_auto st) <= successful_actions (st_auto st') /\
      failed_actions (st_auto st) <= failed_actions (st_auto st') /\
      (successful_actions (st_auto st') + failed_actions (st_auto st')) -
      (successful_actions (st_auto st) + failed_actions (st_auto st)) =
        Z.of_nat (st_exec_calls st') - Z.of_nat (st_exec_calls st)).
Proof.
  split; [| split; [| split]].
  - exact execute_javascript_exactly_one.
  - intros it data env st. apply counted_false_same, counts_dispatch_wait.
  - intros it action text env st. apply counted_false_same, counts_dispatch_unknown.
  - intros url task mx env st. cbv zeta.
    destruct (counts_run_enhanced_test url task mx env st)
      as (ds & df & H1 & H2 & H3 & H4 & H5 & _).
    rewrite H1, H2, H5. lia.
Qed.

(* ------------------------------------------------------------------ *)
(** ** Further properties of the code *)

Lemma float_window m e :
  float_gt m e 10 = false -> float_gt m e 1 = true ->
  1000 <= (if 0 <=? e + 3 then m * 10 ^ (e + 3) else m / 10 ^ (- (e + 3))) <= 10000.
Proof.
  unfold float_gt. intros H10 H1.
  destruct (Z.leb_spec m 0); [discriminate |].
  destruct (Z.leb_spec 0 e) as [He | He].
  - apply orb_false_iff in H10 as [H40 H10].
    apply Z.ltb_ge in H10.
    destruct (Z.ltb_spec 40 e); [discriminate |].
    apply Z.ltb_lt in H1.
    destruct (Z.leb_spec 0 (e + 3)); [| lia].
    rewrite Z.pow_add_r by lia. change (10 ^ 3) with 1000. nia.
  - destruct (Z.ltb_spec (Z.log2 m + 1) (- e)); [discriminate |].
    apply Z.ltb_ge in H10. apply Z.ltb_lt in H1.
    set (k := - e) in *.
    assert (Hk : 0 < k) by lia.
    destruct (Z.leb_spec 0 (e + 3)).
    + assert (E : 10 ^ k * 10 ^ (e + 3) = 1000).
      { rewrite <- Z.pow_add_r by lia. replace (k + (e + 3)) with 3 by lia. reflexivity. }
      assert (0 < 10 ^ (e + 3)) by (apply Z.pow_pos_nonneg; lia).
      nia.
    + set (j := - (e + 3)).
      assert (Ej : 10 ^ k = 1000 * 10 ^ j).
      { replace k with (3 + j) by lia. rewrite Z.pow_add_r by lia. reflexivity. }
      assert (0 < 10 ^ j) by (apply Z.pow_pos_nonneg; lia).
      split.
      * apply Z.div_le_lower_bound; nia.
      * apply Z.div_le_upper_bound; nia.
Qed.

(** The wait duration clamp of [run_enhanced_test]: whatever the model
    sent, a duration that passes [max(1, min(duration, 10))] makes
    [wait_for_condition] sleep between 1 and 10 seconds. *)
Lemma clamp_duration_window d v :
  clamp_duration d = Ok v -> 1000 <= duration_ms v <= 10000.
Proof.
  destruct d as [| b | z | lit | s | l | kvs]; simpl; intros H; try discriminate.
  - injection H as <-. simpl. lia.
  - injection H as <-. unfold duration_ms.
    destruct (Z.ltb_spec 10 z); [lia |]. destruct (Z.ltb_spec 1 z); lia.
  - destruct (String.eqb lit "NaN"); [injection H as <-; simpl; lia |].
    destruct (String.eqb lit "Infinity"); [injection H as <-; simpl; lia |].
    destruct (String.eqb lit "-Infinity"); [injection H as <-; simpl; lia |].
    destruct (float_parts lit) as [[m e] |] eqn:Ep;
      [| injection H as <-; simpl; lia].
    destruct (float_gt m e 10) eqn:G10; [injection H as <-; simpl; lia |].
    destruct (float_gt m e 1) eqn:G1; [| injection H as <-; simpl; lia].
    injection H as <-. simpl. rewrite Ep. exact (float_window m e G10 G1).
Qed.

(** [max(1, min(duration, 10))] succeeds exactly on a JSON number or
    boolean; on a string, [null], list or object the comparison inside
    [min] raises a [TypeError]. *)
Lemma clamp_duration_numbers d :
  ((exists v, clamp_duration d = Ok v) <->
   match d with JBool _ | JInt _ | JFloat _ => True | _ => False end)
  /\
  (match d with JBool _ | JInt _ | JFloat _ => False | _ => True end ->
   clamp_duration d
   = Raise (OtherError "TypeError: '<' not supported between instances")).
Proof.
  split; [| destruct d; simpl; intros H; first [contradiction | reflexivity]].
  destruct d; simpl; split; intros H; try tauto;
    try (destruct H; discriminate).
  - eexists; reflexivity.
  - eexists; reflexivity.
  - repeat match goal with |- context [if ?b then _ else _] => destruct b end;
      try (eexists; reflexivity).
    destruct (float_parts literal) as [[m e] |];
      [repeat match goal with |- context [if ?b then _ else _] => destruct b end |];
      eexists; reflexivity.
Qed.

Lemma clamp_duration_numbers_witness :
  clamp_duration (jstr "3")
  = Raise (OtherError "TypeError: '<' not supported between instances").
Proof.
  apply (proj2 (clamp_duration_numbers (jstr "3"))). exact I.
Defined.


(** [wait_for_condition] never raises and always reports success:
    every outcome is [(True, message)]. *)
Lemma wait_for_condition_true c d env st :
  exists w, fst (wait_for_condition c d env st) = Ok (true, w).
Proof.
  unfold wait_for_condition, try_except, bind, sleep, modify, ret, driver_call.
  destruct (jv_is c "page_load"); [| destruct (jv_is c "element_change")];
  destruct (st_driver st); cbn -[Z.abs];
  repeat match goal with
         | |- context [match ?x with Ok _ => _ | Raise _ => _ end] => destruct x
         | |- context [if ?b then _ else _] => destruct b
         end; cbn -[Z.abs]; eexists; reflexivity.
Qed.

(** When the page-load wait raises [e], [wait_for_condition] swallows it
    and returns [(True, "Wait completed with warning: " + str(e))]. *)
Lemma wait_page_load_timeout d env st e :
  st_driver st = true -> env_wait_ready env (st_tick st) = Raise e ->
  fst (wait_for_condition (jstr "page_load") d env st) = Ok (true, WaitWarning (exc_str e)).
Proof.
  intros Hd He.
  unfold wait_for_condition, try_except, bind, driver_call.
  assert (Hp : jv_is (jstr "page_load") "page_load" = true) by reflexivity.
  rewrite Hp, Hd, He. reflexivity.
Qed.

Lemma starts_with_app_l p q s :
  starts_with (p ++ q) s = true -> starts_with p s = true.
Proof.
  revert s; induction p as [|a p IH]; intros s H; [reflexivity |].
  destruct s as [|b s]; [discriminate |].
  simpl in H |- *. apply andb_prop in H as [H1 H2].
  rewrite H1. simpl. exact (IH s H2).
Qed.

(** Every failure reported by [execute_javascript_enhanced] carries a
    message that starts with ["Error"]. *)
Lemma execute_javascript_failure_message js env st msg :
  fst (execute_javascript_enhanced js env st) = Ok (false, msg) ->
  starts_with "Error" msg = true.
Proof.
  unfold execute_javascript_enhanced, bind, modify, try_except, driver_call,
    incr_failed, incr_successful, sleep, ret.
  cbn -[starts_with].
  destruct (st_driver st).
  - destruct (env_execute env (st_tick st)) as [[s|p]|e]; cbn -[starts_with].
    + destruct (starts_with "Error:" s) eqn:E; cbn -[starts_with];
        intros H; inversion H; subst; clear H.
      apply (starts_with_app_l "Error" ":"). exact E.
    + discriminate.
    + intros H; inversion H; subst. reflexivity.
  - cbn. intros H; inversion H; subst. reflexivity.
Qed.

(** [take_screenshot_optimized] either returns [""] and leaves the counter
    alone, or returns the path named after the current counter and adds one
    to it. *)
Lemma take_screenshot_outcome env st :
  let '(r, st') := take_screenshot_optimized env st in
  (r = Ok "" /\ st_screenshot_count st' = st_screenshot_count st) \/
  (r = Ok (screenshot_path (st_screenshot_count st)) /\
   st_screenshot_count st' = st_screenshot_count st + 1).
Proof.
  unfold take_screenshot_optimized, try_except, bind, gets, driver_call, modify, ret.
  destruct (st_driver st); cbn.
  - destruct (env_save_screenshot env (st_tick st)) as [[|]|e]; cbn; auto.
  - auto.
Qed.

(** [get_enhanced_page_info] raises only when the driver is there, its
    page read raised, and the fallback [getattr(self.driver, 'current_url',
    'unknown')] raised an exception other than [AttributeError]; that
    exception is the one propagated. *)
Lemma page_info_raises env st e :
  fst (get_enhanced_page_info env st) = Raise e ->
  st_driver st = true /\
  (exists e0, env_page_info env (st_tick st) = Raise e0) /\
  env_current_url env (S (st_tick st)) = Raise e /\
  (forall m, e <> AttributeError m).
Proof.
  unfold get_enhanced_page_info, getattr_current_url, try_except, bind, driver_call, ret, throw.
  destruct (st_driver st) eqn:Hd; cbn; intros H.
  - destruct (env_page_info env (st_tick st)) as [p|e0]; cbn in H; [discriminate |].
    rewrite Hd in H.
    destruct (env_current_url env (S (st_tick st))) as [u|e1]; cbn in H; [discriminate |].
    destruct e1; cbn in H; try discriminate; inversion H; subst;
      (split; [reflexivity | split; [eexists; reflexivity | split; [reflexivity | intros m; discriminate]]]).
  - rewrite Hd in H. cbn in H. discriminate.
Qed.

(** Without a driver, [get_enhanced_page_info] returns the error record
    with URL ["unknown"] and changes nothing. *)
Lemma page_info_without_driver env st :
  st_driver st = false ->
  get_enhanced_page_info env st = (Ok (error_page_info "unknown"), st).
Proof.
  intros Hd. unfold get_enhanced_page_info, getattr_current_url, try_except, bind,
    driver_call, ret. rewrite Hd. cbn. rewrite Hd. reflexivity.
Qed.

Lemma digits_value_app s t acc :
  digits_value (s ++ t) acc = digits_value t (digits_value s acc).
Proof. revert acc; induction s; intros acc; simpl; auto. Qed.

Lemma code_hex_digit n : 0 <= n < 10 -> code (hex_digit n) = 48 + n.
Proof.
  intros Hn. unfold hex_digit, code.
  destruct (Z.ltb_spec n 10); [| lia].
  rewrite nat_ascii_embedding by lia. lia.
Qed.

Lemma dec_digits_value f n acc a :
  0 <= n < 10 ^ Z.of_nat f ->
  exists k, 0 <= k /\
    digits_value (dec_digits f n acc) a = digits_value acc (a * 10 ^ k + n).
Proof.
  revert n acc a; induction f as [|f IH]; intros n acc a Hn.
  - simpl in Hn. exists 0. split; [lia |]. simpl. f_equal. lia.
  - simpl dec_digits.
    assert (Hd : code (hex_digit (n mod 10)) = 48 + n mod 10).
    { apply code_hex_digit. pose proof (Z.mod_pos_bound n 10). lia. }
    destruct (Z.ltb_spec n 10).
    + exists 1. split; [lia |]. simpl. rewrite Hd. f_equal.
      rewrite Z.mod_small by lia. lia.
    + destruct (IH (n / 10) (String (hex_digit (n mod 10)) acc) a) as (k & Hk0 & Hk).
      { split; [apply Z.div_pos; lia |].
        apply Z.div_lt_upper_bound; [lia |].
        rewrite Nat2Z.inj_succ, Z.pow_succ_r in Hn by lia. lia. }
      exists (k + 1). split; [lia |]. rewrite Hk. simpl. rewrite Hd. f_equal.
      rewrite Z.pow_add_r by lia.
      pose proof (Z.div_mod n 10). lia.
Qed.

Lemma digits_value_zeros k acc : digits_value (repeat_char "0" k) acc = acc * 10 ^ Z.of_nat k.
Proof.
  revert acc; induction k as [|k IH]; intros acc.
  - simpl. lia.
  - change (repeat_char "0" (S k)) with (String "0" (repeat_char "0" k)).
    cbn [digits_value]. rewrite IH. change (code "0") with 48.
    rewrite Nat2Z.inj_succ, Z.pow_succ_r by lia. lia.
Qed.

Lemma zero_pad4_value n :
  0 <= n < 10 ^ 64 -> digits_value (zero_pad4 n) 0 = n.
Proof.
  intros Hn. unfold zero_pad4, str_int.
  destruct (Z.ltb_spec n 0); [lia |].
  rewrite digits_value_app, digits_value_zeros. simpl (0 * _).
  destruct (dec_digits_value 64 n EmptyString 0) as (k & _ & Hk); [exact Hn |].
  rewrite Hk. simpl. lia.
Qed.

Lemma string_app_cancel_l p s t : (p ++ s = p ++ t)%string -> s = t.
Proof. induction p; simpl; intros H; [exact H | injection H; auto]. Qed.

Lemma string_app_length s t :
  String.length (s ++ t) = (String.length s + String.length t)%nat.
Proof. induction s; simpl; auto. Qed.

Lemma string_app_cancel_r s t u : (s ++ u = t ++ u)%string -> s = t.
Proof.
  intros H.
  assert (Hl : String.length s = String.length t).
  { apply (f_equal String.length) in H. rewrite !string_app_length in H. lia. }
  revert t H Hl; induction s as [|a s IH]; intros [|b t] H Hl;
    simpl in *; try discriminate; [reflexivity |].
  injection H as -> H. f_equal. apply IH; [exact H | lia].
Qed.

(** Distinct counter values (below 10^64) give distinct screenshot paths,
    so successive screenshots never overwrite each other. *)
Lemma screenshot_path_injective a b :
  0 <= a < 10 ^ 64 -> 0 <= b < 10 ^ 64 ->
  screenshot_path a = screenshot_path b -> a = b.
Proof.
  intros Ha Hb H. unfold screenshot_path in H.
  apply string_app_cancel_l, string_app_cancel_r in H.
  rewrite <- (zero_pad4_value a Ha), <- (zero_pad4_value b Hb), H. reflexivity.
Qed.

Lemma gemini_attempt_eq messages max_retries attempt env st :
  gemini_attempt messages max_retries attempt env st =
  let n := st_oracle_calls st in
  let st1 := record_request st (build_content messages)
               (st_clock st + env_oracle_latency env n) in
  match env_generate env n with
  | Ok text => (Ok (if String.eqb text "" then None else Some (py_strip text)), st1)
  | Raise e =>
      if Nat.ltb attempt (max_retries - 1)
      then (Ok None, set_clock st1 (st_clock st1 + retry_delay_ms e attempt))
      else (Raise e, st1)
  end.
Proof.
  unfold gemini_attempt, try_except, bind, generate_content, ret, sleep, modify, throw.
  cbv zeta. destruct (env_generate env (st_oracle_calls st)) as [t|e].
  - destruct (String.eqb t ""); reflexivity.
  - destruct (Nat.ltb attempt (max_retries - 1)); reflexivity.
Qed.

Lemma gemini_loop_calls messages max_retries attempts env st :
  (st_oracle_calls (snd (gemini_loop messages max_retries attempts env st)) <=
    st_oracle_calls st + List.length attempts)%nat.
Proof.
  revert st; induction attempts as [|a rest IH]; intros st; [simpl; lia |].
  cbn [gemini_loop]. unfold bind at 1. rewrite gemini_attempt_eq. cbv zeta.
  destruct (env_generate env (st_oracle_calls st)) as [t|e].
  - destruct (String.eqb t ""); cbn [snd].
    + specialize (IH (record_request st (build_content messages)
                        (st_clock st + env_oracle_latency env (st_oracle_calls st)))).
      simpl in IH |- *. lia.
    + simpl. lia.
  - destruct (Nat.ltb a (max_retries - 1)).
    + specialize (IH (set_clock (record_request st (build_content messages)
                        (st_clock st + env_oracle_latency env (st_oracle_calls st))) 
                        (st_clock (record_request st (build_content messages)
                        (st_clock st + env_oracle_latency env (st_oracle_calls st))) +
                         retry_delay_ms e a))).
      simpl in IH |- *. lia.
    + simpl. lia.
Qed.

Lemma gemini_loop_cons messages max_retries a rest env st :
  gemini_loop messages max_retries (a :: rest) env st =
  match gemini_attempt messages max_retries a env st with
  | (Ok (Some text), st') => (Ok text, st')
  | (Ok None, st') => gemini_loop messages max_retries rest env st'
  | (Raise e, st') => (Raise e, st')
  end.
Proof.
  cbn [gemini_loop]. unfold bind.
  destruct (gemini_attempt messages max_retries a env st) as [[[t|]|e] st']; reflexivity.
Qed.

Lemma gemini_loop_all_raise messages max_retries k a env st :
  (a + k = max_retries)%nat -> (1 <= k)%nat ->
  (forall i, (i < k)%nat -> exists e, env_generate env (st_oracle_calls st + i) = Raise e) ->
  st_oracle_calls (snd (gemini_loop messages max_retries (seq a k) env st)) =
    (st_oracle_calls st + k)%nat /\
  exists e, env_generate env (st_oracle_calls st + k - 1) = Raise e /\
            fst (gemini_loop messages max_retries (seq a k) env st) = Raise e.
Proof.
  revert a st; induction k as [|k IH]; intros a st Hk H1 Hall; [lia |].
  cbn [seq]. rewrite gemini_loop_cons, gemini_attempt_eq. cbv zeta.
  destruct (Hall 0%nat ltac:(lia)) as [e0 He0].
  rewrite Nat.add_0_r in He0. rewrite He0.
  destruct k as [|k].
  - replace (Nat.ltb a (max_retries - 1)) with false
      by (symmetry; apply Nat.ltb_ge; lia).
    cbn [fst snd]. split; [simpl; lia |].
    exists e0. split; [| reflexivity]. rewrite Nat.add_1_r, Nat.sub_1_r. simpl.
    exact He0.
  - replace (Nat.ltb a (max_retries - 1)) with true
      by (symmetry; apply Nat.ltb_lt; lia).
    set (st1 := set_clock _ _).
    destruct (IH (S a) st1) as [IH1 (e & He & IH2)].
    + lia.
    + lia.
    + intros i Hi. destruct (Hall (S i) ltac:(lia)) as [e' He'].
      exists e'. subst st1. simpl. rewrite <- He'. f_equal. lia.
    + split.
      * rewrite IH1. subst st1. simpl. lia.
      * exists e. split; [| exact IH2].
        rewrite <- He. subst st1. simpl. f_equal. lia.
Qed.

Lemma gemini_loop_first_text messages max_retries k a i t env st :
  (a + k = max_retries)%nat -> (i < k)%nat ->
  (forall j, (j < i)%nat -> env_generate env (st_oracle_calls st + j) = Ok "") ->
  env_generate env (st_oracle_calls st + i) = Ok t -> t <> "" ->
  fst (gemini_loop messages max_retries (seq a k) env st) = Ok (py_strip t) /\
  st_oracle_calls (snd (gemini_loop messages max_retries (seq a k) env st)) =
    (st_oracle_calls st + i + 1)%nat.
Proof.
  revert a i st; induction k as [|k IH]; intros a i st Hk Hi Hempty Ht Hne; [lia |].
  cbn [seq]. rewrite gemini_loop_cons, gemini_attempt_eq. cbv zeta.
  destruct i as [|i].
  - rewrite Nat.add_0_r in Ht. rewrite Ht.
    apply String.eqb_neq in Hne. rewrite Hne. cbn. split; [reflexivity | lia].
  -
    pose proof (Hempty 0%nat ltac:(lia)) as H0. rewrite Nat.add_0_r in H0. rewrite H0.
    cbn [String.eqb].
    set (st1 := record_request _ _ _).
    destruct (IH (S a) i st1) as [IH1 IH2].
    + lia.
    + lia.
    + intros j Hj. subst st1. simpl.
      rewrite <- (Hempty (S j) ltac:(lia)). f_equal. lia.
    + subst st1. simpl. rewrite <- Ht. f_equal. lia.
    + exact Hne.
    + split; [exact IH1 |]. rewrite IH2. subst st1. simpl. lia.
Qed.

Lemma navigate_all_fail url env st :
  st_driver st = true -> (forall n, exists e, env_get env n = Raise e) ->
  exists e st', env_get env (S (S (st_tick st))) = Raise e /\
    navigate url [0; 1; 2]%nat env st =
      (Ok (Some (ReportNavigationFailed url (exc_str e))), st') /\
    st_oracle_calls st' = st_oracle_calls st /\ st_sent st' = st_sent st.
Proof.
  intros Hd Hget.
  destruct (Hget (st_tick st)) as [e0 H0].
  destruct (Hget (S (st_tick st))) as [e1 H1].
  destruct (Hget (S (S (st_tick st)))) as [e2 H2].
  exists e2. eexists. split; [exact H2 |].
  cbn [navigate]. unfold try_except, bind, driver_call, sleep, modify, ret.
  rewrite Hd, H0. cbn. rewrite Hd, H1. cbn. rewrite Hd, H2. cbn.
  split; [reflexivity | split; reflexivity].
Qed.

Lemma navigate_without_driver url env st :
  st_driver st = false ->
  exists st', navigate url [0; 1; 2]%nat env st =
      (Ok (Some (ReportNavigationFailed url "'NoneType' object has no attribute")), st') /\
    st_oracle_calls st' = st_oracle_calls st /\ st_sent st' = st_sent st.
Proof.
  intros Hd. eexists.
  cbn [navigate]. unfold try_except, bind, driver_call, sleep, modify, ret.
  rewrite Hd. cbn. rewrite Hd. cbn. rewrite Hd. cbn.
  split; [reflexivity | split; reflexivity].
Qed.

(** Once [navigate] returns a report, so does the run. *)
Lemma run_after_navigation url task mx env st r st' :
  navigate url [0; 1; 2]%nat env
    (set_auto (set_frame st empty_frame)
       (with_start_time (st_auto (set_frame st empty_frame))
          (st_clock (set_frame st empty_frame)))) =
    (Ok (Some r), st') ->
  run_enhanced_test url task mx env st = (Ok (Some r), after_cleanup st').
Proof.
  intros Hn. unfold run_enhanced_test, try_finally, try_except, run_body, cleanup.
  unfold bind at 1, modify at 1. cbv beta iota.
  unfold bind at 1, time_time, gets. cbv beta iota.
  unfold bind at 1, modify. cbv beta iota.
  unfold bind at 1. rewrite Hn. reflexivity.
Qed.

Lemma run_final_state url task mx env st :
  exists mid, snd (run_enhanced_test url task mx env st) = after_cleanup mid.
Proof.
  unfold run_enhanced_test, bind at 1, modify, try_finally, cleanup.
  cbv beta iota.
  destruct (try_except (run_body url task mx) (error_report task) env
              (set_frame st empty_frame)) as [r st'].
  exists st'. reflexivity.
Qed.

(** When every [driver.get] raises, [run_enhanced_test] returns the
    navigation failure built from the third attempt's exception, sends no
    request to the model and ends with the driver released. *)
Theorem navigation_failure_report url task mx env st :
  st_driver st = true -> (forall n, exists e, env_get env n = Raise e) ->
  exists e, env_get env (S (S (st_tick st))) = Raise e /\
    fst (run_enhanced_test url task mx env st) =
      Ok (Some (ReportNavigationFailed url (exc_str e))) /\
    st_sent (snd (run_enhanced_test url task mx env st)) = st_sent st /\
    st_driver (snd (run_enhanced_test url task mx env st)) = false.
Proof.
  intros Hd Hget.
  destruct (navigate_all_fail url env
              (set_auto (set_frame st empty_frame)
                 (with_start_time (st_auto (set_frame st empty_frame))
                    (st_clock (set_frame st empty_frame)))) Hd Hget)
    as (e & st' & He & Hn & _ & Hs).
  exists e. split; [exact He |].
  rewrite (run_after_navigation url task mx env st _ _ Hn).
  split; [reflexivity | split; [exact Hs | reflexivity]].
Qed.

(** [cleanup] sets [self.driver = None] and nothing reopens it: a second
    [run_enhanced_test] on the same object always ends in the navigation
    failure report, without a request to the model. *)
Theorem second_run_fails_navigation url task mx env st url' task' mx' env' :
  let st1 := snd (run_enhanced_test url task mx env st) in
  exists err,
    fst (run_enhanced_test url' task' mx' env' st1) =
      Ok (Some (ReportNavigationFailed url' err)) /\
    st_sent (snd (run_enhanced_test url' task' mx' env' st1)) = st_sent st1.
Proof.
  cbv zeta. destruct (run_final_state url task mx env st) as [mid ->].
  set (st1 := after_cleanup mid).
  destruct (navigate_without_driver url' env'
              (set_auto (set_frame st1 empty_frame)
                 (with_start_time (st_auto (set_frame st1 empty_frame))
                    (st_clock (set_frame st1 empty_frame)))) eq_refl)
    as (st' & Hn & _ & Hs).
  eexists. rewrite (run_after_navigation url' task' mx' env' st1 _ _ Hn).
  split; [reflexivity | exact Hs].
Qed.

Definition costs {A} (k : nat) (m : M A) : Prop :=
  forall env st,
    f_iteration (st_frame (snd (m env st))) = f_iteration (st_frame st) /\
    (st_oracle_calls (snd (m env st)) <= st_oracle_calls st + k)%nat.

Lemma costs_ret {A} (a : A) : costs 0 (ret a).
Proof. intros env st. simpl. split; [reflexivity | lia]. Qed.

Lemma costs_throw {A} e : costs 0 (@throw A e).
Proof. intros env st. simpl. split; [reflexivity | lia]. Qed.

Lemma costs_lift {A} (r : pyres A) : costs 0 (lift r).
Proof. intros env st. simpl. split; [reflexivity | lia]. Qed.

Lemma costs_parse_ai_response_m text : costs 0 (parse_ai_response_m text).
Proof. intros env st. simpl. split; [reflexivity | lia]. Qed.

Lemma costs_gets {A} (f : St -> A) : costs 0 (gets f).
Proof. intros env st. simpl. split; [reflexivity | lia]. Qed.

Lemma costs_modify f :
  (forall st, f_iteration (st_frame (f st)) = f_iteration (st_frame st) /\
              st_oracle_calls (f st) = st_oracle_calls st) ->
  costs 0 (modify f).
Proof. intros H env st. simpl. destruct (H st). split; [assumption | lia]. Qed.

Lemma costs_le {A} k k' (m : M A) : (k <= k')%nat -> costs k m -> costs k' m.
Proof. intros Hk H env st. destruct (H env st). split; [assumption | lia]. Qed.

Lemma costs_bind {A B} k1 k2 (m : M A) (f : A -> M B) :
  costs k1 m -> (forall a, costs k2 (f a)) -> costs (k1 + k2) (bind m f).
Proof.
  intros Hm Hf env st. unfold bind. specialize (Hm env st).
  destruct (m env st) as [[a|e] s1]; simpl in *; destruct Hm as [Hm1 Hm2].
  - destruct (Hf a env s1) as [H1 H2]. split; [congruence | lia].
  - split; [assumption | lia].
Qed.

Lemma costs_try_except {A} k1 k2 (m : M A) h :
  costs k1 m -> (forall e, costs k2 (h e)) -> costs (k1 + k2) (try_except m h).
Proof.
  intros Hm Hh env st. unfold try_except. specialize (Hm env st).
  destruct (m env st) as [[a|e] s1]; simpl in *; destruct Hm as [Hm1 Hm2].
  - split; [assumption | lia].
  - destruct (Hh e env s1) as [H1 H2]. split; [congruence | lia].
Qed.

Lemma costs_try_finally {A} k1 k2 (m : M A) fin :
  costs k1 m -> costs k2 fin -> costs (k1 + k2) (try_finally m fin).
Proof.
  intros Hm Hf env st. unfold try_finally. specialize (Hm env st).
  destruct (m env st) as [r s1]; simpl in *; destruct Hm as [Hm1 Hm2].
  specialize (Hf env s1).
  destruct (fin env s1) as [[u|e] s2]; simpl in *; destruct Hf as [H1 H2];
    (split; [congruence | lia]).
Qed.

Lemma costs_driver_call {A} (answer : Env -> nat -> pyres A) :
  costs 0 (driver_call answer).
Proof.
  intros env st. unfold driver_call.
  destruct (st_driver st); simpl; split; (reflexivity || lia).
Qed.

Lemma costs_generate_content req : costs 1 (generate_content req).
Proof. intros env st. simpl. split; [reflexivity | lia]. Qed.

Lemma costs_page_state_hash : costs 0 page_state_hash.
Proof.
  intros env st. unfold page_state_hash.
  destruct (st_driver st); simpl; split; (reflexivity || lia).
Qed.

Lemma costs_should_continue_m h it mx : costs 0 (should_continue_m h it mx).
Proof.
  intros env st. unfold should_continue_m.
  destruct (should_continue_testing (st_auto st) (st_clock st) h it mx) as [r a'].
  simpl. split; [reflexivity | lia].
Qed.

Create HintDb costing.
#[local] Hint Resolve costs_ret costs_throw costs_lift costs_gets
  costs_parse_ai_response_m
  costs_driver_call costs_page_state_hash costs_should_continue_m : costing.

Ltac costs_tac :=
  repeat match goal with
    | |- costs 0 (bind _ _) => apply (costs_bind 0 0); [ | intro ]
    | |- costs 0 (try_except _ _) => apply (costs_try_except 0 0); [ | intro ]
    | |- costs 0 (try_finally _ _) => apply (costs_try_finally 0 0)
    | |- costs 0 (modify _) => apply costs_modify; intro; split; reflexivity
    | |- costs 0 (if ?b then _ else _) => destruct b
    | |- costs 0 (match ?x with _ => _ end) => destruct x
    | |- costs 0 (let (_, _) := ?x in _) => destruct x
    | |- costs 0 _ => solve [eauto with costing]
    end.

Lemma costs_gemini_attempt msgs n a : costs 1 (gemini_attempt msgs n a).
Proof.
  unfold gemini_attempt. apply (costs_try_except 1 0).
  - apply (costs_bind 1 0); [apply costs_generate_content | intro; costs_tac].
  - intro. unfold sleep. costs_tac.
Qed.

Lemma costs_gemini_loop msgs n l : costs (List.length l) (gemini_loop msgs n l).
Proof.
  induction l as [|a l IH]; simpl; [apply costs_ret |].
  apply (costs_bind 1 (List.length l)); [apply costs_gemini_attempt |].
  intros [t|]; [apply (costs_le 0); [lia | apply costs_ret] | exact IH].
Qed.

Lemma costs_call_gemini msgs n : costs n (call_gemini_api_robust msgs n).
Proof.
  unfold call_gemini_api_robust.
  pose proof (costs_gemini_loop msgs n (seq 0 n)) as H.
  rewrite length_seq in H. exact H.
Qed.

Lemma costs_iteration_step task it : costs 3 (iteration_step task it).
Proof.
  unfold iteration_step, iteration_body. apply (costs_try_except 3 0).
  - apply (costs_bind 0 3); [apply costs_gets | intro].
    apply (costs_bind 3 0); [apply costs_call_gemini | intro].
    unfold dispatch_end, dispatch_javascript,
      dispatch_wait, dispatch_unknown, execute_javascript_enhanced,
      take_screenshot_optimized, get_enhanced_page_info, getattr_current_url,
      wait_for_condition, incr_successful, incr_failed, sleep, time_time,
      add_result, add_message, update_frame.
    costs_tac.
  - intro. unfold iteration_error, take_screenshot_optimized, getattr_current_url,
      add_result, add_message, update_frame.
    costs_tac.
Qed.

Definition yields {A} (P : A -> Prop) (m : M A) : Prop :=
  forall env st a, fst (m env st) = Ok a -> P a.

Lemma yields_ret {A} (P : A -> Prop) a : P a -> yields P (ret a).
Proof. intros H env st a' E. simpl in E. inversion E; subst. exact H. Qed.

Lemma yields_throw {A} (P : A -> Prop) e : yields P (throw e).
Proof. intros env st a E. discriminate. Qed.

Lemma yields_bind {A B} (P : B -> Prop) (m : M A) (k : A -> M B) :
  (forall a, yields P (k a)) -> yields P (bind m k).
Proof.
  intros H env st b. unfold bind.
  destruct (m env st) as [[a|e] s1]; [apply H | discriminate].
Qed.

Lemma yields_try_except {A} (P : A -> Prop) (m : M A) h :
  yields P m -> (forall e, yields P (h e)) -> yields P (try_except m h).
Proof.
  intros Hm Hh env st a. unfold try_except. specialize (Hm env st).
  destruct (m env st) as [[a'|e] s1]; [apply Hm | apply Hh].
Qed.

Ltac yields_tac :=
  repeat (cbv beta zeta; match goal with
    | |- yields _ (bind _ _) => apply yields_bind; intro
    | |- yields _ (try_except _ _) => apply yields_try_except; [ | intro ]
    | |- yields _ (ret _) => apply yields_ret; simpl; first [exact I | reflexivity]
    | |- yields _ (throw _) => apply yields_throw
    | |- yields _ (if ?b then _ else _) => destruct b
    | |- yields _ (match ?x with _ => _ end) => destruct x
    end).

(** The outcome of [iteration_step task it]: a report returned from it
    counts [it] iterations. *)
Definition step_report (it : Z) (o : BodyOutcome) : Prop :=
  match o with
  | BodyReturn r => report_iterations r = Some it
  | BodyContinue => True
  end.

Lemma yields_iteration_step task it : yields (step_report it) (iteration_step task it).
Proof.
  unfold iteration_step, iteration_body, iteration_error, dispatch_end,
    dispatch_javascript, dispatch_wait, dispatch_unknown.
  yields_tac.
Qed.

Lemma should_continue_below self now h it mx :
  fst (fst (should_continue_testing self now h it mx)) = true -> it < mx.
Proof.
  unfold should_continue_testing. destruct (Z.leb_spec mx it); [discriminate | lia].
Qed.

(** The state of the [while] loop after [n] rounds that asked the model:
    [iteration] in [0 .. max(0, max_iterations)], and at most three requests
    for each round that reached the model. *)
Definition loop_budget (mx c0 : Z) (st : St) : Prop :=
  0 <= iteration_of (st_frame st) <= Z.max 0 mx /\
  Z.of_nat (st_oracle_calls st) <=
    c0 + 3 * Z.min (iteration_of (st_frame st)) (Z.max 0 (mx - 1)).

Lemma budget_next mx c0 st s :
  loop_budget mx c0 st -> iteration_of (st_frame st) < mx ->
  iteration_of (st_frame s) = iteration_of (st_frame st) + 1 ->
  (st_oracle_calls s <= st_oracle_calls st)%nat ->
  loop_budget mx c0 s.
Proof.
  unfold loop_budget. intros [H1 H2] Hlt Hi Hc. rewrite Hi.
  split; [lia |]. apply Nat2Z.inj_le in Hc. lia.
Qed.

Lemma budget_step mx c0 st s :
  loop_budget mx c0 st -> iteration_of (st_frame st) + 1 < mx ->
  iteration_of (st_frame s) = iteration_of (st_frame st) + 1 ->
  (st_oracle_calls s <= st_oracle_calls st + 3)%nat ->
  loop_budget mx c0 s.
Proof.
  unfold loop_budget. intros [H1 H2] Hlt Hi Hc. rewrite Hi.
  split; [lia |]. apply Nat2Z.inj_le in Hc. rewrite Nat2Z.inj_add in Hc. lia.
Qed.

Lemma iteration_of_same st s :
  f_iteration (st_frame s) = f_iteration (st_frame st) ->
  iteration_of (st_frame s) = iteration_of (st_frame st).
Proof. unfold iteration_of. intros ->. reflexivity. Qed.

Lemma bind_run {A B} (m : M A) (k : A -> M B) env st :
  bind m k env st =
  match m env st with
  | (Ok a, s) => k a env s
  | (Raise e, s) => (Raise e, s)
  end.
Proof. reflexivity. Qed.

Lemma test_loop_budget task mx c0 : forall fuel env st,
  loop_budget mx c0 st ->
  loop_budget mx c0 (snd (test_loop task fuel mx env st)) /\
  (forall r, fst (test_loop task fuel mx env st) = Ok (Some r) ->
     exists it, report_iterations r = Some it /\ 1 <= it <= mx).
Proof.
  induction fuel as [|f IH]; intros env st HJ.
  - split; [exact HJ | intros r H; discriminate].
  - cbn [test_loop]. rewrite bind_run. cbn [gets].
    destruct ((iteration_of (st_frame st) <? mx) && negb (f_goal_achieved (st_frame st)))
      eqn:C; [| split; [exact HJ | intros r H; discriminate]].
    apply andb_prop in C as [C _]. apply Z.ltb_lt in C.
    rewrite bind_run. cbn [update_frame modify].
    set (s1 := set_frame st (set_iteration (iteration_of (st_frame st) + 1) (st_frame st))).
    assert (I1 : iteration_of (st_frame s1) = iteration_of (st_frame st) + 1)
      by reflexivity.
    assert (O1 : st_oracle_calls s1 = st_oracle_calls st) by reflexivity.
    clearbody s1.
    rewrite bind_run.
    destruct (costs_page_state_hash env s1) as [F2 O2].
    apply iteration_of_same in F2.
    destruct (page_state_hash env s1) as [[h|e] s2]; simpl in F2, O2;
      [| cbn [fst snd]; split; [apply (budget_next mx c0 st); [assumption | assumption | congruence | lia]
               | intros r H; discriminate]].
    rewrite bind_run.
    destruct (costs_should_continue_m h (iteration_of (st_frame st) + 1) mx env s2) as [F3 O3].
    apply iteration_of_same in F3.
    destruct (should_continue_m h (iteration_of (st_frame st) + 1) mx env s2)
      as [[d|e] s3] eqn:D; simpl in F3, O3;
      [| cbn [fst snd]; split; [apply (budget_next mx c0 st); [assumption | assumption | congruence | lia]
               | intros r H; discriminate]].
    rewrite bind_run. cbn [update_frame modify].
    set (s4 := set_frame s3 (set_continue_reason (snd d) (st_frame s3))).
    assert (I4 : iteration_of (st_frame s4) = iteration_of (st_frame s3)) by reflexivity.
    assert (O4 : st_oracle_calls s4 = st_oracle_calls s3) by reflexivity.
    clearbody s4.
    destruct (negb (fst d)) eqn:Dn.
    { cbn [fst snd ret]; split; [apply (budget_next mx c0 st); [assumption | assumption | congruence | lia]
             | intros r H; discriminate]. }
    assert (Hlt : iteration_of (st_frame st) + 1 < mx).
    { unfold should_continue_m in D.
      destruct (should_continue_testing (st_auto s2) (st_clock s2) h
                  (iteration_of (st_frame st) + 1) mx) as [r a'] eqn:E.
      inversion D; subst.
      apply (should_continue_below (st_auto s2) (st_clock s2) h).
      rewrite E. cbn [fst]. destruct (fst d); [reflexivity | discriminate]. }
    rewrite bind_run.
    destruct (costs_iteration_step task (iteration_of (st_frame st) + 1) env s4) as [F5 O5].
    apply iteration_of_same in F5.
    pose proof (yields_iteration_step task (iteration_of (st_frame st) + 1) env s4) as Y5.
    destruct (iteration_step task (iteration_of (st_frame st) + 1) env s4)
      as [[o|e] s5]; cbn [fst snd] in F5, O5, Y5.
    2: { cbn [fst snd]. split; [| intros r H; discriminate].
         apply (budget_step mx c0 st); [assumption | assumption | congruence | lia]. }
    assert (HJ5 : loop_budget mx c0 s5)
      by (apply (budget_step mx c0 st); [assumption | assumption | congruence | lia]).
    destruct o as [|r].
    + apply IH. exact HJ5.
    + cbn [ret fst snd]. split; [exact HJ5 |].
      intros r' H. inversion H; subst. exists (iteration_of (st_frame st) + 1).
      split; [exact (Y5 _ eq_refl) | destruct HJ as [[H0 _] _]; lia].
Qed.

Lemma yields_bind_dep {A B} (Q : A -> Prop) (P : B -> Prop) (m : M A) (k : A -> M B) :
  yields Q m -> (forall a, Q a -> yields P (k a)) -> yields P (bind m k).
Proof.
  intros Hm H env st b. unfold bind. specialize (Hm env st).
  destruct (m env st) as [[a|e] s1]; [intros E; exact (H a (Hm a eq_refl) env s1 b E)
                                    | discriminate].
Qed.

Lemma costs_take_screenshot : costs 0 take_screenshot_optimized.
Proof. unfold take_screenshot_optimized. costs_tac. Qed.

Lemma costs_getattr_current_url : costs 0 getattr_current_url.
Proof. unfold getattr_current_url. costs_tac. Qed.

Lemma costs_page_info : costs 0 get_enhanced_page_info.
Proof. unfold get_enhanced_page_info, getattr_current_url. costs_tac. Qed.

Lemma costs_navigate url l : costs 0 (navigate url l).
Proof.
  induction l as [|a l IH]; simpl; [apply costs_ret |].
  unfold wait_for_condition, sleep. costs_tac.
Qed.

Lemma navigate_report url l : forall env st r,
  fst (navigate url l env st) = Ok (Some r) -> report_iterations r = None.
Proof.
  induction l as [|a l IH]; [discriminate |].
  cbn [navigate]. intros env0 st0 r0 E0.
  refine (yields_bind_dep
            (fun o => match o with NavReturn r => report_iterations r = None | _ => True end)
            (fun o => forall r, o = Some r -> report_iterations r = None) _ _ _ _
            env0 st0 (Some r0) E0 r0 eq_refl).
  - unfold wait_for_condition. yields_tac.
  - intros [| |r] Hr env st o E r' ->.
    + discriminate.
    + exact (IH env st r' E).
    + cbn in E. inversion E; subst. exact Hr.
Qed.

(** What the outer [try] of [run_enhanced_test] leaves, for a session that
    started with [calls] requests. *)
Definition run_post (mx calls : Z) (st : St) : Prop :=
  0 <= iteration_of (st_frame st) <= Z.max 0 mx /\
  Z.of_nat (st_oracle_calls st) <= calls + 3 * Z.max 0 (mx - 1) + 1.

Lemma run_post_of_budget mx c0 st : loop_budget mx c0 st -> run_post mx c0 st.
Proof. unfold loop_budget, run_post. lia. Qed.

Lemma run_post_start mx c st :
  iteration_of (st_frame st) = 0 -> Z.of_nat (st_oracle_calls st) <= c ->
  run_post mx c st.
Proof. unfold run_post. lia. Qed.

Definition pre_loop (c : Z) (st : St) : Prop :=
  iteration_of (st_frame st) = 0 /\ Z.of_nat (st_oracle_calls st) <= c.

Lemma costs_iter {A} k (m : M A) env s :
  costs k m ->
  iteration_of (st_frame (snd (m env s))) = iteration_of (st_frame s) /\
  (st_oracle_calls (snd (m env s)) <= st_oracle_calls s + k)%nat.
Proof. intros H. destruct (H env s). split; [apply iteration_of_same |]; assumption. Qed.

Lemma pre_costs0 {A} (m : M A) c env s :
  costs 0 m -> pre_loop c s -> pre_loop c (snd (m env s)).
Proof.
  intros H [H1 H2]. destruct (costs_iter 0 m env s H) as [E1 E2].
  split; [congruence | apply Nat2Z.inj_le in E2; lia].
Qed.

Lemma budget_costs0 {A} (m : M A) mx c env s :
  costs 0 m -> loop_budget mx c s -> loop_budget mx c (snd (m env s)).
Proof.
  intros H [H1 H2]. destruct (costs_iter 0 m env s H) as [E1 E2].
  unfold loop_budget. rewrite E1. split; [exact H1 | apply Nat2Z.inj_le in E2; lia].
Qed.

Lemma post_costs1 {A} (m : M A) mx c env s :
  costs 1 m -> loop_budget mx c s -> run_post mx c (snd (m env s)).
Proof.
  intros H [H1 H2]. destruct (costs_iter 1 m env s H) as [E1 E2].
  unfold run_post. rewrite E1. split; [exact H1 |].
  apply Nat2Z.inj_le in E2. rewrite Nat2Z.inj_add in E2. lia.
Qed.

Lemma pre_budget mx c s : pre_loop c s -> loop_budget mx c s.
Proof. intros [H1 H2]. unfold loop_budget. rewrite H1. lia. Qed.

Lemma costs_final_analysis msgs : costs 1
  (try_except
     (final_response <- call_gemini_api_robust msgs 1 ;;
      ret (if String.eqb final_response "" then default_final_analysis
           else final_response))
     (fun _ => ret default_final_analysis)).
Proof.
  apply (costs_try_except 1 0); [| intro; apply costs_ret].
  apply (costs_bind 1 0); [apply costs_call_gemini | intro; apply costs_ret].
Qed.

Lemma run_body_bounds url task mx env st :
  iteration_of (st_frame st) = 0 ->
  run_post mx (Z.of_nat (st_oracle_calls st)) (snd (run_body url task mx env st)) /\
  (forall rep it, fst (run_body url task mx env st) = Ok (Some rep) ->
     report_iterations rep = Some it -> 0 <= it <= Z.max 0 mx).
Proof.
  intros H0. set (c := Z.of_nat (st_oracle_calls st)).
  assert (P0 : pre_loop c st) by (split; [exact H0 | lia]). clearbody c.
  unfold run_body. rewrite bind_run. cbn [time_time gets].
  rewrite bind_run. cbn [modify].
  set (s1 := set_auto st _).
  assert (P1 : pre_loop c s1) by exact P0. clearbody s1.
  rewrite bind_run.
  pose proof (pre_costs0 _ c env s1 (costs_navigate url [0; 1; 2]%nat) P1) as P2.
  pose proof (navigate_report url [0; 1; 2]%nat env s1) as N2.
  destruct (navigate url [0; 1; 2]%nat env s1) as [[nav|e] s2]; cbn [fst snd] in P2, N2.
  2: { cbn [fst snd]. split; [| intros; discriminate].
       apply run_post_of_budget, pre_budget, P2. }
  destruct nav as [r|].
  { cbn [ret fst snd]. split; [apply run_post_of_budget, pre_budget, P2 |].
    intros rep it E. inversion E; subst. rewrite (N2 rep eq_refl). discriminate. }
  rewrite bind_run.
  pose proof (pre_costs0 _ c env s2 costs_take_screenshot P2) as P3.
  destruct (take_screenshot_optimized env s2) as [[path|e] s3]; cbn [fst snd] in P3.
  2: { cbn [fst snd]. split; [| intros; discriminate].
       apply run_post_of_budget, pre_budget, P3. }
  rewrite bind_run.
  pose proof (pre_costs0 _ c env s3 costs_page_info P3) as P4.
  destruct (get_enhanced_page_info env s3) as [[info|e] s4]; cbn [fst snd] in P4.
  2: { cbn [fst snd]. split; [| intros; discriminate].
       apply run_post_of_budget, pre_budget, P4. }
  rewrite bind_run. cbn [update_frame modify].
  set (s5 := set_frame s4 _).
  assert (B5 : loop_budget mx c s5).
  { apply pre_budget. split; [reflexivity | exact (proj2 P4)]. }
  clearbody s5.
  rewrite bind_run.
  pose proof (test_loop_budget task mx c (S (Z.to_nat mx)) env s5 B5) as [B6 R6].
  destruct (test_loop task (S (Z.to_nat mx)) mx env s5) as [[ex|e] s6]; cbn [fst snd] in B6, R6.
  2: { cbn [fst snd]. split; [| intros; discriminate]. apply run_post_of_budget, B6. }
  destruct ex as [r|].
  { cbn [ret fst snd]. split; [apply run_post_of_budget, B6 |].
    intros rep it E Hit. inversion E; subst.
    destruct (R6 rep eq_refl) as (it' & Hr & Hb). rewrite Hr in Hit.
    inversion Hit; subst. lia. }
  rewrite bind_run. cbn [gets].
  destruct (negb (f_goal_achieved (st_frame s6))).
  2: { cbn [ret fst snd]. split; [apply run_post_of_budget, B6 | intros; discriminate]. }
  rewrite bind_run.
  pose proof (budget_costs0 _ mx c env s6 costs_page_info B6) as B7.
  destruct (get_enhanced_page_info env s6) as [[info'|e] s7]; cbn [fst snd] in B7.
  2: { cbn [fst snd]. split; [| intros; discriminate]. apply run_post_of_budget, B7. }
  rewrite bind_run.
  pose proof (budget_costs0 _ mx c env s7 costs_take_screenshot B7) as B8.
  destruct (take_screenshot_optimized env s7) as [[shot|e] s8]; cbn [fst snd] in B8.
  2: { cbn [fst snd]. split; [| intros; discriminate]. apply run_post_of_budget, B8. }
  rewrite bind_run.
  pose proof (post_costs1 _ mx c env s8
                (costs_final_analysis [mkMessage "user" (FbFinal task info')
                                         (image_of shot)]) B8) as P9.
  destruct (try_except _ _ env s8) as [[an|e] s9]; cbn [fst snd] in P9.
  2: { cbn [fst snd]. split; [exact P9 | intros; discriminate]. }
  cbn [bind time_time gets ret fst snd]. split; [exact P9 |].
  intros rep it E Hit. inversion E; subst. cbn [report_iterations] in Hit.
  inversion Hit; subst. exact (proj1 P9).
Qed.

Lemma post_costs0 {A} (m : M A) mx c env s :
  costs 0 m -> run_post mx c s -> run_post mx c (snd (m env s)).
Proof.
  intros H [H1 H2]. destruct (costs_iter 0 m env s H) as [E1 E2].
  unfold run_post. rewrite E1. split; [exact H1 | apply Nat2Z.inj_le in E2; lia].
Qed.

Lemma error_report_bounds task e mx c env s :
  run_post mx c s ->
  run_post mx c (snd (error_report task e env s)) /\
  (forall rep it, fst (error_report task e env s) = Ok (Some rep) ->
     report_iterations rep = Some it -> 0 <= it <= Z.max 0 mx).
Proof.
  intros P. unfold error_report.
  rewrite bind_run. cbn [time_time gets]. rewrite bind_run. cbn [gets].
  rewrite bind_run.
  assert (Hu : forall url s', run_post mx c s' ->
            run_post mx c (snd ((st <- gets (fun st => st) ;;
              let fr := st_frame st in
              ret (Some (ReportFailed task (exc_str e) (st_clock s - start_time (st_auto st))
                           url (iteration_of fr) (f_test_results fr)
                           (st_screenshot_count st)))) env s')) /\
            (forall rep it, fst ((st <- gets (fun st => st) ;;
              let fr := st_frame st in
              ret (Some (ReportFailed task (exc_str e) (st_clock s - start_time (st_auto st))
                           url (iteration_of fr) (f_test_results fr)
                           (st_screenshot_count st)))) env s') = Ok (Some rep) ->
               report_iterations rep = Some it -> 0 <= it <= Z.max 0 mx)).
  { intros url s' P'. cbn [bind gets ret fst snd]. split; [exact P' |].
    intros rep it E Hit. inversion E; subst. cbn [report_iterations] in Hit.
    inversion Hit; subst. exact (proj1 P'). }
  destruct (st_driver s).
  - pose proof (post_costs0 _ mx c env s costs_getattr_current_url P) as P1.
    destruct (getattr_current_url env s) as [[url|e'] s1]; cbn [fst snd] in P1.
    + apply Hu, P1.
    + cbn [fst snd]. split; [exact P1 | intros; discriminate].
  - cbn [ret]. apply Hu, P.
Qed.

Lemma run_enhanced_test_bounds url task mx env st :
  run_post mx (Z.of_nat (st_oracle_calls st))
    (snd (run_enhanced_test url task mx env st)) /\
  (forall rep it, fst (run_enhanced_test url task mx env st) = Ok (Some rep) ->
     report_iterations rep = Some it -> 0 <= it <= Z.max 0 mx).
Proof.
  unfold run_enhanced_test. rewrite bind_run. cbn [modify].
  set (s0 := set_frame st empty_frame).
  assert (H0 : iteration_of (st_frame s0) = 0) by reflexivity.
  assert (C0 : st_oracle_calls s0 = st_oracle_calls st) by reflexivity.
  clearbody s0. rewrite <- C0.
  unfold try_finally, try_except, cleanup, modify.
  destruct (run_body_bounds url task mx env s0 H0) as [P1 R1].
  destruct (run_body url task mx env s0) as [[o|e] s1]; cbn [fst snd] in P1, R1.
  - cbn [fst snd]. split; [exact P1 | exact R1].
  - destruct (error_report_bounds task e mx (Z.of_nat (st_oracle_calls s0)) env s1 P1)
      as [P2 R2].
    destruct (error_report task e env s1) as [r2 s2]. cbn [fst snd] in *.
    split; [exact P2 | exact R2].
Qed.

(** A whole [run_enhanced_test] sends at most
    [3 * (max_iterations - 1) + 1] requests to the model: three attempts
    for each iteration that reaches the model (the iteration equal to
    [max_iterations] stops in [should_continue_testing] first) and one for
    the final analysis. *)
Theorem run_enhanced_test_requests url task mx env st :
  (st_oracle_calls (snd (run_enhanced_test url task mx env st)) <=
     st_oracle_calls st + 3 * Z.to_nat (mx - 1) + 1)%nat.
Proof.
  destruct (run_enhanced_test_bounds url task mx env st) as [[_ H] _]. lia.
Qed.

(** The iteration count printed in any report of [run_enhanced_test]
    lies between 0 and [max(0, max_iterations)]. *)
Theorem run_enhanced_test_report_iterations url task mx env st rep it :
  fst (run_enhanced_test url task mx env st) = Ok (Some rep) ->
  report_iterations rep = Some it -> 0 <= it <= Z.max 0 mx.
Proof. apply (run_enhanced_test_bounds url task mx env st). Qed.

(** [call_gemini_api_robust] sends at most [max_retries] requests. *)
Theorem call_gemini_requests_bound messages max_retries env st :
  (st_oracle_calls (snd (call_gemini_api_robust messages max_retries env st)) <=
    st_oracle_calls st + max_retries)%nat.
Proof.
  unfold call_gemini_api_robust.
  pose proof (gemini_loop_calls messages max_retries (seq 0 max_retries) env st) as H.
  rewrite length_seq in H. exact H.
Qed.

(** When every attempt raises, [call_gemini_api_robust] sends exactly
    [max_retries] requests and re-raises the exception of the last one. *)
Theorem call_gemini_all_fail messages max_retries env st :
  (1 <= max_retries)%nat ->
  (forall i, (i < max_retries)%nat ->
     exists e, env_generate env (st_oracle_calls st + i) = Raise e) ->
  st_oracle_calls (snd (call_gemini_api_robust messages max_retries env st)) =
    (st_oracle_calls st + max_retries)%nat /\
  exists e, env_generate env (st_oracle_calls st + max_retries - 1) = Raise e /\
            fst (call_gemini_api_robust messages max_retries env st) = Raise e.
Proof.
  intros H1 Hall. unfold call_gemini_api_robust.
  exact (gemini_loop_all_raise messages max_retries max_retries 0 env st eq_refl H1 Hall).
Qed.

(** After [i] empty answers, the first non-empty answer [t] within
    [max_retries] attempts is returned stripped, after [i + 1] requests. *)
Theorem call_gemini_first_text messages max_retries i t env st :
  (i < max_retries)%nat ->
  (forall j, (j < i)%nat -> env_generate env (st_oracle_calls st + j) = Ok "") ->
  env_generate env (st_oracle_calls st + i) = Ok t -> t <> "" ->
  fst (call_gemini_api_robust messages max_retries env st) = Ok (py_strip t) /\
  st_oracle_calls (snd (call_gemini_api_robust messages max_retries env st)) =
    (st_oracle_calls st + i + 1)%nat.
Proof.
  intros Hi He Ht Hne. unfold call_gemini_api_robust.
  exact (gemini_loop_first_text messages max_retries max_retries 0 i t env st
           eq_refl Hi He Ht Hne).
Qed.

(** *** Witnesses *)

Lemma clamp_duration_window_witness : 1000 <= duration_ms (JInt 10) <= 10000.
Proof. apply (clamp_duration_window (JInt 42) (JInt 10)). reflexivity. Defined.

Lemma wait_page_load_timeout_witness :
  fst (wait_for_condition (jstr "page_load") (JInt 3) (dead_after 0) session_start) =
    Ok (true, WaitWarning (exc_str invalid_session)).
Proof.
  apply (wait_page_load_timeout (JInt 3) (dead_after 0) session_start invalid_session);
    reflexivity.
Defined.

Lemma execute_javascript_failure_message_witness :
  starts_with "Error" ("Error executing JavaScript: " ++ exc_str invalid_session) = true.
Proof.
  apply (execute_javascript_failure_message (jstr "document.title")
           (dead_after 0) session_start).
  vm_compute. reflexivity.
Defined.

Lemma screenshot_path_injective_witness : 7 = 7.
Proof.
  apply (screenshot_path_injective 7 7); [split; [lia | reflexivity] | split; [lia | reflexivity] | reflexivity].
Defined.

Lemma page_info_raises_witness :
  st_driver session_start = true /\
  (exists e0, env_page_info (dead_after 0) (st_tick session_start) = Raise e0) /\
  env_current_url (dead_after 0) (S (st_tick session_start)) = Raise invalid_session /\
  (forall m, invalid_session <> AttributeError m).
Proof.
  apply (page_info_raises (dead_after 0) session_start invalid_session).
  vm_compute. reflexivity.
Defined.

Lemma page_info_without_driver_witness :
  get_enhanced_page_info healthy_env (after_cleanup session_start) =
    (Ok (error_page_info "unknown"), after_cleanup session_start).
Proof. apply (page_info_without_driver healthy_env (after_cleanup session_start)). reflexivity. Defined.

Lemma navigation_failure_report_witness :
  exists e, env_get (dead_after 0) (S (S (st_tick session_start))) = Raise e /\
    fst (run_enhanced_test "https://example.test/" "Find the login form" 10
           (dead_after 0) session_start) =
      Ok (Some (ReportNavigationFailed "https://example.test/" (exc_str e))) /\
    st_sent (snd (run_enhanced_test "https://example.test/" "Find the login form" 10
                    (dead_after 0) session_start)) = st_sent session_start /\
    st_driver (snd (run_enhanced_test "https://example.test/" "Find the login form" 10
                      (dead_after 0) session_start)) = false.
Proof.
  apply (navigation_failure_report "https://example.test/" "Find the login form" 10
           (dead_after 0) session_start).
  - reflexivity.
  - intros n. exists invalid_session. reflexivity.
Defined.

Lemma call_gemini_all_fail_witness :
  st_oracle_calls (snd (call_gemini_api_robust [] 3 rate_limited_env session_start)) =
    (st_oracle_calls session_start + 3)%nat /\
  exists e, env_generate rate_limited_env (st_oracle_calls session_start + 3 - 1) = Raise e /\
            fst (call_gemini_api_robust [] 3 rate_limited_env session_start) = Raise e.
Proof.
  apply (call_gemini_all_fail [] 3 rate_limited_env session_start).
  - lia.
  - intros i _. eexists. reflexivity.
Defined.

Lemma call_gemini_first_text_witness :
  fst (call_gemini_api_robust [] 3 empty_first_env session_start) = Ok (py_strip json_end_ok) /\
  st_oracle_calls (snd (call_gemini_api_robust [] 3 empty_first_env session_start)) =
    (st_oracle_calls session_start + 1 + 1)%nat.
Proof.
  apply (call_gemini_first_text [] 3 1 json_end_ok empty_first_env session_start).
  - lia.
  - intros j Hj. replace j with 0%nat by lia. reflexivity.
  - reflexivity.
  - vm_compute. discriminate.
Defined.

Lemma run_enhanced_test_report_iterations_witness : 0 <= 1 <= Z.max 0 10.
Proof.
  eapply (run_enhanced_test_report_iterations "https://example.test/"
            "Find the login form" 10 healthy_env session_start).
  - vm_compute. reflexivity.
  - reflexivity.
Defined.
